(** * Plant-disease feature pipeline: feature extractor and dataset assembler

    A shallow embedding of [train_sklearn_model.py]: the per-image feature
    extractor [extract_features_worker], its twin [extract_features] that the
    trainer writes into the generated [predict.py], and the dataset assembler
    [prepare_dataset] with the start of [train_model] and [main].

    Conventions of the embedding.
    - A decoded image ([np.array(img)]) is a nested list of shape
      (height, width, channels) of integers; [valid_image] states the shape
      (IMG_SIZE, IMG_SIZE, 3) and the uint8 range that
      [Image.open(..).convert('RGB').resize(..)] guarantees.
    - Floating-point values are modelled by exact real numbers (type [R]):
      every float64/float32 operation of the source is read as the exact
      operation it rounds.  Integer aggregates (counts, sums, minima) are
      computed in [Z] and injected with [IZR].
    - Calls into PIL, the operating system, the random module and
      scikit-learn are parameters of the development; a call that can raise
      returns a [res].  *)

From Stdlib Require Import ZArith List Reals Lra Lia String Ascii.
From stdpp Require Import base option list gmap sets strings sorting pretty.

(** ** Python exceptions and fallible results *)

(** The exception classes that occur in the modelled code paths; all of them
    derive from Python's [Exception]. *)
Inductive exn : Type :=
  | OSError
  | NotADirectoryError
  | UnidentifiedImageError
  | MemoryError
  | ValueError
  | KeyError
  | IndexError.

Inductive res (A : Type) : Type :=
  | Ok (a : A)
  | Raise (e : exn).
Arguments Ok {A} a.
Arguments Raise {A} e.

#[global] Instance res_ret : MRet res := fun A a => Ok a.
#[global] Instance res_bind : MBind res := fun A B f m =>
  match m with
  | Ok a => f a
  | Raise e => Raise e
  end.
#[global] Instance res_fmap : FMap res := fun A B f m =>
  match m with
  | Ok a => Ok (f a)
  | Raise e => Raise e
  end.

(** [try: body; except Exception: return None] with the body's value
    returned from inside the [try]. *)
Definition try_except_None {A : Type} (body : res A) : res (option A) :=
  match body with
  | Ok a => Ok (Some a)
  | Raise _ => Ok None
  end.

Definition is_Ok {A : Type} (m : res A) : bool :=
  match m with
  | Ok _ => true
  | Raise _ => false
  end.

(** ** Arrays *)

Definition ndarray1 : Type := list Z.
Definition ndarray2 : Type := list (list Z).
Definition ndarray3 : Type := list (list (list Z)).

(** Configuration constants of the training script. *)
Definition IMG_SIZE : Z := 128.
Definition SAMPLES_PER_CLASS : nat := 1000.
Definition OUTPUT_DIR : string := "sklearn_model_output".

(** [a.shape[:2]] and [a.shape[2]]. *)
Definition height {A : Type} (a : list (list A)) : nat := length a.
Definition width {A : Type} (a : list (list A)) : nat := length (hd [] a).
Definition nchan (a : ndarray3) : nat := length (hd [] (hd [] a)).

Definition is_uint8 (v : Z) : bool := (0 <=? v)%Z && (v <=? 255)%Z.

(** Shape (IMG_SIZE, IMG_SIZE, 3), dtype uint8. *)
Definition valid_image (a : ndarray3) : bool :=
  (Z.of_nat (length a) =? IMG_SIZE)%Z &&
  forallb (fun row =>
    (Z.of_nat (length row) =? IMG_SIZE)%Z &&
    forallb (fun px => (length px =? 3)%nat && forallb is_uint8 px) row) a.

(** [a[:,:,k]] *)
Definition channel (k : nat) (a : ndarray3) : ndarray2 :=
  map (map (fun px => nth k px 0%Z)) a.

(** [a.ravel()] for two and three dimensions. *)
Definition ravel2 {A : Type} (a : list (list A)) : list A := concat a.
Definition ravel3 (a : ndarray3) : ndarray1 := concat (concat a).

Definition as_float (l : list Z) : list R := map IZR l.

(** ** numpy reductions *)

Definition count {A : Type} (f : A -> bool) (l : list A) : Z :=
  Z.of_nat (length (List.filter f l)).

(** Bin of [v] for [np.histogram(_, bins, range=(lo, hi))] on integer data:
    values outside the range are not counted and the last bin is closed on
    the right. *)
Definition bin_of (bins : nat) (lo hi v : Z) : option nat :=
  if ((v <? lo) || (hi <? v))%Z then None
  else if (v =? hi)%Z then Some (bins - 1)%nat
  else Some (Z.to_nat (Z.of_nat bins * (v - lo) / (hi - lo))).

Definition np_histogram (a : list Z) (bins : nat) (lo hi : Z) : list Z :=
  map (fun b => count (fun v => bool_decide (bin_of bins lo hi v = Some b)) a)
      (seq 0 bins).

Definition np_sum (l : list R) : R := fold_right Rplus 0%R l.

Definition np_mean (l : list R) : R := (np_sum l / INR (length l))%R.

(** [np.std]: square root of the mean squared deviation from the mean. *)
Definition np_std (l : list R) : R :=
  let m := np_mean l in
  sqrt (np_mean (map (fun x => ((x - m) * (x - m))%R) l)).

Definition np_min (l : list Z) : Z :=
  match l with
  | [] => 0%Z
  | x :: t => fold_left Z.min t x
  end.

Definition np_max (l : list Z) : Z :=
  match l with
  | [] => 0%Z
  | x :: t => fold_left Z.max t x
  end.

(** [np.median]: middle element of the sorted data, or the mean of the two
    middle elements when the size is even. *)
Definition np_median (l : list Z) : R :=
  let s := merge_sort Z.le l in
  let n := length l in
  if Nat.even n
  then ((IZR (nth (n / 2 - 1) s 0%Z) + IZR (nth (n / 2) s 0%Z)) / 2)%R
  else IZR (nth (n / 2) s 0%Z).

(** A reduction over [axis=(0, 1)]: one value per channel. *)
Definition over_axes01 {T : Type} (f : list Z -> T) (a : ndarray3) : list T :=
  map (fun k => f (ravel2 (channel k a))) (seq 0 (nchan a)).

(** [np.mean(a, axis=2)] *)
Definition mean_axis2 (a : ndarray3) : list (list R) :=
  map (map (fun px => np_mean (as_float px))) a.

(** Elementwise comparison of an array with a scalar, and elementwise [&]. *)
Definition gt_scalar (a : ndarray2) (c : Z) : list (list bool) :=
  map (map (fun v => (c <? v)%Z)) a.
Definition lt_scalar (a : ndarray2) (c : Z) : list (list bool) :=
  map (map (fun v => (v <? c)%Z)) a.
Definition and_mask (m1 m2 : list (list bool)) : list (list bool) :=
  zip_with (zip_with andb) m1 m2.

(** [np.sum] of a boolean array. *)
Definition sum_mask (m : list (list bool)) : Z := count (fun b : bool => b) (ravel2 m).

(** ** scipy.ndimage.convolve *)

(** Boundary mode 'reflect' (the default): the input is extended by
    reflecting about the edge of the last pixel, (d c b a | a b c d | d c b a). *)
Definition reflect (n k : Z) : Z :=
  let m := (k mod (2 * n))%Z in
  if (m <? n)%Z then m else (2 * n - 1 - m)%Z.

Definition get2 (g : list (list R)) (i j : Z) : R :=
  nth (Z.to_nat j) (nth (Z.to_nat i) g []) 0%R.

(** Extended input at a possibly out-of-range position. *)
Definition get2_reflect (g : list (list R)) (i j : Z) : R :=
  get2 g (reflect (Z.of_nat (height g)) i) (reflect (Z.of_nat (width g)) j).

Definition getw (w : list (list Z)) (a b : nat) : R :=
  IZR (nth b (nth a w []) 0%Z).

(** [ndimage.convolve(g, w)] for a kernel with odd side lengths, default
    [mode='reflect'] and [origin=0]: the kernel is mirrored along both axes
    and correlated with the extended input, centred at [size // 2]. *)
Definition ndimage_convolve (g : list (list R)) (w : list (list Z)) : list (list R) :=
  let kh := length w in
  let kw := length (hd [] w) in
  map (fun i =>
    map (fun j =>
      np_sum (map (fun a =>
        np_sum (map (fun b =>
          (getw w (kh - 1 - a) (kw - 1 - b) *
           get2_reflect g (Z.of_nat i + Z.of_nat a - Z.of_nat (kh / 2))
                          (Z.of_nat j + Z.of_nat b - Z.of_nat (kw / 2)))%R)
          (seq 0 kw))) (seq 0 kh)))
      (seq 0 (width g))) (seq 0 (height g)).

(** ** The training-time feature extractor ([extract_features_worker]) *)

Definition laplacian : list (list Z) :=
  [ [0; 1; 0];
    [1; -4; 1];
    [0; 1; 0] ]%Z.

(** [np.histogram(img_array[:,:,c], bins=64, range=(0, 256))] divided by
    [IMG_SIZE * IMG_SIZE]. *)
Definition hist_norm (c : nat) (img_array : ndarray3) : list R :=
  map (fun n => (IZR n / IZR (IMG_SIZE * IMG_SIZE))%R)
      (np_histogram (ravel2 (channel c img_array)) 64 0 256).

Definition mean_of (a : ndarray3) : list R :=
  over_axes01 (fun l => np_mean (as_float l)) a.
Definition std_of (a : ndarray3) : list R :=
  over_axes01 (fun l => np_std (as_float l)) a.
Definition median_of (a : ndarray3) : list R := over_axes01 np_median a.
Definition min_of (a : ndarray3) : list R :=
  over_axes01 (fun l => IZR (np_min l)) a.
Definition max_of (a : ndarray3) : list R :=
  over_axes01 (fun l => IZR (np_max l)) a.

Definition gray_of (img_array : ndarray3) : list (list R) := mean_axis2 img_array.

Definition edges_of (img_array : ndarray3) : list (list R) :=
  ndimage_convolve (gray_of img_array) laplacian.

Definition edge_mean (img_array : ndarray3) : R :=
  np_mean (map Rabs (ravel2 (edges_of img_array))).

Definition edge_std (img_array : ndarray3) : R :=
  np_std (ravel2 (edges_of img_array)).

Definition green_ratio (img_array : ndarray3) : R :=
  (np_mean (as_float (ravel2 (channel 1 img_array))) /
   (np_mean (as_float (ravel3 img_array)) + 1e-6))%R.

Definition brown_mask (img_array : ndarray3) : list (list bool) :=
  and_mask (and_mask (and_mask (gt_scalar (channel 0 img_array) 100)
                               (gt_scalar (channel 1 img_array) 50))
                     (lt_scalar (channel 1 img_array) 150))
           (lt_scalar (channel 2 img_array) 100).

Definition brown_ratio (img_array : ndarray3) : R :=
  (IZR (sum_mask (brown_mask img_array)) / IZR (IMG_SIZE * IMG_SIZE))%R.

Definition yellow_mask (img_array : ndarray3) : list (list bool) :=
  and_mask (and_mask (gt_scalar (channel 0 img_array) 150)
                     (gt_scalar (channel 1 img_array) 150))
           (lt_scalar (channel 2 img_array) 100).

Definition yellow_ratio (img_array : ndarray3) : R :=
  (IZR (sum_mask (yellow_mask img_array)) / IZR (IMG_SIZE * IMG_SIZE))%R.

(** The four quadrants [a[:h//2, :w//2]], [a[:h//2, w//2:]],
    [a[h//2:, :w//2]], [a[h//2:, w//2:]]. *)
Definition quadrants (a : ndarray3) : list ndarray3 :=
  let h := height a in
  let w := width a in
  [ map (firstn (w / 2)) (firstn (h / 2) a);
    map (skipn (w / 2)) (firstn (h / 2) a);
    map (firstn (w / 2)) (skipn (h / 2) a);
    map (skipn (w / 2)) (skipn (h / 2) a) ].

Definition spatial_variance (img_array : ndarray3) : R :=
  let quad_means := map (fun q => np_mean (as_float (ravel3 q))) (quadrants img_array) in
  np_std quad_means.

(** The thirteen arrays handed to the final [np.concatenate], in source order. *)
Definition feature_groups (img_array hsv_array : ndarray3) : list (list R) :=
  [ hist_norm 0 img_array; hist_norm 1 img_array; hist_norm 2 img_array;
    mean_of img_array; std_of img_array; median_of img_array;
    min_of img_array; max_of img_array;
    mean_of hsv_array; std_of hsv_array;
    [edge_mean img_array; edge_std img_array];
    [green_ratio img_array; brown_ratio img_array; yellow_ratio img_array];
    [spatial_variance img_array] ].

Definition features_of (img_array hsv_array : ndarray3) : list R :=
  concat (feature_groups img_array hsv_array).

Section Extractor.

(** [np.array(Image.open(path).convert('RGB').resize((size, size)))] *)
Variable Image_open_RGB_resize : string -> Z -> res ndarray3.
(** [np.array(img.convert('HSV'))] on the pixels of [img]. *)
Variable Image_convert_HSV : ndarray3 -> res ndarray3.

(** The body of the [try] block. *)
Definition extract_features_body (image_path : string) : res (list R) :=
  img_array ← Image_open_RGB_resize image_path IMG_SIZE;
  hsv_array ← Image_convert_HSV img_array;
  mret (features_of img_array hsv_array).

Definition extract_features_worker (image_path : string) : res (option (list R)) :=
  try_except_None (extract_features_body image_path).

End Extractor.

(** ** The inference-time extractor written into [predict.py] *)

Module Predict.

Definition IMG_SIZE : Z := 128.

Section Extractor.

Variable Image_open_RGB_resize : string -> Z -> res ndarray3.
Variable Image_convert_HSV : ndarray3 -> res ndarray3.

(** The template's [try] block up to [np.concatenate]. *)
Definition extract_features_body (image_path : string) : res (list R) :=
  img_array ← Image_open_RGB_resize image_path IMG_SIZE;
  let norm := fun h => map (fun n => (IZR n / IZR (IMG_SIZE * IMG_SIZE))%R) h in
  let hist_r := norm (np_histogram (ravel2 (channel 0 img_array)) 64 0 256) in
  let hist_g := norm (np_histogram (ravel2 (channel 1 img_array)) 64 0 256) in
  let hist_b := norm (np_histogram (ravel2 (channel 2 img_array)) 64 0 256) in
  let mean_rgb := over_axes01 (fun l => np_mean (as_float l)) img_array in
  let std_rgb := over_axes01 (fun l => np_std (as_float l)) img_array in
  let median_rgb := over_axes01 np_median img_array in
  let min_rgb := over_axes01 (fun l => IZR (np_min l)) img_array in
  let max_rgb := over_axes01 (fun l => IZR (np_max l)) img_array in
  hsv_array ← Image_convert_HSV img_array;
  let mean_hsv := over_axes01 (fun l => np_mean (as_float l)) hsv_array in
  let std_hsv := over_axes01 (fun l => np_std (as_float l)) hsv_array in
  let gray := mean_axis2 img_array in
  let laplacian := [ [0; 1; 0]; [1; -4; 1]; [0; 1; 0] ]%Z in
  let edges := ndimage_convolve gray laplacian in
  let edge_mean := np_mean (map Rabs (ravel2 edges)) in
  let edge_std := np_std (ravel2 edges) in
  let green_ratio :=
    (np_mean (as_float (ravel2 (channel 1 img_array))) /
     (np_mean (as_float (ravel3 img_array)) + 1e-6))%R in
  let brown_mask :=
    and_mask (and_mask (and_mask (gt_scalar (channel 0 img_array) 100)
                                 (gt_scalar (channel 1 img_array) 50))
                       (lt_scalar (channel 1 img_array) 150))
             (lt_scalar (channel 2 img_array) 100) in
  let brown_ratio := (IZR (sum_mask brown_mask) / IZR (IMG_SIZE * IMG_SIZE))%R in
  let yellow_mask :=
    and_mask (and_mask (gt_scalar (channel 0 img_array) 150)
                       (gt_scalar (channel 1 img_array) 150))
             (lt_scalar (channel 2 img_array) 100) in
  let yellow_ratio := (IZR (sum_mask yellow_mask) / IZR (IMG_SIZE * IMG_SIZE))%R in
  let h := height img_array in
  let w := width img_array in
  let q1 := map (firstn (w / 2)) (firstn (h / 2) img_array) in
  let q2 := map (skipn (w / 2)) (firstn (h / 2) img_array) in
  let q3 := map (firstn (w / 2)) (skipn (h / 2) img_array) in
  let q4 := map (skipn (w / 2)) (skipn (h / 2) img_array) in
  let quad_means :=
    [ np_mean (as_float (ravel3 q1)); np_mean (as_float (ravel3 q2));
      np_mean (as_float (ravel3 q3)); np_mean (as_float (ravel3 q4)) ] in
  let spatial_variance := np_std quad_means in
  mret (concat
    [ hist_r; hist_g; hist_b;
      mean_rgb; std_rgb; median_rgb; min_rgb; max_rgb;
      mean_hsv; std_hsv;
      [edge_mean; edge_std];
      [green_ratio; brown_ratio; yellow_ratio];
      [spatial_variance] ]).

(** [features.reshape(1, -1)]: a matrix with the vector as its only row. *)
Definition reshape_row (features : list R) : list (list R) := [features].

Definition extract_features (image_path : string) : res (option (list (list R))) :=
  try_except_None (reshape_row <$> extract_features_body image_path).

End Extractor.

End Predict.

(** ** The dataset assembler ([SklearnPlantDiseaseTrainer.prepare_dataset]) *)

(** The operating-system calls the assembler makes, over one snapshot of the
    file system.  [os.listdir] raises on a path that is not a readable
    directory. *)
Record OS : Type := {
  os_path_exists : string -> bool;
  os_listdir : string -> res (list string);
  os_path_isdir : string -> bool;
  os_path_join : string -> string -> string
}.

(** [str.lower] on the ASCII letters, the only ones the suffix test can see. *)
Definition ascii_lower (c : ascii) : ascii :=
  let n := nat_of_ascii c in
  if ((65 <=? n) && (n <=? 90))%nat then ascii_of_nat (n + 32) else c.

Fixpoint str_lower (s : string) : string :=
  match s with
  | EmptyString => EmptyString
  | String c s' => String (ascii_lower c) (str_lower s')
  end.

Definition str_endswith (s suffix : string) : bool :=
  let n := String.length s in
  let m := String.length suffix in
  (m <=? n)%nat && String.eqb (substring (n - m) m s) suffix.

(** [f.lower().endswith(('.jpg', '.jpeg', '.png'))] *)
Definition is_image_file (f : string) : bool :=
  existsb (str_endswith (str_lower f)) [".jpg"; ".jpeg"; ".png"]%string.

(** [sorted(list(s))] for a set of strings. *)
Definition sorted_list (s : gset string) : list string :=
  merge_sort String.le (elements s).

Definition enumerate {A : Type} (l : list A) : list (nat * A) :=
  zip (seq 0 (length l)) l.

(** [{name: i for i, name in enumerate(class_names)}] *)
Definition make_class_to_idx (class_names : list string) : gmap string nat :=
  foldl (fun m p => <[p.2 := p.1]> m) ∅ (enumerate class_names).

Definition task : Type := (string * nat)%type.

Section Assembler.

Variable os : OS.
Variable Image_open_RGB_resize : string -> Z -> res ndarray3.
Variable Image_convert_HSV : ndarray3 -> res ndarray3.

(** The state of Python's global random generator and [random.sample]
    drawing from it. *)
Variable rng : Type.
Variable random_sample : rng -> list string -> nat -> list string * rng.

(** [[d for d in os.listdir(p) if os.path.isdir(os.path.join(p, d))]] *)
Definition class_dirs (d_path : string) : res (list string) :=
  names ← os_listdir os d_path;
  mret (List.filter (fun d => os_path_isdir os (os_path_join os d_path d)) names).

(** First pass: the loop that fills [all_classes]. *)
Fixpoint collect_classes (dataset_paths : list string) (all_classes : gset string)
  : res (gset string) :=
  match dataset_paths with
  | [] => mret all_classes
  | d_path :: rest =>
      if negb (os_path_exists os d_path) then collect_classes rest all_classes
      else
        classes ← class_dirs d_path;
        collect_classes rest (all_classes ∪ list_to_set classes)
  end.

(** The listing of a class directory, filtered by extension and capped. *)
Definition select_image_files (class_path : string) (g : rng)
  : res (list string * rng) :=
  names ← os_listdir os class_path;
  let image_files := List.filter is_image_file names in
  if (SAMPLES_PER_CLASS <? length image_files)%nat
  then mret (random_sample g image_files SAMPLES_PER_CLASS)
  else mret (image_files, g).

(** One iteration of [for class_name in current_class_dirs]. *)
Definition class_tasks (class_to_idx : gmap string nat)
    (dataset_path class_name : string) (g : rng) : res (list task * rng) :=
  let class_path := os_path_join os dataset_path class_name in
  class_idx ← match class_to_idx !! class_name with
              | Some i => Ok i
              | None => Raise KeyError
              end;
  sel ← select_image_files class_path g;
  mret (map (fun img_file => (os_path_join os class_path img_file, class_idx)) sel.1,
        sel.2).

Fixpoint scan_classes (class_to_idx : gmap string nat) (dataset_path : string)
    (current_class_dirs : list string) (all_image_tasks : list task) (g : rng)
  : res (list task * rng) :=
  match current_class_dirs with
  | [] => mret (all_image_tasks, g)
  | class_name :: rest =>
      r ← class_tasks class_to_idx dataset_path class_name g;
      scan_classes class_to_idx dataset_path rest (all_image_tasks ++ r.1) r.2
  end.

(** Second pass: the loop that fills [all_image_tasks]. *)
Fixpoint scan_roots (class_to_idx : gmap string nat) (dataset_paths : list string)
    (all_image_tasks : list task) (g : rng) : res (list task * rng) :=
  match dataset_paths with
  | [] => mret (all_image_tasks, g)
  | dataset_path :: rest =>
      if negb (os_path_exists os dataset_path)
      then scan_roots class_to_idx rest all_image_tasks g
      else
        current_class_dirs ← class_dirs dataset_path;
        r ← scan_classes class_to_idx dataset_path current_class_dirs all_image_tasks g;
        scan_roots class_to_idx rest r.1 r.2
  end.

(** [Parallel(..)(delayed(extract_features_worker)(p) for p, _ in tasks)]:
    the results come back in task order; an exception raised by a worker
    would be re-raised here. *)
Fixpoint run_workers (all_image_tasks : list task) : res (list (option (list R))) :=
  match all_image_tasks with
  | [] => mret []
  | t :: rest =>
      r ← extract_features_worker Image_open_RGB_resize Image_convert_HSV t.1;
      rs ← run_workers rest;
      mret (r :: rs)
  end.

(** The loop [for i, features in enumerate(results)] that fills [X] and [y];
    [all_image_tasks[i]] raises IndexError out of range. *)
Fixpoint assemble (all_image_tasks : list task)
    (indexed : list (nat * option (list R))) (X : list (list R)) (y : list nat)
  : res (list (list R) * list nat) :=
  match indexed with
  | [] => mret (X, y)
  | (i, Some features) :: rest =>
      match all_image_tasks !! i with
      | Some t => assemble all_image_tasks rest (X ++ [features]) (y ++ [t.2])
      | None => Raise IndexError
      end
  | (_, None) :: rest => assemble all_image_tasks rest X y
  end.

(** The body of [prepare_dataset] for an explicit [dataset_paths]; the
    progress messages written to standard output are left out, and the final
    [np.array(X)], [np.array(y)] keep the rows and labels as they are. *)
Definition prepare_dataset (dataset_paths : list string) (g : rng)
  : res (list (list R) * list nat * list string * rng) :=
  all_classes ← collect_classes dataset_paths ∅;
  let class_names := sorted_list all_classes in
  let class_to_idx := make_class_to_idx class_names in
  tg ← scan_roots class_to_idx dataset_paths [] g;
  let all_image_tasks := tg.1 in
  results ← run_workers all_image_tasks;
  Xy ← assemble all_image_tasks (enumerate results) [] [];
  mret (Xy.1, Xy.2, class_names, tg.2).

End Assembler.

(** ** The trainer ([train_model]) and the entry point ([main]) *)

(** Calls into scikit-learn and the artifact writer, recorded with the arrays
    they receive. *)
Inductive call : Type :=
  | Call_train_test_split (X : list (list R)) (y : list nat)
  | Call_fit (X_train : list (list R)) (y_train : list nat)
  | Call_predict (X : list (list R))
  | Call_accuracy_score (y_true y_pred : list nat)
  | Call_classification_report (y_true y_pred : list nat) (target_names : list string)
  | Call_confusion_matrix (y_true y_pred : list nat)
  | Call_save_model (class_names : list string).

(** A computation that records its external calls and may raise. *)
Record traced (A : Type) : Type := Traced {
  calls : list call;
  outcome : res A
}.
Arguments Traced {A} calls outcome.
Arguments calls {A} t.
Arguments outcome {A} t.

#[global] Instance traced_ret : MRet traced := fun A a => Traced [] (Ok a).
#[global] Instance traced_bind : MBind traced := fun A B f m =>
  match outcome m with
  | Ok a => Traced (calls m ++ calls (f a)) (outcome (f a))
  | Raise e => Traced (calls m) (Raise e)
  end.

(** An external call: recorded, then it returns or raises. *)
Definition external {A : Type} (c : call) (r : res A) : traced A := Traced [c] r.
(** A computation that makes no recorded call. *)
Definition internal {A : Type} (r : res A) : traced A := Traced [] r.

Section Trainer.

Variable os : OS.
Variable Image_open_RGB_resize : string -> Z -> res ndarray3.
Variable Image_convert_HSV : ndarray3 -> res ndarray3.
Variable rng : Type.
Variable random_sample : rng -> list string -> nat -> list string * rng.
(** [os.makedirs(path, exist_ok=True)]; it raises when the directory cannot
    be created, for instance when the path is an existing regular file. *)
Variable os_makedirs : string -> res unit.

Variables model report matrix : Type.
(** [train_test_split(X, y, test_size=0.2, random_state=42, stratify=y)],
    returning [(X_train, X_test, y_train, y_test)]. *)
Variable train_test_split :
  list (list R) -> list nat -> res (list (list R) * list (list R) * list nat * list nat).
(** [ensemble.fit] of the voting classifier built from the two estimators. *)
Variable ensemble_fit : list (list R) -> list nat -> res model.
Variable ensemble_predict : model -> list (list R) -> res (list nat).
Variable accuracy_score : list nat -> list nat -> res R.
Variable classification_report : list nat -> list nat -> list string -> res report.
Variable confusion_matrix : list nat -> list nat -> res matrix.
Variable save_model : model -> list string -> R -> report -> matrix -> res unit.

Definition train_model (X : list (list R)) (y : list nat) (class_names : list string)
  : traced (model * R * report * matrix * list (list R) * list nat) :=
  s ← external (Call_train_test_split X y) (train_test_split X y);
  let '(X_train, X_test, y_train, y_test) := s in
  ensemble ← external (Call_fit X_train y_train) (ensemble_fit X_train y_train);
  train_pred ← external (Call_predict X_train) (ensemble_predict ensemble X_train);
  test_pred ← external (Call_predict X_test) (ensemble_predict ensemble X_test);
  train_acc ← external (Call_accuracy_score y_train train_pred)
                       (accuracy_score y_train train_pred);
  test_acc ← external (Call_accuracy_score y_test test_pred)
                      (accuracy_score y_test test_pred);
  rep ← external (Call_classification_report y_test test_pred class_names)
                 (classification_report y_test test_pred class_names);
  cm ← external (Call_confusion_matrix y_test test_pred)
                (confusion_matrix y_test test_pred);
  mret (ensemble, test_acc, rep, cm, X_test, y_test).

(** The default of [prepare_dataset]'s [dataset_paths] argument. *)
Definition default_dataset_paths : list string :=
  [ "dataset"%string;
    os_path_join os (os_path_join os "public" "archive (4)") "data" ].

(** [SklearnPlantDiseaseTrainer.__init__]: the output directory is created
    when the trainer is constructed. *)
Definition trainer_init : res unit := os_makedirs OUTPUT_DIR.

(** [main]: construct the trainer, assemble the dataset from the default
    roots, train, save.  Nothing stands between [prepare_dataset] and
    [train_model]. *)
Definition main (g : rng) : traced unit :=
  _ ← internal trainer_init;
  d ← internal (prepare_dataset os Image_open_RGB_resize Image_convert_HSV
                  rng random_sample default_dataset_paths g);
  let '(X, y, class_names, _) := d in
  t ← train_model X y class_names;
  let '(ensemble, accuracy, rep, cm, X_test, y_test) := t in
  external (Call_save_model class_names) (save_model ensemble class_names accuracy rep cm).

End Trainer.

(** ** Definitions used to state the properties *)

(** Integer sum, the exact value of [np.sum] on integer data. *)
Definition sumZ (l : list Z) : Z := fold_right Z.add 0%Z l.

(** The brown and yellow tests on a single pixel. *)
Definition brown_px (px : list Z) : bool :=
  (100 <? nth 0 px 0)%Z && (50 <? nth 1 px 0)%Z && (nth 1 px 0 <? 150)%Z &&
  (nth 2 px 0 <? 100)%Z.
Definition yellow_px (px : list Z) : bool :=
  (150 <? nth 0 px 0)%Z && (150 <? nth 1 px 0)%Z && (nth 2 px 0 <? 100)%Z.

(** The entry of a mask at row [i], column [j]. *)
Definition mask_at (m : list (list bool)) (i j : nat) : option bool :=
  m !! i ≫= fun row => row !! j.

(** *** The edge features as the specification words them *)

(** Edge replication: an out-of-range index is moved to the nearest edge. *)
Definition clamp (n k : Z) : Z := Z.max 0 (Z.min (n - 1) k).

Definition get2_replicate (g : list (list R)) (i j : Z) : R :=
  get2 g (clamp (Z.of_nat (height g)) i) (clamp (Z.of_nat (width g)) j).

(** Laplacian kernel by offset from the centre: -4 at the centre, +1 at the
    four orthogonal neighbours, 0 at the corners. *)
Definition laplacian_weight (di dj : Z) : R :=
  if ((di =? 0) && (dj =? 0))%Z then (-4)%R
  else if ((di =? 0) || (dj =? 0))%Z then 1%R
  else 0%R.

Definition offsets3 : list Z := [-1; 0; 1]%Z.

Definition laplace_replicate (g : list (list R)) : list (list R) :=
  map (fun i =>
    map (fun j =>
      np_sum (map (fun di =>
        np_sum (map (fun dj =>
          (laplacian_weight di dj *
           get2_replicate g (Z.of_nat i - di) (Z.of_nat j - dj))%R) offsets3)) offsets3))
      (seq 0 (width g))) (seq 0 (height g)).

(** Grayscale as the per-pixel mean of the three channels. *)
Definition gray_spec (img_array : ndarray3) : list (list R) :=
  map (map (fun px =>
    ((IZR (nth 0 px 0%Z) + IZR (nth 1 px 0%Z) + IZR (nth 2 px 0%Z)) / 3)%R)) img_array.

Definition edge_features_spec (img_array : ndarray3) : R * R :=
  let e := ravel2 (laplace_replicate (gray_spec img_array)) in
  (np_mean (map Rabs e), np_std e).

(** *** The assembler's layout assumption and the vocabulary as specified *)

(** Every existing root and every class directory below it can be listed. *)
Definition listable (os : OS) (dataset_paths : list string) : bool :=
  forallb (fun d_path =>
    if os_path_exists os d_path then
      match os_listdir os d_path with
      | Ok names =>
          forallb (fun d =>
            if os_path_isdir os (os_path_join os d_path d)
            then is_Ok (os_listdir os (os_path_join os d_path d))
            else true) names
      | Raise _ => false
      end
    else true) dataset_paths.

(** Class-subdirectory names of one root. *)
Definition subdir_names (os : OS) (d_path : string) : list string :=
  match os_listdir os d_path with
  | Ok names => List.filter (fun d => os_path_isdir os (os_path_join os d_path d)) names
  | Raise _ => []
  end.

(** The class-subdirectory names of all existing roots, root after root. *)
Definition all_subdirs (os : OS) (dataset_paths : list string) : list string :=
  concat (map (subdir_names os) (List.filter (os_path_exists os) dataset_paths)).

(** The sorted, deduplicated union of the class-subdirectory names of all
    existing roots. *)
Definition vocabulary_spec (os : OS) (dataset_paths : list string) : list string :=
  merge_sort String.le (remove_dups (all_subdirs os dataset_paths)).

(** Two snapshots that differ only in the order of directory listings. *)
Definition same_up_to_listing_order (os os' : OS) : Prop :=
  (forall p, os_path_exists os p = os_path_exists os' p) /\
  (forall p, os_path_isdir os p = os_path_isdir os' p) /\
  (forall p q, os_path_join os p q = os_path_join os' p q) /\
  (forall p,
     match os_listdir os p, os_listdir os' p with
     | Ok l, Ok l' => l ≡ₚ l'
     | Raise e, Raise e' => e = e'
     | _, _ => False
     end).

(** What a worker's result contributes to the dataset for a task. *)
Definition survivor (r : res (option (list R))) : option (list R) :=
  match r with
  | Ok (Some features) => Some features
  | _ => None
  end.

(** The samples that survive: tasks in order, each with the vector its
    worker returned, the failed ones left out. *)
Definition surviving_samples (worker : string -> res (option (list R)))
    (tasks : list task) : list (list R * nat) :=
  omap (fun t => (fun features => (features, t.2)) <$> survivor (worker t.1)) tasks.

(** The contract of [random.sample(population, k)] for [k <= len(population)]:
    [k] elements chosen from distinct positions of the population. *)
Definition sample_contract {rng : Type}
    (random_sample : rng -> list string -> nat -> list string * rng) : Prop :=
  forall g population k,
    (k <= length population)%nat ->
    length (random_sample g population k).1 = k /\
    (random_sample g population k).1 ⊆+ population.

(** ** Concrete inputs *)

(** A solid green image and its HSV form. *)
Definition green_image : ndarray3 := repeat (repeat [0; 255; 0]%Z 128) 128.
Definition green_hsv : ndarray3 := repeat (repeat [85; 255; 255]%Z 128) 128.

Definition open_green (path : string) (size : Z) : res ndarray3 :=
  if String.eqb path "corrupt.png" then Raise UnidentifiedImageError
  else Ok green_image.
Definition hsv_green (a : ndarray3) : res ndarray3 := Ok green_hsv.

Definition posix_join (a b : string) : string := (a +:+ "/" +:+ b)%string.

(** One root [dataset] with the classes [healthy] and [blight] and a stray
    file; [blight] holds a file that does not decode. *)
Definition demo_listdir (p : string) : res (list string) :=
  if String.eqb p "dataset" then Ok ["healthy"; "README.md"; "blight"]%string
  else if String.eqb p "dataset/healthy" then Ok ["h1.jpg"; "h2.PNG"; "notes.txt"]%string
  else if String.eqb p "dataset/blight" then Ok ["corrupt.png"; "b1.jpeg"]%string
  else Raise NotADirectoryError.

Definition demo_isdir (p : string) : bool :=
  String.eqb p "dataset" || String.eqb p "dataset/healthy" || String.eqb p "dataset/blight".

Definition demo_exists (p : string) : bool :=
  demo_isdir p || String.eqb p "dataset/README.md".

Definition demo_os : OS :=
  {| os_path_exists := demo_exists; os_listdir := demo_listdir;
     os_path_isdir := demo_isdir; os_path_join := posix_join |}.

(** The same tree with every listing reversed. *)
Definition demo_os_rev : OS :=
  {| os_path_exists := demo_exists;
     os_listdir := fun p => (fun l => rev l) <$> demo_listdir p;
     os_path_isdir := demo_isdir; os_path_join := posix_join |}.

Definition demo_open (path : string) (size : Z) : res ndarray3 :=
  if String.eqb path "dataset/blight/corrupt.png" then Raise UnidentifiedImageError
  else Ok green_image.

(** A file system on which no dataset root exists. *)
Definition bare_os : OS :=
  {| os_path_exists := fun _ => false;
     os_listdir := fun _ => Raise OSError;
     os_path_isdir := fun _ => false; os_path_join := posix_join |}.

(** A sampler that keeps the first [k] entries; its state is a draw counter. *)
Definition first_k_sample (g : nat) (population : list string) (k : nat)
  : list string * nat := (take k population, S g).

(** A class directory with 1002 image files. *)
Definition crowded_names : list string :=
  map (fun i => ("leaf" +:+ pretty i +:+ ".JPG")%string) (seq 0 1002).

(** [train_test_split] as scikit-learn behaves on no samples: it raises
    ValueError.  On other inputs this stand-in keeps every sample in the
    training part. *)
Definition split_rejecting_empty (X : list (list R)) (y : list nat)
  : res (list (list R) * list (list R) * list nat * list nat) :=
  match X with
  | [] => Raise ValueError
  | _ => Ok (X, [], y, [])
  end.


(** Stand-ins for the remaining scikit-learn calls and the artifact writer;
    the output directory can be created. *)
Definition demo_main (os : OS) : traced unit :=
  main os open_green hsv_green nat first_k_sample (fun _ => Ok tt) unit unit unit
    split_rejecting_empty
    (fun _ _ => Ok tt) (fun _ _ => Ok []) (fun _ _ => Ok 0%R)
    (fun _ _ _ => Ok tt) (fun _ _ => Ok tt) (fun _ _ _ _ _ => Ok tt) 0%nat.

(** ** Further definitions used to state properties *)

(** Membership of a channel value in histogram bin [b] of width 4. *)
Definition in_bin (b : nat) (v : Z) : bool :=
  (4 * Z.of_nat b <=? v)%Z && (v <? 4 * Z.of_nat b + 4)%Z.

(** An image of shape (128, 128, 3) whose pixels all have the colour
    (r, g, b). *)
Definition solid_image (r g b : Z) : ndarray3 := repeat (repeat [r; g; b] 128) 128.

(** Where a task comes from: an image file [f] listed in the class directory
    [class] of an existing root, labelled by [label class]. *)
Definition task_from (os : OS) (label : string -> nat -> Prop) (roots : list string)
    (t : task) : Prop :=
  exists root class files f,
    root ∈ roots /\ os_path_exists os root = true /\
    class ∈ subdir_names os root /\
    os_listdir os (os_path_join os root class) = Ok files /\
    f ∈ files /\ is_image_file f = true /\
    t.1 = os_path_join os (os_path_join os root class) f /\
    label class t.2.

(** The image files of a class directory, in listing order. *)
Definition class_files (os : OS) (class_path : string) : list string :=
  match os_listdir os class_path with
  | Ok names => List.filter is_image_file names
  | Raise _ => []
  end.

(** Every image file of every class directory of every existing root, in
    scan order, with the label of its class. *)
Definition full_tasks (os : OS) (class_to_idx : gmap string nat) (roots : list string)
  : list task :=
  concat (map (fun root =>
    concat (map (fun class =>
      map (fun f => (os_path_join os (os_path_join os root class) f,
                     default 0%nat (class_to_idx !! class)))
          (class_files os (os_path_join os root class)))
      (subdir_names os root)))
    (List.filter (os_path_exists os) roots)).

(** No class directory holds more image files than the cap. *)
Definition within_cap (os : OS) (roots : list string) : Prop :=
  forall root class,
    root ∈ roots -> os_path_exists os root = true -> class ∈ subdir_names os root ->
    (length (class_files os (os_path_join os root class)) <= SAMPLES_PER_CLASS)%nat.

(** ** Computations that log events *)

(** A computation that records events of type [E] and may raise. *)
Record logged (E A : Type) : Type := Logged {
  events : list E;
  result : res A
}.
Arguments Logged {E A} events result.
Arguments events {E A} l.
Arguments result {E A} l.

#[global] Instance logged_ret {E : Type} : MRet (logged E) :=
  fun A a => Logged [] (Ok a).
#[global] Instance logged_bind {E : Type} : MBind (logged E) := fun A B f m =>
  match result m with
  | Ok a => Logged (events m ++ events (f a)) (result (f a))
  | Raise e => Logged (events m) (Raise e)
  end.

(** A library call: the event is recorded, then the call returns or raises. *)
Definition emit {E A : Type} (e : E) (r : res A) : logged E A := Logged [e] r.
(** A step that records nothing. *)
Definition quiet {E A : Type} (r : res A) : logged E A := Logged [] r.

(** ** The artifact writer ([save_model], [create_prediction_script]) *)

(** The files [save_model] writes, with what goes into them. *)
Inductive artifact : Type :=
  | Model_pkl (path : string)
  | Labels_json (path : string) (class_names : list string)
  | Report_json (path : string)
  | Confusion_png (path : string) (ticklabels : list string)
  | Predict_py (path : string) (content : string).

Section ArtifactWriter.

Variable os : OS.
Variables model report matrix : Type.
(** [joblib.dump(model, path)] *)
Variable joblib_dump : model -> string -> res unit.
(** [with open(path, 'w') as f: json.dump(class_names, f)] *)
Variable json_dump_labels : list string -> string -> res unit.
(** [with open(path, 'w') as f: json.dump(report, f, indent=2)] *)
Variable json_dump_report : report -> string -> res unit.
(** The heatmap of [cm] with [class_names] on both axes, saved to [path]. *)
Variable savefig_confusion : matrix -> list string -> string -> res unit.
(** [with open(path, 'w') as f: f.write(content)] *)
Variable write_text : string -> string -> res unit.
(** The text of the prediction-script template; none of its placeholders
    refers to [class_names]. *)
Variable script_content : string.

Definition create_prediction_script (class_names : list string) : logged artifact unit :=
  let path := os_path_join os OUTPUT_DIR "predict.py" in
  emit (Predict_py path script_content) (write_text path script_content).

(** [save_model]; [test_acc], [X_test] and [y_test] are only printed or
    unused. *)
Definition save_model_body (m : model) (class_names : list string) (test_acc : R)
    (rep : report) (cm : matrix) : logged artifact unit :=
  let p_model := os_path_join os OUTPUT_DIR "model.pkl" in
  let p_labels := os_path_join os OUTPUT_DIR "labels.json" in
  let p_report := os_path_join os OUTPUT_DIR "classification_report.json" in
  let p_cm := os_path_join os OUTPUT_DIR "confusion_matrix.png" in
  _ ← emit (Model_pkl p_model) (joblib_dump m p_model);
  _ ← emit (Labels_json p_labels class_names) (json_dump_labels class_names p_labels);
  _ ← emit (Report_json p_report) (json_dump_report rep p_report);
  _ ← emit (Confusion_png p_cm class_names) (savefig_confusion cm class_names p_cm);
  create_prediction_script class_names.

(** The five writes of a complete run, in order. *)
Definition all_artifacts (class_names : list string) : list artifact :=
  [ Model_pkl (os_path_join os OUTPUT_DIR "model.pkl");
    Labels_json (os_path_join os OUTPUT_DIR "labels.json") class_names;
    Report_json (os_path_join os OUTPUT_DIR "classification_report.json");
    Confusion_png (os_path_join os OUTPUT_DIR "confusion_matrix.png") class_names;
    Predict_py (os_path_join os OUTPUT_DIR "predict.py") script_content ].

End ArtifactWriter.

(** ** The generated prediction script: [predict_disease] and its command line *)

(** Python indexing [l[i]] of a list or array: a negative index counts from
    the end, anything else out of range raises IndexError. *)
Definition py_index {A : Type} (l : list A) (i : Z) : res A :=
  let n := Z.of_nat (length l) in
  let j := if (i <? 0)%Z then (i + n)%Z else i in
  if ((j <? 0) || (n <=? j))%Z then Raise IndexError
  else match l !! Z.to_nat j with
       | Some x => Ok x
       | None => Raise IndexError
       end.

(** Lines the script prints. *)
Inductive output : Type :=
  | Out_usage
  | Out_error_processing (image_path : string) (e : exn)
  | Out_could_not_process
  | Out_predicted (predicted_class : string)
  | Out_confidence (confidence : R).

(** What a run of the script does that can be observed: library calls,
    printed lines, and the traceback the interpreter prints for an
    exception nothing caught. *)
Inductive pevent : Type :=
  | Ev_joblib_load (path : string)
  | Ev_json_load (path : string)
  | Ev_predict (features : list (list R))
  | Ev_predict_proba (features : list (list R))
  | Ev_print (line : output)
  | Ev_traceback (e : exn).

Section PredictScript.

Variable Image_open_RGB_resize : string -> Z -> res ndarray3.
Variable Image_convert_HSV : ndarray3 -> res ndarray3.
Variable pmodel : Type.
Variable joblib_load : string -> res pmodel.
(** [with open(path, 'r') as f: json.load(f)] *)
Variable json_load : string -> res (list string).
Variable model_predict : pmodel -> list (list R) -> res (list Z).
Variable model_predict_proba : pmodel -> list (list R) -> res (list (list R)).

(** [extract_features] of the script with the line its handler prints. *)
Definition extract_features_printing (image_path : string)
  : logged pevent (option (list (list R))) :=
  match Predict.extract_features_body Image_open_RGB_resize Image_convert_HSV image_path with
  | Ok features => quiet (Ok (Some (Predict.reshape_row features)))
  | Raise e => emit (Ev_print (Out_error_processing image_path e)) (Ok None)
  end.

(** [predict_disease]; the pair [(None, None)] is [None]. *)
Definition predict_disease (image_path model_path labels_path : string)
  : logged pevent (option (string * R)) :=
  m ← emit (Ev_joblib_load model_path) (joblib_load model_path);
  class_names ← emit (Ev_json_load labels_path) (json_load labels_path);
  features ← extract_features_printing image_path;
  match features with
  | None => mret None
  | Some f =>
      preds ← emit (Ev_predict f) (model_predict m f);
      prediction ← quiet (py_index preds 0);
      probas ← emit (Ev_predict_proba f) (model_predict_proba m f);
      probabilities ← quiet (py_index probas 0);
      predicted_class ← quiet (py_index class_names prediction);
      confidence ← quiet (py_index probabilities prediction);
      mret (Some (predicted_class, confidence))
  end.

(** The [__main__] block of the script on [sys.argv], with the exit status
    of the process: 1 after [sys.exit(1)], 1 as well when an exception
    reaches the top level (the interpreter prints its traceback), 0 when
    the block runs to its end. *)
Definition predict_cli (argv : list string) : list pevent * Z :=
  if negb (length argv =? 2)%nat then ([Ev_print Out_usage], 1%Z)
  else
    match py_index argv 1 with
    | Raise e => ([Ev_traceback e], 1%Z)
    | Ok image_path =>
        let r := predict_disease image_path "model.pkl" "labels.json" in
        match result r with
        | Raise e => (events r ++ [Ev_traceback e], 1%Z)
        | Ok None => (events r ++ [Ev_print Out_could_not_process], 1%Z)
        | Ok (Some (predicted_class, confidence)) =>
            (events r ++ [Ev_print (Out_predicted predicted_class);
                          Ev_print (Out_confidence confidence)], 0%Z)
        end
    end.

End PredictScript.

(** Stand-ins for a loaded model that always answers index -1, the last
    class in Python's indexing, with probabilities (0.25, 0.75). *)
Definition demo_predict (m : unit) (f : list (list R)) : res (list Z) := Ok [(-1)%Z].
Definition demo_predict_proba (m : unit) (f : list (list R)) : res (list (list R)) :=
  Ok [[0.25%R; 0.75%R]].
Definition demo_joblib_load (path : string) : res unit := Ok tt.
Definition demo_json_load (path : string) : res (list string) :=
  Ok ["blight"; "healthy"]%string.

(** * Properties *)

(** ** Shape facts *)

Lemma valid_image_shape (a : ndarray3) :
  valid_image a = true ->
  length a = 128%nat /\
  Forall (fun row =>
    length row = 128%nat /\
    Forall (fun px => length px = 3%nat /\ Forall (fun v => (0 <= v <= 255)%Z) px) row) a.
Proof.
  unfold valid_image, IMG_SIZE. intros H.
  apply andb_prop in H as [Hlen Hrows]. split; [lia|].
  apply Forall_forall. intros row Hrow.
  rewrite forallb_forall in Hrows. specialize (Hrows row).
  rewrite <- list_elem_of_In in Hrows. specialize (Hrows Hrow).
  apply andb_prop in Hrows as [Hw Hpx]. split; [lia|].
  apply Forall_forall. intros px Hin.
  rewrite forallb_forall in Hpx. specialize (Hpx px).
  rewrite <- list_elem_of_In in Hpx. specialize (Hpx Hin).
  apply andb_prop in Hpx as [Hc Hv]. split; [by apply Nat.eqb_eq|].
  apply Forall_forall. intros v Hvin.
  rewrite forallb_forall in Hv. specialize (Hv v).
  rewrite <- list_elem_of_In in Hv. specialize (Hv Hvin).
  unfold is_uint8 in Hv. lia.
Qed.

Lemma valid_image_nchan (a : ndarray3) : valid_image a = true -> nchan a = 3%nat.
Proof.
  intros H. apply valid_image_shape in H as [Hlen Hrows].
  unfold nchan. destruct a as [|row a]; [discriminate|].
  apply Forall_cons in Hrows as [[Hw Hpx] _]. simpl.
  destruct row as [|px row]; [discriminate|].
  apply Forall_cons in Hpx as [[Hc _] _]. exact Hc.
Qed.

Lemma length_np_histogram (a : list Z) (bins : nat) (lo hi : Z) :
  length (np_histogram a bins lo hi) = bins.
Proof. unfold np_histogram. by rewrite length_map, length_seq. Qed.

Lemma length_hist_norm (c : nat) (a : ndarray3) : length (hist_norm c a) = 64%nat.
Proof. unfold hist_norm. by rewrite length_map, length_np_histogram. Qed.

Lemma length_over_axes01 {T : Type} (f : list Z -> T) (a : ndarray3) :
  length (over_axes01 f a) = nchan a.
Proof. unfold over_axes01. by rewrite length_map, length_seq. Qed.

(** ** The worker and its try/except *)

Lemma worker_unfold open conv (p : string) :
  extract_features_worker open conv p =
  match open p IMG_SIZE with
  | Ok img =>
      match conv img with
      | Ok hsv => Ok (Some (features_of img hsv))
      | Raise _ => Ok None
      end
  | Raise _ => Ok None
  end.
Proof.
  unfold extract_features_worker, extract_features_body, try_except_None.
  destruct (open p IMG_SIZE) as [img|e]; [|reflexivity].
  simpl. destruct (conv img); reflexivity.
Qed.

Lemma worker_never_raises open conv (p : string) :
  exists r, extract_features_worker open conv p = Ok r.
Proof.
  rewrite worker_unfold.
  destruct (open p IMG_SIZE) as [img|e]; [|by eexists].
  destruct (conv img); by eexists.
Qed.

(** C4: a successful extraction returns 219 entries: the 192 histogram bins
    (64 red, 64 green, 64 blue), the 15 RGB statistics (mean, std, median,
    min, max of each channel), the 6 HSV statistics (mean, std), the 2 edge
    statistics, the 3 ratios and the spatial variance, in this order. *)
Theorem feature_vector_layout open conv (p : string) (img hsv : ndarray3) (v : list R) :
  open p IMG_SIZE = Ok img ->
  conv img = Ok hsv ->
  valid_image img = true ->
  valid_image hsv = true ->
  extract_features_worker open conv p = Ok (Some v) ->
  length v = 219%nat /\
  take 192 v = hist_norm 0 img ++ hist_norm 1 img ++ hist_norm 2 img /\
  (length (hist_norm 0 img) = 64 /\ length (hist_norm 1 img) = 64 /\
   length (hist_norm 2 img) = 64)%nat /\
  take 15 (drop 192 v) =
    mean_of img ++ std_of img ++ median_of img ++ min_of img ++ max_of img /\
  (length (mean_of img) = 3 /\ length (std_of img) = 3 /\ length (median_of img) = 3 /\
   length (min_of img) = 3 /\ length (max_of img) = 3)%nat /\
  take 6 (drop 207 v) = mean_of hsv ++ std_of hsv /\
  (length (mean_of hsv) = 3 /\ length (std_of hsv) = 3)%nat /\
  take 2 (drop 213 v) = [edge_mean img; edge_std img] /\
  take 3 (drop 215 v) = [green_ratio img; brown_ratio img; yellow_ratio img] /\
  drop 218 v = [spatial_variance img].
Proof.
  intros Hopen Hconv Himg Hhsv Hw.
  rewrite worker_unfold, Hopen, Hconv in Hw. injection Hw as <-.
  pose proof (valid_image_nchan _ Himg) as Ci.
  pose proof (valid_image_nchan _ Hhsv) as Ch.
  assert (L3 : forall (f : list Z -> R) a, nchan a = 3%nat ->
                 exists x0 x1 x2, over_axes01 f a = [x0; x1; x2]).
  { intros f a Ha. unfold over_axes01. rewrite Ha. simpl. by do 3 eexists. }
  assert (L64 : forall c, exists h, hist_norm c img = h /\ length h = 64%nat).
  { intros c. eexists; split; [reflexivity|apply length_hist_norm]. }
  unfold features_of, feature_groups, mean_of, std_of, median_of, min_of, max_of.
  rewrite !length_over_axes01, Ci, Ch.
  destruct (L3 (fun l => np_mean (as_float l)) img Ci) as (m0 & m1 & m2 & ->).
  destruct (L3 (fun l => np_std (as_float l)) img Ci) as (s0 & s1 & s2 & ->).
  destruct (L3 np_median img Ci) as (d0 & d1 & d2 & ->).
  destruct (L3 (fun l => IZR (np_min l)) img Ci) as (n0 & n1 & n2 & ->).
  destruct (L3 (fun l => IZR (np_max l)) img Ci) as (x0 & x1 & x2 & ->).
  destruct (L3 (fun l => np_mean (as_float l)) hsv Ch) as (hm0 & hm1 & hm2 & ->).
  destruct (L3 (fun l => np_std (as_float l)) hsv Ch) as (hs0 & hs1 & hs2 & ->).
  destruct (L64 0%nat) as (hr & -> & Lr).
  destruct (L64 1%nat) as (hg & -> & Lg).
  destruct (L64 2%nat) as (hb & -> & Lb).
  generalize (edge_mean img) (edge_std img) (green_ratio img) (brown_ratio img)
    (yellow_ratio img) (spatial_variance img). intros e1 e2 r1 r2 r3 sv.
  cbn [concat]. rewrite app_nil_r.
  set (tail := [m0; m1; m2] ++ _).
  assert (Ht : length tail = 27%nat) by reflexivity.
  assert (Hv : hr ++ hg ++ hb ++ tail = (hr ++ hg ++ hb) ++ tail)
    by (by rewrite <- !app_assoc).
  rewrite Hv.
  assert (T : take 192 ((hr ++ hg ++ hb) ++ tail) = hr ++ hg ++ hb).
  { rewrite take_app_length'; [done|]. rewrite !length_app. lia. }
  rewrite T. rewrite !drop_app_ge by (rewrite !length_app; lia).
  rewrite !length_app, Lr, Lg, Lb, Ht.
  repeat split; reflexivity.
Qed.

(** On the solid green image, read from any path that decodes. *)
Lemma feature_vector_layout_witness :
  length (features_of green_image green_hsv) = 219%nat /\
  drop 218 (features_of green_image green_hsv) = [spatial_variance green_image].
Proof.
  pose proof (feature_vector_layout open_green hsv_green "leaf.jpg"
                green_image green_hsv (features_of green_image green_hsv)
                eq_refl eq_refl) as H.
  assert (V1 : valid_image green_image = true) by (vm_compute; reflexivity).
  assert (V2 : valid_image green_hsv = true) by (vm_compute; reflexivity).
  specialize (H V1 V2 eq_refl).
  split; [apply H|]. apply H.
Defined.

(** ** Training-time and inference-time extraction *)

Lemma predict_body_eq open conv (p : string) :
  Predict.extract_features_body open conv p = extract_features_body open conv p.
Proof.
  unfold Predict.extract_features_body, extract_features_body.
  change Predict.IMG_SIZE with IMG_SIZE.
  destruct (open p IMG_SIZE) as [img|e]; [|reflexivity].
  cbn [mbind res_bind].
  destruct (conv img) as [hsv|e]; [|reflexivity].
  reflexivity.
Qed.

Lemma predict_worker_eq open conv (p : string) :
  Predict.extract_features open conv p =
  option_map Predict.reshape_row <$> extract_features_worker open conv p.
Proof.
  unfold Predict.extract_features, extract_features_worker.
  rewrite predict_body_eq.
  destruct (extract_features_body open conv p); reflexivity.
Qed.

(** C1: on an image where both extractors succeed, the vector the generated
    [extract_features] builds before its final reshape is the training-time
    vector, and the matrix it returns has that vector as its only row, entry
    for entry. *)
Theorem extraction_parity open conv (p : string) (v : list R) (m : list (list R)) :
  extract_features_worker open conv p = Ok (Some v) ->
  Predict.extract_features open conv p = Ok (Some m) ->
  Predict.extract_features_body open conv p = Ok v /\
  m = Predict.reshape_row v /\
  (forall i : nat, (m !! 0%nat) ≫= (fun row => row !! i) = v !! i).
Proof.
  intros Hw Hp. rewrite predict_worker_eq, Hw in Hp.
  injection Hp as <-. split; [|split; reflexivity].
  rewrite predict_body_eq. unfold extract_features_worker, try_except_None in Hw.
  destruct (extract_features_body open conv p); congruence.
Qed.

Lemma extraction_parity_witness :
  Predict.extract_features_body open_green hsv_green "leaf.jpg" =
    Ok (features_of green_image green_hsv) /\
  [features_of green_image green_hsv] =
    Predict.reshape_row (features_of green_image green_hsv) /\
  (forall i : nat,
     ([features_of green_image green_hsv] !! 0%nat) ≫= (fun row => row !! i) =
     features_of green_image green_hsv !! i).
Proof.
  exact (extraction_parity open_green hsv_green "leaf.jpg"
           (features_of green_image green_hsv) [features_of green_image green_hsv]
           eq_refl eq_refl).
Defined.

(** ** Masks and ratio features *)

Lemma and_mask_map {A : Type} (f g : A -> bool) (a : list (list A)) :
  and_mask (map (map f) a) (map (map g) a) = map (map (fun x => f x && g x)) a.
Proof.
  unfold and_mask. induction a as [|row a IH]; [reflexivity|].
  cbn [map zip_with]. rewrite IH. f_equal.
  induction row as [|x row IHr]; [reflexivity|].
  cbn [map zip_with]. by rewrite IHr.
Qed.

Lemma map_map2 {A B C : Type} (f : A -> B) (g : B -> C) (a : list (list A)) :
  map (map g) (map (map f) a) = map (map (fun x => g (f x))) a.
Proof.
  rewrite map_map. apply map_ext. intros row. apply map_map.
Qed.

Lemma brown_mask_px (img : ndarray3) : brown_mask img = map (map brown_px) img.
Proof.
  unfold brown_mask, gt_scalar, lt_scalar, channel.
  rewrite !map_map2, !and_mask_map. reflexivity.
Qed.

Lemma yellow_mask_px (img : ndarray3) : yellow_mask img = map (map yellow_px) img.
Proof.
  unfold yellow_mask, gt_scalar, lt_scalar, channel.
  rewrite !map_map2, !and_mask_map. reflexivity.
Qed.

Lemma brown_yellow_px_disjoint (px : list Z) : brown_px px && yellow_px px = false.
Proof.
  unfold brown_px, yellow_px.
  destruct (nth 1 px 0 <? 150)%Z eqn:E1, (150 <? nth 1 px 0)%Z eqn:E2;
    rewrite ?andb_false_r, ?andb_false_l; try reflexivity.
  lia.
Qed.

Lemma mask_at_map {A : Type} (f : A -> bool) (a : list (list A)) (i j : nat) :
  mask_at (map (map f) a) i j = f <$> (a !! i ≫= fun row => row !! j).
Proof.
  unfold mask_at. change (map (map f) a) with (map f <$> a).
  rewrite list_lookup_fmap. destruct (a !! i) as [row|]; [|reflexivity].
  cbn. change (map f row) with (f <$> row). by rewrite list_lookup_fmap.
Qed.

Lemma count_le_length {A : Type} (f : A -> bool) (l : list A) :
  (0 <= count f l <= Z.of_nat (length l))%Z.
Proof.
  unfold count. pose proof (List.filter_length_le f l). lia.
Qed.

(** Two tests that never hold together select at most all elements. *)
Lemma count_disjoint {A : Type} (f g : A -> bool) (l : list A) :
  (forall x, f x && g x = false) ->
  (count f l + count g l <= Z.of_nat (length l))%Z.
Proof.
  intros Hd. unfold count. induction l as [|x l IH]; [simpl; lia|].
  specialize (Hd x). cbn [List.filter length].
  destruct (f x), (g x); try discriminate; cbn [length]; lia.
Qed.

Lemma sum_mask_map {A : Type} (f : A -> bool) (a : list (list A)) :
  sum_mask (map (map f) a) = count f (ravel2 a).
Proof.
  unfold sum_mask, ravel2, count.
  assert (E : List.filter (fun b : bool => b) (concat (map (map f) a)) =
              map f (List.filter f (concat a))).
  { induction a as [|row a IH]; [reflexivity|].
    cbn [map concat]. rewrite !List.filter_app, map_app, IH. f_equal.
    induction row as [|x row IHr]; [reflexivity|].
    cbn [map List.filter]. destruct (f x) eqn:Ex; cbn [map]; by rewrite IHr, ?Ex. }
  by rewrite E, length_map.
Qed.

Lemma length_concat_uniform {A : Type} (a : list (list A)) (w : nat) :
  Forall (fun row => length row = w) a -> length (concat a) = (length a * w)%nat.
Proof.
  induction 1 as [|row a Hrow _ IH]; [reflexivity|].
  cbn [concat length]. rewrite length_app, IH, Hrow. lia.
Qed.

Lemma valid_image_pixels (img : ndarray3) :
  valid_image img = true -> length (ravel2 img) = (128 * 128)%nat.
Proof.
  intros H. apply valid_image_shape in H as [Hlen Hrows].
  unfold ravel2. rewrite (length_concat_uniform img 128).
  - rewrite Hlen. reflexivity.
  - eapply Forall_impl; [exact Hrows|]. by intros row [? _].
Qed.

Lemma IZR_pixels : IZR (IMG_SIZE * IMG_SIZE) = 16384%R.
Proof. unfold IMG_SIZE. change (128 * 128)%Z with 16384%Z. reflexivity. Qed.

(** C10: no pixel is both brown and yellow, so the two ratios sum to at
    most 1. *)
Theorem brown_yellow_disjoint (img : ndarray3) :
  valid_image img = true ->
  (forall i j : nat,
     ~ (mask_at (brown_mask img) i j = Some true /\
        mask_at (yellow_mask img) i j = Some true)) /\
  (brown_ratio img + yellow_ratio img <= 1)%R.
Proof.
  intros Hv. split.
  - intros i j. rewrite brown_mask_px, yellow_mask_px, !mask_at_map.
    match goal with |- context [brown_px <$> ?o] => destruct o as [px|] end; cbn.
    + intros [[= Hb] [= Hy]]. pose proof (brown_yellow_px_disjoint px) as Hd.
      rewrite Hb, Hy in Hd. discriminate.
    + intros [Hb _]. discriminate.
  - unfold brown_ratio, yellow_ratio.
    rewrite brown_mask_px, yellow_mask_px, !sum_mask_map, IZR_pixels.
    pose proof (count_disjoint brown_px yellow_px (ravel2 img)
                  brown_yellow_px_disjoint) as Hc.
    rewrite (valid_image_pixels img Hv) in Hc.
    apply IZR_le in Hc. rewrite plus_IZR in Hc.
    change (IZR (Z.of_nat (128 * 128))) with 16384%R in Hc.
    lra.
Qed.

Lemma brown_yellow_disjoint_witness :
  (forall i j : nat,
     ~ (mask_at (brown_mask green_image) i j = Some true /\
        mask_at (yellow_mask green_image) i j = Some true)) /\
  (brown_ratio green_image + yellow_ratio green_image <= 1)%R.
Proof.
  apply brown_yellow_disjoint. vm_compute. reflexivity.
Defined.

Lemma np_sum_as_float (l : list Z) : np_sum (as_float l) = IZR (sumZ l).
Proof.
  induction l as [|x l IH]; [reflexivity|].
  cbn [as_float map np_sum fold_right sumZ]. fold (as_float l). fold (np_sum (as_float l)).
  fold (sumZ l). by rewrite IH, plus_IZR.
Qed.

Lemma np_mean_as_float (l : list Z) :
  np_mean (as_float l) = (IZR (sumZ l) / IZR (Z.of_nat (length l)))%R.
Proof.
  unfold np_mean. rewrite np_sum_as_float. unfold as_float.
  by rewrite length_map, INR_IZR_INZ.
Qed.

Lemma sumZ_app (l1 l2 : list Z) : sumZ (l1 ++ l2) = (sumZ l1 + sumZ l2)%Z.
Proof.
  induction l1 as [|x l1 IH]; [reflexivity|].
  cbn [app sumZ fold_right]. fold (sumZ (l1 ++ l2)). fold (sumZ l1). lia.
Qed.

Lemma nth_le_sumZ (k : nat) (px : list Z) :
  Forall (fun v => (0 <= v)%Z) px -> (0 <= nth k px 0 <= sumZ px)%Z.
Proof.
  intros H. revert k. induction H as [|v px Hv _ IH]; intros k.
  - destruct k; simpl; lia.
  - destruct k as [|k]; cbn [nth sumZ fold_right]; fold (sumZ px).
    + specialize (IH 0%nat). lia.
    + specialize (IH k). lia.
Qed.

Lemma sum_channel_le (k : nat) (pxs : list (list Z)) :
  Forall (Forall (fun v => (0 <= v)%Z)) pxs ->
  (0 <= sumZ (map (fun px => nth k px 0%Z) pxs) <= sumZ (concat pxs))%Z.
Proof.
  induction 1 as [|px pxs Hpx _ IH]; [simpl; lia|].
  cbn [map concat sumZ fold_right]. fold (sumZ (map (fun px => nth k px 0%Z) pxs)).
  rewrite sumZ_app. pose proof (nth_le_sumZ k px Hpx). lia.
Qed.

Lemma ravel2_channel (k : nat) (img : ndarray3) :
  ravel2 (channel k img) = map (fun px => nth k px 0%Z) (ravel2 img).
Proof. unfold ravel2, channel. by rewrite concat_map. Qed.

Lemma valid_image_pixel_list (img : ndarray3) :
  valid_image img = true ->
  Forall (fun px => length px = 3%nat /\ Forall (fun v => (0 <= v <= 255)%Z) px)
         (ravel2 img).
Proof.
  intros H. apply valid_image_shape in H as [_ Hrows].
  unfold ravel2. apply Forall_concat.
  eapply Forall_impl; [exact Hrows|]. by intros row [_ ?].
Qed.

Lemma valid_image_values (img : ndarray3) :
  valid_image img = true -> length (ravel3 img) = (128 * 128 * 3)%nat.
Proof.
  intros H. unfold ravel3. rewrite (length_concat_uniform (concat img) 3).
  - fold (ravel2 img). by rewrite (valid_image_pixels img H).
  - eapply Forall_impl; [exact (valid_image_pixel_list img H)|]. by intros px [? _].
Qed.

(** The exact value of the green ratio in terms of integer channel sums. *)
Lemma green_ratio_sums (img : ndarray3) :
  valid_image img = true ->
  green_ratio img =
  (IZR (sumZ (ravel2 (channel 1 img))) / 16384 /
   (IZR (sumZ (ravel3 img)) / 49152 + 1e-6))%R.
Proof.
  intros H. unfold green_ratio. rewrite !np_mean_as_float.
  rewrite (valid_image_values img H), ravel2_channel, length_map.
  rewrite (valid_image_pixels img H). reflexivity.
Qed.

Lemma green_sums_bounds (img : ndarray3) :
  valid_image img = true ->
  (0 <= sumZ (ravel2 (channel 1 img)) <= sumZ (ravel3 img))%Z.
Proof.
  intros H. rewrite ravel2_channel. unfold ravel3. fold (ravel2 img).
  apply sum_channel_le.
  eapply Forall_impl; [exact (valid_image_pixel_list img H)|].
  intros px [_ Hpx]. eapply Forall_impl; [exact Hpx|]. simpl. lia.
Qed.

Lemma ratio_of_count (c : Z) :
  (0 <= c <= 16384)%Z -> (0 <= IZR c / IZR (IMG_SIZE * IMG_SIZE) <= 1)%R.
Proof.
  intros [H0 H1]. rewrite IZR_pixels.
  apply IZR_le in H0. apply IZR_le in H1. lra.
Qed.

Lemma count_pixels_bound (f : list Z -> bool) (img : ndarray3) :
  valid_image img = true -> (0 <= count f (ravel2 img) <= 16384)%Z.
Proof.
  intros H. pose proof (count_le_length f (ravel2 img)) as Hc.
  rewrite (valid_image_pixels img H) in Hc.
  change (Z.of_nat (128 * 128)) with 16384%Z in Hc. exact Hc.
Qed.

(** C3 (as amended): the brown and yellow ratios lie in [0,1]; the green
    ratio is the green mean over the mean of all channels, which is
    non-negative and stays below 3. *)
Theorem ratio_features_range (img : ndarray3) :
  valid_image img = true ->
  (0 <= brown_ratio img <= 1)%R /\
  (0 <= yellow_ratio img <= 1)%R /\
  (0 <= green_ratio img < 3)%R.
Proof.
  intros H. split; [|split].
  - unfold brown_ratio. rewrite brown_mask_px, sum_mask_map.
    apply ratio_of_count, count_pixels_bound, H.
  - unfold yellow_ratio. rewrite yellow_mask_px, sum_mask_map.
    apply ratio_of_count, count_pixels_bound, H.
  - rewrite (green_ratio_sums img H).
    destruct (green_sums_bounds img H) as [H0 H1].
    apply IZR_le in H0. apply IZR_le in H1.
    set (x := IZR (sumZ (ravel2 (channel 1 img)))) in *.
    set (y := IZR (sumZ (ravel3 img))) in *.
    assert (HD : (0 < y / 49152 + 1e-6)%R) by lra.
    set (D := (y / 49152 + 1e-6)%R) in *.
    assert (E : (x / 16384 / D * D = x / 16384)%R) by (field; lra).
    split.
    + apply Rmult_le_reg_r with D; [exact HD|]. rewrite E. lra.
    + apply Rmult_lt_reg_r with D; [exact HD|]. rewrite E. unfold D. lra.
Qed.

Lemma ratio_features_range_witness :
  (0 <= brown_ratio green_image <= 1)%R /\
  (0 <= yellow_ratio green_image <= 1)%R /\
  (0 <= green_ratio green_image < 3)%R.
Proof.
  apply ratio_features_range. vm_compute. reflexivity.
Defined.

Lemma sumZ_concat_repeat (l : list Z) (n : nat) :
  sumZ (concat (repeat l n)) = (Z.of_nat n * sumZ l)%Z.
Proof.
  induction n as [|n IH]; [reflexivity|].
  cbn [repeat concat]. rewrite sumZ_app, IH. lia.
Qed.

Lemma sumZ_concat2_repeat (row : list (list Z)) (n : nat) :
  sumZ (concat (concat (repeat row n))) = (Z.of_nat n * sumZ (concat row))%Z.
Proof.
  induction n as [|n IH]; [reflexivity|].
  cbn [repeat concat]. rewrite concat_app, sumZ_app, IH. lia.
Qed.

Lemma green_image_sums :
  sumZ (ravel2 (channel 1 green_image)) = (128 * 128 * 255)%Z /\
  sumZ (ravel3 green_image) = (128 * 128 * 255)%Z.
Proof.
  unfold ravel3, ravel2, channel, green_image. split.
  - rewrite !map_repeat, sumZ_concat_repeat. cbn [nth].
    replace (sumZ (repeat 255%Z 128)) with (128 * 255)%Z by (vm_compute; reflexivity).
    reflexivity.
  - rewrite sumZ_concat2_repeat, sumZ_concat_repeat. reflexivity.
Qed.

(** C3, counterexample: on the solid green image the green ratio is
    255 / (85 + 1e-6), far above 1. *)
Lemma green_ratio_exceeds_one :
  valid_image green_image = true /\ ~ (0 <= green_ratio green_image <= 1)%R.
Proof.
  assert (V : valid_image green_image = true) by (vm_compute; reflexivity).
  split; [exact V|].
  rewrite (green_ratio_sums green_image V).
  destruct green_image_sums as [-> ->].
  change (128 * 128 * 255)%Z with 4177920%Z.
  intros [_ H].
  set (D := (4177920 / 49152 + 1e-6)%R) in *.
  assert (HD : (0 < D)%R) by (unfold D; lra).
  assert (E : (4177920 / 16384 / D * D = 4177920 / 16384)%R) by (field; lra).
  apply (Rmult_le_compat_r D) in H; [|lra].
  rewrite E in H. unfold D in H. lra.
Qed.

(** ** Edge features: scipy's default boundary against edge replication *)

(** One step outside the array, reflection and edge replication agree. *)
Lemma reflect_clamp (n k : Z) :
  (0 < n)%Z -> (-1 <= k <= n)%Z -> reflect n k = clamp n k.
Proof.
  intros Hn Hk. unfold reflect, clamp.
  destruct (Z.eq_dec k (-1)%Z) as [->|Hk1].
  - replace ((-1) mod (2 * n))%Z with (2 * n - 1)%Z.
    + destruct (2 * n - 1 <? n)%Z eqn:E; lia.
    + apply (Z.mod_unique_pos _ _ (-1)%Z); lia.
  - rewrite Z.mod_small by lia.
    destruct (k <? n)%Z eqn:E; lia.
Qed.

Lemma get2_reflect_replicate (g : list (list R)) (a b : Z) :
  (0 < Z.of_nat (height g))%Z -> (0 < Z.of_nat (width g))%Z ->
  (-1 <= a <= Z.of_nat (height g))%Z -> (-1 <= b <= Z.of_nat (width g))%Z ->
  get2_reflect g a b = get2_replicate g a b.
Proof.
  intros Hh Hw Ha Hb. unfold get2_reflect, get2_replicate.
  by rewrite !reflect_clamp.
Qed.

Lemma convolve_laplacian_replicate (g : list (list R)) :
  ndimage_convolve g laplacian = laplace_replicate g.
Proof.
  unfold ndimage_convolve, laplace_replicate.
  apply map_ext_in. intros i Hi. apply in_seq in Hi.
  apply map_ext_in. intros j Hj. apply in_seq in Hj.
  unfold laplacian, offsets3.
  cbn [length hd seq map np_sum fold_right getw nth Nat.sub].
  change (Z.of_nat (3 `div` 2)) with 1%Z.
  change (Z.of_nat 0) with 0%Z. change (Z.of_nat 1) with 1%Z.
  change (Z.of_nat 2) with 2%Z.
  rewrite !get2_reflect_replicate by lia.
  set (I := Z.of_nat i). set (J := Z.of_nat j).
  replace (I + 0 - 1)%Z with (I - 1)%Z by lia.
  replace (I + 1 - 1)%Z with I by lia.
  replace (I + 2 - 1)%Z with (I + 1)%Z by lia.
  replace (J + 0 - 1)%Z with (J - 1)%Z by lia.
  replace (J + 1 - 1)%Z with J by lia.
  replace (J + 2 - 1)%Z with (J + 1)%Z by lia.
  replace (I - -1)%Z with (I + 1)%Z by lia.
  replace (J - -1)%Z with (J + 1)%Z by lia.
  replace (I - 0)%Z with I by lia.
  replace (J - 0)%Z with J by lia.
  unfold getw. cbn [nth].
  change (laplacian_weight (-1) (-1)) with 0%R.
  change (laplacian_weight (-1) 0) with 1%R.
  change (laplacian_weight (-1) 1) with 0%R.
  change (laplacian_weight 0 (-1)) with 1%R.
  change (laplacian_weight 0 0) with (-4)%R.
  change (laplacian_weight 0 1) with 1%R.
  change (laplacian_weight 1 (-1)) with 0%R.
  change (laplacian_weight 1 0) with 1%R.
  change (laplacian_weight 1 1) with 0%R.
  ring.
Qed.

Lemma gray_of_spec (img : ndarray3) :
  valid_image img = true -> gray_of img = gray_spec img.
Proof.
  intros H. apply valid_image_shape in H as [_ Hrows].
  unfold gray_of, mean_axis2, gray_spec.
  apply map_ext_in. intros row Hrow.
  rewrite Forall_forall in Hrows. rewrite <- list_elem_of_In in Hrow.
  destruct (Hrows row Hrow) as [_ Hpx].
  apply map_ext_in. intros px Hin.
  rewrite Forall_forall in Hpx. rewrite <- list_elem_of_In in Hin.
  destruct (Hpx px Hin) as [Hlen _].
  destruct px as [|r [|g [|b [|? ?]]]]; try discriminate.
  unfold np_mean. cbn [as_float map np_sum fold_right length nth INR]. lra.
Qed.

(** C8: the two edge features are the mean absolute value and the standard
    deviation of the grayscale image (per-pixel mean of the three channels)
    convolved with the Laplacian kernel (centre -4, orthogonal neighbours +1,
    corners 0) under edge-replicated boundary handling; scipy's default
    'reflect' mode coincides with edge replication for a 3x3 kernel. *)
Theorem edge_features_laplacian (img : ndarray3) :
  valid_image img = true ->
  (edge_mean img, edge_std img) = edge_features_spec img.
Proof.
  intros H. unfold edge_mean, edge_std, edges_of, edge_features_spec.
  by rewrite convolve_laplacian_replicate, (gray_of_spec img H).
Qed.

Lemma edge_features_laplacian_witness :
  (edge_mean green_image, edge_std green_image) = edge_features_spec green_image.
Proof.
  apply edge_features_laplacian. vm_compute. reflexivity.
Defined.

(** ** The dataset assembler *)

Lemma listable_spec (os : OS) (roots : list string) :
  listable os roots = true <->
  forall r, r ∈ roots -> os_path_exists os r = true ->
    exists names, os_listdir os r = Ok names /\
      forall d, d ∈ names -> os_path_isdir os (os_path_join os r d) = true ->
        exists files, os_listdir os (os_path_join os r d) = Ok files.
Proof.
  unfold listable. rewrite forallb_forall. split.
  - intros H r Hr Hex. apply list_elem_of_In in Hr. specialize (H r Hr).
    rewrite Hex in H. destruct (os_listdir os r) as [names|e]; [|discriminate].
    exists names. split; [reflexivity|]. intros d Hd Hdir.
    rewrite forallb_forall in H. apply list_elem_of_In in Hd. specialize (H d Hd).
    rewrite Hdir in H. destruct (os_listdir os (os_path_join os r d)); [|discriminate].
    by eexists.
  - intros H r Hr. apply list_elem_of_In in Hr.
    destruct (os_path_exists os r) eqn:Hex; [|reflexivity].
    destruct (H r Hr Hex) as (names & -> & Hn).
    apply forallb_forall. intros d Hd. apply list_elem_of_In in Hd.
    destruct (os_path_isdir os (os_path_join os r d)) eqn:Hdir; [|reflexivity].
    destruct (Hn d Hd Hdir) as (files & ->). reflexivity.
Qed.

Lemma listable_cons (os : OS) (r : string) (roots : list string) :
  listable os (r :: roots) = true ->
  listable os [r] = true /\ listable os roots = true.
Proof.
  unfold listable. cbn [forallb]. rewrite andb_true_r. apply andb_prop.
Qed.

Lemma class_dirs_subdir_names (os : OS) (r : string) (names : list string) :
  os_listdir os r = Ok names -> class_dirs os r = Ok (subdir_names os r).
Proof. intros H. unfold class_dirs, subdir_names. by rewrite H. Qed.

Lemma listable_root (os : OS) (r : string) :
  listable os [r] = true -> os_path_exists os r = true ->
  class_dirs os r = Ok (subdir_names os r) /\
  forall d, d ∈ subdir_names os r ->
    exists files, os_listdir os (os_path_join os r d) = Ok files.
Proof.
  intros H Hex. rewrite listable_spec in H.
  destruct (H r ltac:(by apply list_elem_of_singleton) Hex) as (names & Hl & Hn).
  split; [by eapply class_dirs_subdir_names|].
  intros d Hd. unfold subdir_names in Hd. rewrite Hl in Hd.
  apply list_elem_of_In, filter_In in Hd as [Hd Hdir].
  apply Hn; [by apply list_elem_of_In|exact Hdir].
Qed.

Lemma collect_classes_ok (os : OS) (roots : list string) (acc : gset string) :
  listable os roots = true ->
  collect_classes os roots acc = Ok (acc ∪ list_to_set (all_subdirs os roots)).
Proof.
  revert acc. induction roots as [|r roots IH]; intros acc H.
  - cbn [collect_classes]. unfold all_subdirs. cbn [List.filter map concat list_to_set].
    by rewrite (right_id_L ∅ (∪)).
  - apply listable_cons in H as [Hr Hrest]. cbn [collect_classes].
    unfold all_subdirs. cbn [List.filter].
    destruct (os_path_exists os r) eqn:Hex; cbn [negb].
    + destruct (listable_root os r Hr Hex) as [-> _]. cbn [mbind res_bind].
      rewrite (IH _ Hrest). f_equal. cbn [map concat]. fold (all_subdirs os roots).
      by rewrite list_to_set_app_L, (assoc_L (∪)).
    + by rewrite (IH _ Hrest).
Qed.

Lemma sorted_list_of_list (l : list string) :
  sorted_list (list_to_set l) = merge_sort String.le (remove_dups l).
Proof.
  unfold sorted_list.
  apply (Sorted_unique String.le); [apply Sorted_merge_sort; apply _ ..|].
  rewrite !merge_sort_Permutation.
  apply NoDup_Permutation; [apply NoDup_elements|apply NoDup_remove_dups|].
  intros x. by rewrite elem_of_elements, elem_of_list_to_set, elem_of_remove_dups.
Qed.

Lemma vocabulary_spec_facts (os : OS) (roots : list string) :
  Sorted String.le (vocabulary_spec os roots) /\
  NoDup (vocabulary_spec os roots) /\
  forall c, c ∈ vocabulary_spec os roots <-> c ∈ all_subdirs os roots.
Proof.
  unfold vocabulary_spec. split; [|split].
  - apply Sorted_merge_sort. apply _.
  - rewrite merge_sort_Permutation. apply NoDup_remove_dups.
  - intros c. by rewrite merge_sort_Permutation, elem_of_remove_dups.
Qed.

Lemma elem_of_all_subdirs (os : OS) (roots : list string) (c : string) :
  c ∈ all_subdirs os roots <->
  exists r, r ∈ roots /\ os_path_exists os r = true /\ c ∈ subdir_names os r.
Proof.
  unfold all_subdirs. rewrite list_elem_of_In, in_concat. split.
  - intros (l & Hl & Hc). apply in_map_iff in Hl as (r & <- & Hr).
    apply filter_In in Hr as [Hr Hex]. exists r.
    by rewrite !list_elem_of_In.
  - intros (r & Hr & Hex & Hc). exists (subdir_names os r).
    split; [|by apply list_elem_of_In].
    apply in_map, filter_In. by rewrite <- list_elem_of_In.
Qed.

Lemma enumerate_snoc {A : Type} (l : list A) (x : A) :
  enumerate (l ++ [x]) = enumerate l ++ [(length l, x)].
Proof.
  unfold enumerate. rewrite length_app. cbn [length].
  rewrite Nat.add_1_r, seq_S. cbn [Nat.add].
  rewrite (zip_with_app pair (seq 0 (length l)) [length l] l [x]); [reflexivity|].
  by rewrite length_seq.
Qed.

Lemma make_class_to_idx_snoc (l : list string) (x : string) :
  make_class_to_idx (l ++ [x]) = <[x := length l]> (make_class_to_idx l).
Proof.
  unfold make_class_to_idx. by rewrite enumerate_snoc, foldl_snoc.
Qed.

(** The dictionary maps every class name to its position in the vocabulary. *)
Lemma make_class_to_idx_lookup (names : list string) (c : string) (i : nat) :
  NoDup names ->
  make_class_to_idx names !! c = Some i <-> names !! i = Some c.
Proof.
  revert c i. induction names as [|x l IH] using rev_ind; intros c i Hnd.
  - unfold make_class_to_idx. cbn. rewrite lookup_empty. split; discriminate.
  - apply NoDup_app in Hnd as (Hl & Hx & _).
    rewrite make_class_to_idx_snoc, lookup_snoc_Some.
    destruct (decide (x = c)) as [->|Hne].
    + rewrite lookup_insert_eq. split.
      * intros [= <-]. by right.
      * intros [[Hlt Hi]|[-> _]]; [|reflexivity].
        exfalso. apply (Hx c); [by eapply list_elem_of_lookup_2|].
        by apply list_elem_of_singleton.
    + rewrite lookup_insert_ne by done. rewrite (IH c i Hl). split.
      * intros Hi. left. split; [by eapply lookup_lt_Some|exact Hi].
      * intros [[_ Hi]|[_ Hc]]; [exact Hi|congruence].
Qed.

Lemma make_class_to_idx_bound (names : list string) (c : string) :
  NoDup names -> c ∈ names ->
  exists i, make_class_to_idx names !! c = Some i /\ (i < length names)%nat.
Proof.
  intros Hnd Hc. apply list_elem_of_lookup in Hc as [i Hi]. exists i. split.
  - by apply make_class_to_idx_lookup.
  - by eapply lookup_lt_Some.
Qed.

Section AssemblerFacts.

Variable os : OS.
Variable Image_open_RGB_resize : string -> Z -> res ndarray3.
Variable Image_convert_HSV : ndarray3 -> res ndarray3.
Variable rng : Type.
Variable random_sample : rng -> list string -> nat -> list string * rng.

Local Abbreviation worker :=
  (extract_features_worker Image_open_RGB_resize Image_convert_HSV).

Lemma select_image_files_ok (class_path : string) (names : list string) (g : rng) :
  os_listdir os class_path = Ok names ->
  exists sel g', select_image_files os rng random_sample class_path g = Ok (sel, g').
Proof.
  intros H. unfold select_image_files. rewrite H. cbn [mbind res_bind].
  destruct (SAMPLES_PER_CLASS <? length (List.filter is_image_file names))%nat.
  - destruct (random_sample g (List.filter is_image_file names) SAMPLES_PER_CLASS)
      as [sel g']. by exists sel, g'.
  - by do 2 eexists.
Qed.

Lemma class_tasks_ok (c2i : gmap string nat) (root d : string) (i : nat)
    (files : list string) (g : rng) :
  c2i !! d = Some i ->
  os_listdir os (os_path_join os root d) = Ok files ->
  exists ts g', class_tasks os rng random_sample c2i root d g = Ok (ts, g') /\
                Forall (fun t : task => t.2 = i) ts.
Proof.
  intros Hi Hl. unfold class_tasks. rewrite Hi. cbn [mbind res_bind].
  destruct (select_image_files_ok _ _ g Hl) as (sel & g' & ->).
  cbn [mbind res_bind mret res_ret fst snd]. do 2 eexists. split; [reflexivity|].
  apply Forall_forall. intros t Ht. apply list_elem_of_In, in_map_iff in Ht.
  by destruct Ht as (f & <- & _).
Qed.

Lemma scan_classes_ok (c2i : gmap string nat) (n : nat) (root : string)
    (dirs : list string) (acc : list task) (g : rng) :
  (forall d, d ∈ dirs ->
     (exists i, c2i !! d = Some i /\ (i < n)%nat) /\
     (exists files, os_listdir os (os_path_join os root d) = Ok files)) ->
  Forall (fun t : task => (t.2 < n)%nat) acc ->
  exists tasks g',
    scan_classes os rng random_sample c2i root dirs acc g = Ok (tasks, g') /\
    Forall (fun t : task => (t.2 < n)%nat) tasks.
Proof.
  revert acc g. induction dirs as [|d dirs IH]; intros acc g Hd Hacc.
  - exists acc, g. by split.
  - destruct (Hd d) as [(i & Hi & Hlt) (files & Hl)]; [by left|].
    destruct (class_tasks_ok c2i root d i files g Hi Hl) as (ts & g1 & Hts & Hlab).
    cbn [scan_classes]. rewrite Hts. cbn [mbind res_bind fst snd].
    apply IH.
    + intros d' Hd'. apply Hd. by right.
    + apply Forall_app. split; [exact Hacc|].
      eapply Forall_impl; [exact Hlab|]. intros t ->. exact Hlt.
Qed.

Lemma all_subdirs_cons (r : string) (roots : list string) :
  all_subdirs os (r :: roots) =
  (if os_path_exists os r then subdir_names os r else []) ++ all_subdirs os roots.
Proof.
  unfold all_subdirs. cbn [List.filter].
  by destruct (os_path_exists os r).
Qed.

Lemma scan_roots_ok (c2i : gmap string nat) (n : nat) (roots : list string)
    (acc : list task) (g : rng) :
  listable os roots = true ->
  (forall c, c ∈ all_subdirs os roots -> exists i, c2i !! c = Some i /\ (i < n)%nat) ->
  Forall (fun t : task => (t.2 < n)%nat) acc ->
  exists tasks g',
    scan_roots os rng random_sample c2i roots acc g = Ok (tasks, g') /\
    Forall (fun t : task => (t.2 < n)%nat) tasks.
Proof.
  revert acc g. induction roots as [|r roots IH]; intros acc g Hl Hc Hacc.
  - exists acc, g. by split.
  - apply listable_cons in Hl as [Hr Hrest]. cbn [scan_roots].
    rewrite all_subdirs_cons in Hc.
    destruct (os_path_exists os r) eqn:Hex; cbn [negb].
    + destruct (listable_root os r Hr Hex) as [-> Hfiles]. cbn [mbind res_bind].
      destruct (scan_classes_ok c2i n r (subdir_names os r) acc g)
        as (tasks1 & g1 & -> & H1); [|exact Hacc|].
      { intros d Hd. split; [|by apply Hfiles].
        apply Hc, elem_of_app. by left. }
      cbn [mbind res_bind fst snd]. apply IH; [exact Hrest| |exact H1].
      intros c Hin. apply Hc, elem_of_app. by right.
    + apply IH; [exact Hrest| |exact Hacc].
      intros c Hin. apply Hc, elem_of_app. by right.
Qed.

Lemma run_workers_ok (tasks : list task) :
  run_workers Image_open_RGB_resize Image_convert_HSV tasks =
  Ok (map (fun t : task => survivor (worker t.1)) tasks).
Proof.
  induction tasks as [|t tasks IH]; [reflexivity|].
  cbn [run_workers map]. rewrite IH.
  destruct (worker_never_raises Image_open_RGB_resize Image_convert_HSV t.1) as [r ->].
  cbn [mbind res_bind mret res_ret survivor]. by destruct r.
Qed.

Lemma assemble_ok (tasks pre ts : list task) (X : list (list R)) (y : list nat) :
  tasks = pre ++ ts ->
  assemble tasks
    (zip (seq (length pre) (length ts)) (map (fun t : task => survivor (worker t.1)) ts))
    X y =
  Ok (X ++ (surviving_samples worker ts).*1, y ++ (surviving_samples worker ts).*2).
Proof.
  revert pre X y. induction ts as [|t ts IH]; intros pre X y Ht.
  - cbn. by rewrite !app_nil_r.
  - cbn [length seq map zip_with assemble].
    assert (Hlook : tasks !! length pre = Some t)
      by (rewrite Ht; by apply list_lookup_middle).
    assert (Hnext : tasks = (pre ++ [t]) ++ ts) by (by rewrite <- app_assoc).
    specialize (IH (pre ++ [t])). rewrite length_app, Nat.add_1_r in IH.
    unfold surviving_samples. cbn [omap list_omap].
    destruct (survivor (worker t.1)) as [v|] eqn:Hs.
    + replace (tasks !! length pre) with (Some t) by (symmetry; exact Hlook).
      rewrite (IH _ _ Hnext). cbn [fmap option_fmap option_map].
      cbn [fmap list_fmap fst snd]. unfold surviving_samples.
      by rewrite <- !app_assoc.
    + rewrite (IH _ _ Hnext). reflexivity.
Qed.

(** The assembler returns whenever the layout can be listed: the
    vocabulary is the specified one, the labels index into it and the
    arrays are the surviving samples in task order. *)
Lemma prepare_dataset_ok (roots : list string) (g : rng) :
  listable os roots = true ->
  exists tasks g',
    scan_roots os rng random_sample (make_class_to_idx (vocabulary_spec os roots))
      roots [] g = Ok (tasks, g') /\
    Forall (fun t : task => (t.2 < length (vocabulary_spec os roots))%nat) tasks /\
    prepare_dataset os Image_open_RGB_resize Image_convert_HSV rng random_sample roots g =
    Ok ((surviving_samples worker tasks).*1, (surviving_samples worker tasks).*2,
        vocabulary_spec os roots, g').
Proof.
  intros Hl. unfold prepare_dataset.
  rewrite (collect_classes_ok os roots ∅ Hl). cbn [mbind res_bind].
  rewrite (left_id_L ∅ (∪)), sorted_list_of_list. fold (vocabulary_spec os roots).
  destruct (vocabulary_spec_facts os roots) as (_ & Hnd & Hmem).
  destruct (scan_roots_ok (make_class_to_idx (vocabulary_spec os roots))
              (length (vocabulary_spec os roots)) roots [] g Hl)
    as (tasks & g' & Hscan & Hlab).
  { intros c Hc. apply make_class_to_idx_bound; [exact Hnd|by apply Hmem]. }
  { constructor. }
  exists tasks, g'. split; [exact Hscan|]. split; [exact Hlab|].
  rewrite Hscan. cbn [mbind res_bind fst snd].
  rewrite run_workers_ok. cbn [mbind res_bind].
  unfold enumerate. rewrite length_map.
  pose proof (assemble_ok tasks [] tasks [] [] eq_refl) as Ha.
  change (length (@nil task)) with 0%nat in Ha. rewrite Ha. reflexivity.
Qed.

End AssemblerFacts.

(** *** Exceptions that can leave the assembler *)

Section AssemblerExceptions.

Variable os : OS.
Variable Image_open_RGB_resize : string -> Z -> res ndarray3.
Variable Image_convert_HSV : ndarray3 -> res ndarray3.
Variable rng : Type.
Variable random_sample : rng -> list string -> nat -> list string * rng.

Lemma class_dirs_inv (r : string) :
  (exists e, os_listdir os r = Raise e /\ class_dirs os r = Raise e) \/
  (exists names, os_listdir os r = Ok names /\ class_dirs os r = Ok (subdir_names os r)).
Proof.
  unfold class_dirs, subdir_names.
  destruct (os_listdir os r) as [names|e]; [right|left]; by eexists.
Qed.

Lemma collect_classes_inv (roots : list string) (acc : gset string) :
  match collect_classes os roots acc with
  | Ok s => s = acc ∪ list_to_set (all_subdirs os roots)
  | Raise e => exists p, os_listdir os p = Raise e
  end.
Proof.
  revert acc. induction roots as [|r roots IH]; intros acc.
  - cbn [collect_classes mret res_ret]. unfold all_subdirs.
    cbn [List.filter map concat list_to_set]. by rewrite (right_id_L ∅ (∪)).
  - cbn [collect_classes]. unfold all_subdirs. cbn [List.filter].
    destruct (os_path_exists os r); cbn [negb]; [|apply IH].
    destruct (class_dirs_inv r) as [(e & He & ->)|(names & Hn & ->)]; cbn [mbind res_bind].
    + by exists r.
    + specialize (IH (acc ∪ list_to_set (subdir_names os r))).
      destruct (collect_classes os roots _) as [s|e]; [|exact IH].
      rewrite IH. cbn [map concat]. fold (all_subdirs os roots).
      by rewrite list_to_set_app_L, (assoc_L (∪)).
Qed.

Lemma class_tasks_raise (c2i : gmap string nat) (root d : string) (i : nat) (g : rng)
    (e : exn) :
  c2i !! d = Some i ->
  class_tasks os rng random_sample c2i root d g = Raise e ->
  os_listdir os (os_path_join os root d) = Raise e.
Proof.
  intros Hi. unfold class_tasks, select_image_files. rewrite Hi. cbn [mbind res_bind].
  destruct (os_listdir os (os_path_join os root d)) as [names|e']; cbn [mbind res_bind].
  - destruct (SAMPLES_PER_CLASS <? _)%nat; discriminate.
  - by intros [= ->].
Qed.

Lemma scan_classes_raise (c2i : gmap string nat) (root : string) (dirs : list string)
    (acc : list task) (g : rng) (e : exn) :
  (forall d, d ∈ dirs -> exists i, c2i !! d = Some i) ->
  scan_classes os rng random_sample c2i root dirs acc g = Raise e ->
  exists p, os_listdir os p = Raise e.
Proof.
  revert acc g. induction dirs as [|d dirs IH]; intros acc g Hd; [discriminate|].
  cbn [scan_classes]. destruct (Hd d) as [i Hi]; [by left|].
  destruct (class_tasks os rng random_sample c2i root d g) as [r|e'] eqn:Hc;
    cbn [mbind res_bind].
  - apply IH. intros d' Hd'. apply Hd. by right.
  - intros [= ->]. eexists. by eapply class_tasks_raise.
Qed.

Lemma scan_roots_raise (c2i : gmap string nat) (roots : list string)
    (acc : list task) (g : rng) (e : exn) :
  (forall c, c ∈ all_subdirs os roots -> exists i, c2i !! c = Some i) ->
  scan_roots os rng random_sample c2i roots acc g = Raise e ->
  exists p, os_listdir os p = Raise e.
Proof.
  revert acc g. induction roots as [|r roots IH]; intros acc g Hc; [discriminate|].
  cbn [scan_roots]. rewrite all_subdirs_cons in Hc.
  destruct (os_path_exists os r); cbn [negb].
  - destruct (class_dirs_inv r) as [(e' & He & ->)|(names & Hn & ->)]; cbn [mbind res_bind].
    + intros [= ->]. by exists r.
    + destruct (scan_classes os rng random_sample c2i r (subdir_names os r) acc g)
        as [t|e'] eqn:Hs; cbn [mbind res_bind].
      * apply IH. intros c Hin. apply Hc, elem_of_app. by right.
      * intros [= ->]. eapply scan_classes_raise; [|exact Hs].
        intros d Hd. apply Hc, elem_of_app. by left.
  - apply IH. intros c Hin. apply Hc, elem_of_app. by right.
Qed.

(** Whatever the layout, an exception that leaves [prepare_dataset] was
    raised by [os.listdir]; none comes from extraction, from the dictionary
    lookup or from indexing the task list. *)
Lemma prepare_dataset_raise (roots : list string) (g : rng) (e : exn) :
  prepare_dataset os Image_open_RGB_resize Image_convert_HSV rng random_sample roots g =
    Raise e ->
  exists p, os_listdir os p = Raise e.
Proof.
  unfold prepare_dataset.
  pose proof (collect_classes_inv roots ∅) as Hc.
  destruct (collect_classes os roots ∅) as [s|e']; cbn [mbind res_bind];
    [|by intros [= ->]].
  subst s. rewrite (left_id_L ∅ (∪)), sorted_list_of_list.
  fold (vocabulary_spec os roots).
  destruct (vocabulary_spec_facts os roots) as (_ & Hnd & Hmem).
  destruct (scan_roots os rng random_sample _ roots [] g) as [tg|e'] eqn:Hs;
    cbn [mbind res_bind].
  - rewrite run_workers_ok. cbn [mbind res_bind]. unfold enumerate. rewrite length_map.
    pose proof (assemble_ok Image_open_RGB_resize Image_convert_HSV tg.1 [] tg.1 [] []
                  eq_refl) as Ha.
    change (length (@nil task)) with 0%nat in Ha. rewrite Ha. discriminate.
  - intros [= ->]. eapply scan_roots_raise; [|exact Hs].
    intros c Hc. destruct (make_class_to_idx_bound _ c Hnd) as (i & Hi & _);
      [by apply Hmem|]. by exists i.
Qed.

End AssemblerExceptions.

Lemma length_fst_snd {A B : Type} (l : list (A * B)) : length l.*1 = length l.*2.
Proof. by rewrite !length_fmap. Qed.

Lemma zip_fst_snd_id {A B : Type} (l : list (A * B)) : zip l.*1 l.*2 = l.
Proof.
  induction l as [|[a b] l IH]; [reflexivity|].
  cbn. by rewrite IH.
Qed.

Lemma surviving_labels (worker : string -> res (option (list R))) (tasks : list task)
    (n : nat) :
  Forall (fun t : task => (t.2 < n)%nat) tasks ->
  Forall (fun label => (label < n)%nat) (surviving_samples worker tasks).*2.
Proof.
  induction 1 as [|t tasks Ht _ IH]; [constructor|].
  unfold surviving_samples. cbn [omap list_omap].
  destruct (survivor (worker t.1)); cbn; [constructor|]; assumption.
Qed.

(** C6: the assembler returns feature and label sequences of equal length,
    every label indexes the vocabulary, and the two sequences are the
    tasks whose extraction succeeded, paired and in task order (a failed
    task contributes to neither sequence). *)
Theorem assembled_dataset_invariant (os : OS)
    (open : string -> Z -> res ndarray3) (conv : ndarray3 -> res ndarray3)
    (rng : Type) (random_sample : rng -> list string -> nat -> list string * rng)
    (roots : list string) (g : rng) :
  listable os roots = true ->
  exists X y names g' tasks,
    prepare_dataset os open conv rng random_sample roots g = Ok (X, y, names, g') /\
    scan_roots os rng random_sample (make_class_to_idx names) roots [] g = Ok (tasks, g') /\
    length X = length y /\
    Forall (fun label => (label < length names)%nat) y /\
    zip X y = surviving_samples (extract_features_worker open conv) tasks.
Proof.
  intros Hl.
  destruct (prepare_dataset_ok os open conv rng random_sample roots g Hl)
    as (tasks & g' & Hscan & Hlab & Hprep).
  eexists _, _, _, g', tasks. split; [exact Hprep|].
  split; [exact Hscan|]. split; [apply length_fst_snd|].
  split; [by apply surviving_labels|apply zip_fst_snd_id].
Qed.

Lemma assembled_dataset_invariant_witness :
  exists X y names g' tasks,
    prepare_dataset demo_os demo_open hsv_green nat first_k_sample
      ["dataset"; "missing"]%string 0%nat = Ok (X, y, names, g') /\
    scan_roots demo_os nat first_k_sample (make_class_to_idx names)
      ["dataset"; "missing"]%string [] 0%nat = Ok (tasks, g') /\
    length X = length y /\
    Forall (fun label => (label < length names)%nat) y /\
    zip X y = surviving_samples (extract_features_worker demo_open hsv_green) tasks.
Proof.
  apply (assembled_dataset_invariant demo_os demo_open hsv_green nat first_k_sample).
  vm_compute. reflexivity.
Defined.

Lemma omap_ext_pointwise {A B : Type} (f g : A -> option B) (l : list A) :
  (forall x, f x = g x) -> omap f l = omap g l.
Proof.
  intros H. induction l as [|x l IH]; [reflexivity|].
  cbn [omap list_omap]. fold (omap f l). fold (omap g l). by rewrite H, IH.
Qed.

Lemma survivor_worker open conv (p : string) :
  survivor (extract_features_worker open conv p) =
  match extract_features_body open conv p with
  | Ok v => Some v
  | Raise _ => None
  end.
Proof.
  unfold extract_features_worker, try_except_None.
  by destruct (extract_features_body open conv p).
Qed.

(** C9: a failure inside extraction never leaves the worker as an
    exception: the worker returns the marker None exactly when its body
    raised.  No exception that leaves the assembler comes from extraction
    (only a directory listing can raise), and on a layout that can be
    listed the assembler returns normally, whichever extractions failed,
    with exactly the tasks whose body did not raise. *)
Theorem extraction_failures_contained (os : OS)
    (open : string -> Z -> res ndarray3) (conv : ndarray3 -> res ndarray3)
    (rng : Type) (random_sample : rng -> list string -> nat -> list string * rng)
    (roots : list string) (g : rng) :
  listable os roots = true ->
  (forall p, (exists e, extract_features_body open conv p = Raise e) <->
             extract_features_worker open conv p = Ok None) /\
  (forall p, exists r, extract_features_worker open conv p = Ok r) /\
  (forall roots0 g0 e,
     prepare_dataset os open conv rng random_sample roots0 g0 = Raise e ->
     exists p, os_listdir os p = Raise e) /\
  exists X y names g' tasks,
    prepare_dataset os open conv rng random_sample roots g = Ok (X, y, names, g') /\
    scan_roots os rng random_sample (make_class_to_idx names) roots [] g = Ok (tasks, g') /\
    zip X y =
      omap (fun t : task =>
              match extract_features_body open conv t.1 with
              | Ok v => Some (v, t.2)
              | Raise _ => None
              end) tasks.
Proof.
  intros Hl. split; [|split; [|split]].
  - intros p. unfold extract_features_worker, try_except_None.
    destruct (extract_features_body open conv p) as [v|e]; split.
    + intros [e He]. discriminate.
    + discriminate.
    + reflexivity.
    + intros _. by exists e.
  - intros p. apply worker_never_raises.
  - intros roots0 g0 e. apply prepare_dataset_raise.
  - destruct (prepare_dataset_ok os open conv rng random_sample roots g Hl)
      as (tasks & g' & Hscan & _ & Hprep).
    eexists _, _, _, g', tasks. split; [exact Hprep|]. split; [exact Hscan|].
    rewrite zip_fst_snd_id. unfold surviving_samples.
    apply omap_ext_pointwise. intros t.
    rewrite survivor_worker. by destruct (extract_features_body open conv t.1).
Qed.

Lemma extraction_failures_contained_witness :
  (forall p, (exists e, extract_features_body demo_open hsv_green p = Raise e) <->
             extract_features_worker demo_open hsv_green p = Ok None) /\
  (forall p, exists r, extract_features_worker demo_open hsv_green p = Ok r) /\
  (forall roots0 g0 e,
     prepare_dataset demo_os demo_open hsv_green nat first_k_sample roots0 g0 = Raise e ->
     exists p, os_listdir demo_os p = Raise e) /\
  exists X y names g' tasks,
    prepare_dataset demo_os demo_open hsv_green nat first_k_sample
      ["dataset"; "missing"]%string 0%nat = Ok (X, y, names, g') /\
    scan_roots demo_os nat first_k_sample (make_class_to_idx names)
      ["dataset"; "missing"]%string [] 0%nat = Ok (tasks, g') /\
    zip X y =
      omap (fun t : task =>
              match extract_features_body demo_open hsv_green t.1 with
              | Ok v => Some (v, t.2)
              | Raise _ => None
              end) tasks.
Proof.
  apply (extraction_failures_contained demo_os demo_open hsv_green nat first_k_sample).
  vm_compute. reflexivity.
Defined.

(** ** Independence of the vocabulary from scan order *)

Lemma subdir_names_equiv (os os' : OS) (r c : string) :
  same_up_to_listing_order os os' ->
  c ∈ subdir_names os r <-> c ∈ subdir_names os' r.
Proof.
  intros (_ & Hdir & Hjoin & Hlist). unfold subdir_names.
  specialize (Hlist r).
  destruct (os_listdir os r) as [l|e], (os_listdir os' r) as [l'|e']; try done.
  rewrite !list_elem_of_In, !filter_In, <- !list_elem_of_In.
  by rewrite Hlist, Hdir, Hjoin.
Qed.

Lemma all_subdirs_equiv (os os' : OS) (roots roots' : list string) (c : string) :
  same_up_to_listing_order os os' -> roots ≡ₚ roots' ->
  c ∈ all_subdirs os roots <-> c ∈ all_subdirs os' roots'.
Proof.
  intros Hos Hperm. rewrite !elem_of_all_subdirs.
  pose proof Hos as (Hex & _).
  split; intros (r & Hr & He & Hc); exists r.
  - rewrite <- Hperm, <- Hex. by rewrite <- (subdir_names_equiv os os' r c Hos).
  - rewrite Hperm, Hex. by rewrite (subdir_names_equiv os os' r c Hos).
Qed.

Lemma vocabulary_spec_invariant (os os' : OS) (roots roots' : list string) :
  same_up_to_listing_order os os' -> roots ≡ₚ roots' ->
  vocabulary_spec os roots = vocabulary_spec os' roots'.
Proof.
  intros Hos Hperm.
  destruct (vocabulary_spec_facts os roots) as (Hs & Hnd & Hmem).
  destruct (vocabulary_spec_facts os' roots') as (Hs' & Hnd' & Hmem').
  apply (Sorted_unique String.le); [exact Hs|exact Hs'|].
  apply NoDup_Permutation; [exact Hnd|exact Hnd'|].
  intros c. by rewrite Hmem, Hmem', (all_subdirs_equiv os os' roots roots' c Hos Hperm).
Qed.

Lemma listable_equiv (os os' : OS) (roots roots' : list string) :
  same_up_to_listing_order os os' -> roots ≡ₚ roots' ->
  listable os roots = true -> listable os' roots' = true.
Proof.
  intros (Hex & Hdir & Hjoin & Hlist) Hperm. rewrite !listable_spec.
  intros H r Hr Hexr. rewrite <- Hperm in Hr. rewrite <- Hex in Hexr.
  destruct (H r Hr Hexr) as (names & Hn & Hsub).
  pose proof (Hlist r) as Hlr. rewrite Hn in Hlr.
  destruct (os_listdir os' r) as [names'|e'] eqn:Hn'; [|done].
  exists names'. split; [reflexivity|]. intros d Hd Hdd.
  rewrite <- Hlr in Hd. rewrite <- Hjoin, <- Hdir in Hdd.
  destruct (Hsub d Hd Hdd) as (files & Hf).
  pose proof (Hlist (os_path_join os r d)) as Hld. rewrite Hf, Hjoin in Hld.
  destruct (os_listdir os' (os_path_join os' r d)) as [files'|]; [|done].
  by eexists.
Qed.

(** C5: the vocabulary the assembler returns is the sorted, deduplicated
    union of the class-subdirectory names of the existing roots; a class
    name's index is its position in it.  Scanning the roots in another
    order, with directory listings in another order, returns the same
    vocabulary and hence the same indices. *)
Theorem vocabulary_sorted_union (os os' : OS)
    (open open' : string -> Z -> res ndarray3) (conv conv' : ndarray3 -> res ndarray3)
    (rng rng' : Type)
    (random_sample : rng -> list string -> nat -> list string * rng)
    (random_sample' : rng' -> list string -> nat -> list string * rng')
    (roots roots' : list string) (g : rng) (g' : rng') :
  listable os roots = true ->
  same_up_to_listing_order os os' ->
  roots ≡ₚ roots' ->
  exists names X y g1 X' y' g1',
    prepare_dataset os open conv rng random_sample roots g = Ok (X, y, names, g1) /\
    prepare_dataset os' open' conv' rng' random_sample' roots' g' =
      Ok (X', y', names, g1') /\
    names = vocabulary_spec os roots /\
    (forall c i, make_class_to_idx names !! c = Some i <-> names !! i = Some c).
Proof.
  intros Hl Hos Hperm.
  pose proof (listable_equiv os os' roots roots' Hos Hperm Hl) as Hl'.
  destruct (prepare_dataset_ok os open conv rng random_sample roots g Hl)
    as (tasks & g1 & _ & _ & Hprep).
  destruct (prepare_dataset_ok os' open' conv' rng' random_sample' roots' g' Hl')
    as (tasks' & g1' & _ & _ & Hprep').
  rewrite <- (vocabulary_spec_invariant os os' roots roots' Hos Hperm) in Hprep'.
  eexists _, _, _, g1, _, _, g1'.
  split; [exact Hprep|]. split; [exact Hprep'|]. split; [reflexivity|].
  intros c i. apply make_class_to_idx_lookup.
  apply (vocabulary_spec_facts os roots).
Qed.

Lemma demo_os_rev_same : same_up_to_listing_order demo_os demo_os_rev.
Proof.
  repeat split. intros p. cbn.
  destruct (demo_listdir p) as [l|e]; cbn; [|reflexivity].
  apply Permutation_rev.
Qed.

Lemma vocabulary_sorted_union_witness :
  exists names X y g1 X' y' g1',
    prepare_dataset demo_os demo_open hsv_green nat first_k_sample
      ["dataset"; "missing"]%string 0%nat = Ok (X, y, names, g1) /\
    prepare_dataset demo_os_rev demo_open hsv_green nat first_k_sample
      ["missing"; "dataset"]%string 7%nat = Ok (X', y', names, g1') /\
    names = vocabulary_spec demo_os ["dataset"; "missing"]%string /\
    (forall c i, make_class_to_idx names !! c = Some i <-> names !! i = Some c).
Proof.
  apply (vocabulary_sorted_union demo_os demo_os_rev).
  - vm_compute. reflexivity.
  - exact demo_os_rev_same.
  - apply perm_swap.
Defined.

(** The vocabulary of the example tree, computed. *)
Lemma demo_vocabulary :
  vocabulary_spec demo_os ["dataset"; "missing"]%string = ["blight"; "healthy"]%string.
Proof. vm_compute. reflexivity. Qed.

(** The example tree assembled: the file that does not decode is left out,
    three samples remain and their labels index the sorted vocabulary. *)
Lemma demo_dataset_labels :
  exists X,
    prepare_dataset demo_os demo_open hsv_green nat first_k_sample
      ["dataset"; "missing"]%string 0%nat =
    Ok (X, [1; 1; 0]%nat, ["blight"; "healthy"]%string, 0%nat) /\ length X = 3%nat.
Proof.
  destruct (prepare_dataset_ok demo_os demo_open hsv_green nat first_k_sample
              ["dataset"; "missing"]%string 0%nat) as (tasks & g' & Hscan & _ & Hprep).
  { vm_compute. reflexivity. }
  rewrite demo_vocabulary in Hscan, Hprep.
  assert (Ht : scan_roots demo_os nat first_k_sample
                 (make_class_to_idx ["blight"; "healthy"]%string)
                 ["dataset"; "missing"]%string [] 0%nat =
               Ok ([("dataset/healthy/h1.jpg", 1); ("dataset/healthy/h2.PNG", 1);
                    ("dataset/blight/corrupt.png", 0); ("dataset/blight/b1.jpeg", 0)]%string,
                   0)%nat) by (vm_compute; reflexivity).
  rewrite Ht in Hscan. injection Hscan as <- <-.
  eexists. split; [exact Hprep|]. reflexivity.
Qed.

(** ** Per-class sampling cap *)



Lemma first_k_sample_contract : sample_contract first_k_sample.
Proof.
  intros g population k Hk. unfold first_k_sample. cbn [fst]. split.
  - rewrite length_take. lia.
  - apply sublist_submseteq, sublist_take.
Qed.


(** The crowded directory is over the cap, so the cap branch is the one taken. *)
Lemma crowded_over_cap :
  length (List.filter is_image_file crowded_names) = 1002%nat.
Proof. vm_compute. reflexivity. Qed.

(** ** Empty dataset *)

Section EmptyDataset.

Variable os : OS.
Variable Image_open_RGB_resize : string -> Z -> res ndarray3.
Variable Image_convert_HSV : ndarray3 -> res ndarray3.
Variable rng : Type.
Variable random_sample : rng -> list string -> nat -> list string * rng.
Variable os_makedirs : string -> res unit.
Variables model report matrix : Type.
Variable train_test_split :
  list (list R) -> list nat -> res (list (list R) * list (list R) * list nat * list nat).
Variable ensemble_fit : list (list R) -> list nat -> res model.
Variable ensemble_predict : model -> list (list R) -> res (list nat).
Variable accuracy_score : list nat -> list nat -> res R.
Variable classification_report : list nat -> list nat -> list string -> res report.
Variable confusion_matrix : list nat -> list nat -> res matrix.
Variable save_model : model -> list string -> R -> report -> matrix -> res unit.

Local Abbreviation the_train_model :=
  (train_model model report matrix train_test_split ensemble_fit ensemble_predict
     accuracy_score classification_report confusion_matrix).
Local Abbreviation the_main :=
  (main os Image_open_RGB_resize Image_convert_HSV rng random_sample os_makedirs
     model report matrix train_test_split ensemble_fit ensemble_predict
     accuracy_score classification_report confusion_matrix save_model).

Lemma bind_internal_ok {A B : Type} (a : A) (f : A -> traced B) :
  internal (Ok a) ≫= f = f a.
Proof. unfold internal, mbind, traced_bind. cbn. by destruct (f a). Qed.

Lemma calls_bind {A B : Type} (m : traced A) (f : A -> traced B) :
  calls (m ≫= f) =
  calls m ++ match outcome m with Ok a => calls (f a) | Raise _ => [] end.
Proof.
  unfold mbind, traced_bind. destruct (outcome m); cbn; by rewrite ?app_nil_r.
Qed.

Lemma outcome_bind {A B : Type} (m : traced A) (f : A -> traced B) :
  outcome (m ≫= f) =
  match outcome m with Ok a => outcome (f a) | Raise e => Raise e end.
Proof. unfold mbind, traced_bind. by destruct (outcome m). Qed.

Lemma calls_bind_external {A B : Type} (c : call) (r : res A) (f : A -> traced B) :
  calls (external c r ≫= f) =
  c :: match r with Ok a => calls (f a) | Raise _ => [] end.
Proof. unfold external, mbind, traced_bind. by destruct r. Qed.

Lemma train_model_calls_split (X : list (list R)) (y : list nat) (names : list string) :
  (exists rest, calls (the_train_model X y names) = Call_train_test_split X y :: rest) /\
  (forall e, train_test_split X y = Raise e ->
     the_train_model X y names = Traced [Call_train_test_split X y] (Raise e)) /\
  (forall X_train X_test y_train y_test,
     train_test_split X y = Ok (X_train, X_test, y_train, y_test) ->
     exists rest, calls (the_train_model X y names) =
                  Call_train_test_split X y :: Call_fit X_train y_train :: rest) /\
  (forall X_train y_train, Call_fit X_train y_train ∈ calls (the_train_model X y names) ->
     exists s, train_test_split X y = Ok s).
Proof.
  unfold train_model. split; [|split; [|split]].
  - rewrite calls_bind_external. by eexists.
  - intros e He. rewrite He. reflexivity.
  - intros X_train X_test y_train y_test Hs.
    rewrite calls_bind_external, Hs, calls_bind_external. by eexists.
  - intros X_train y_train Hin. rewrite calls_bind_external in Hin.
    destruct (train_test_split X y) as [s|e]; [by eexists|].
    apply list_elem_of_singleton in Hin. discriminate Hin.
Qed.

Lemma main_calls (g : rng) (X : list (list R)) (y : list nat) (names : list string)
    (g' : rng) :
  os_makedirs OUTPUT_DIR = Ok tt ->
  prepare_dataset os Image_open_RGB_resize Image_convert_HSV rng random_sample
    (default_dataset_paths os) g = Ok (X, y, names, g') ->
  calls (the_main g) =
    calls (the_train_model X y names) ++
    match outcome (the_train_model X y names) with
    | Ok _ => [Call_save_model names]
    | Raise _ => []
    end /\
  (forall e, outcome (the_train_model X y names) = Raise e -> outcome (the_main g) = Raise e).
Proof.
  intros Hd Hp. unfold main, trainer_init. rewrite Hd, Hp.
  rewrite !bind_internal_ok, calls_bind, outcome_bind.
  destruct (outcome (the_train_model X y names)) as [[[[[[m a] rp] cm] Xt] yt]|e].
  - split; [reflexivity|]. discriminate.
  - split; [reflexivity|]. by intros e' [= <-].
Qed.

Lemma traced_eta {A : Type} (t : traced A) : t = Traced (calls t) (outcome t).
Proof. by destruct t. Qed.

(** When no root exists the assembler returns, without raising, an empty
    dataset and an empty vocabulary. *)
Lemma missing_roots_empty (roots : list string) (g : rng) :
  Forall (fun r => os_path_exists os r = false) roots ->
  prepare_dataset os Image_open_RGB_resize Image_convert_HSV rng random_sample roots g =
  Ok ([], [], [], g).
Proof.
  intros Hm.
  assert (Hc : forall acc, collect_classes os roots acc = Ok acc).
  { induction Hm as [|r roots Hr _ IH]; intros acc; [reflexivity|].
    cbn [collect_classes]. rewrite Hr. apply IH. }
  assert (Hs : forall c2i acc, scan_roots os rng random_sample c2i roots acc g = Ok (acc, g)).
  { clear Hc. induction Hm as [|r roots Hr _ IH]; intros c2i acc; [reflexivity|].
    cbn [scan_roots]. rewrite Hr. apply IH. }
  unfold prepare_dataset. rewrite Hc. cbn [mbind res_bind].
  rewrite Hs. cbn [mbind res_bind fst snd run_workers mret res_ret].
  unfold sorted_list. rewrite elements_empty. reflexivity.
Qed.

(** C2 (as amended): an empty dataset is not intercepted.  Once the trainer
    is constructed (its output directory created), [main] hands the empty
    arrays to [train_model], whose first external call is [train_test_split]
    on them.  When that call raises, its exception is the outcome of the
    run and nothing else has been called; when it returns, [fit] is called
    next on the training part it returned: the run stops before [fit] if
    and only if the split raises. *)
Theorem empty_dataset_reaches_split (g : rng) (names : list string) (g' : rng) :
  os_makedirs OUTPUT_DIR = Ok tt ->
  prepare_dataset os Image_open_RGB_resize Image_convert_HSV rng random_sample
    (default_dataset_paths os) g = Ok ([], [], names, g') ->
  (exists rest, calls (the_main g) = Call_train_test_split [] [] :: rest) /\
  (forall e, train_test_split [] [] = Raise e ->
     the_main g = Traced [Call_train_test_split [] []] (Raise e)) /\
  (forall X_train X_test y_train y_test,
     train_test_split [] [] = Ok (X_train, X_test, y_train, y_test) ->
     exists rest, calls (the_main g) =
                  Call_train_test_split [] [] :: Call_fit X_train y_train :: rest) /\
  (forall X_train y_train, Call_fit X_train y_train ∈ calls (the_main g) ->
     exists s, train_test_split [] [] = Ok s).
Proof.
  intros Hd Hp. destruct (main_calls g [] [] names g' Hd Hp) as [Hcalls Hout].
  destruct (train_model_calls_split [] [] names)
    as ((rest & Hfirst) & Hraise & Hret & Hfit).
  split; [|split; [|split]].
  - rewrite Hcalls, Hfirst. by eexists.
  - intros e He. specialize (Hraise e He).
    rewrite (traced_eta (the_main g)), Hcalls, (Hout e) by (by rewrite Hraise).
    rewrite Hraise. reflexivity.
  - intros X_train X_test y_train y_test Hs.
    destruct (Hret X_train X_test y_train y_test Hs) as [rest' Hr].
    rewrite Hcalls, Hr. by eexists.
  - intros X_train y_train Hin. rewrite Hcalls in Hin.
    apply elem_of_app in Hin as [Hin|Hin]; [by eapply Hfit|].
    destruct (outcome (the_train_model [] [] names)).
    + apply list_elem_of_singleton in Hin. discriminate Hin.
    + by apply elem_of_nil in Hin.
Qed.

End EmptyDataset.

Lemma empty_dataset_reaches_split_witness :
  (exists rest, calls (demo_main bare_os) = Call_train_test_split [] [] :: rest) /\
  (forall e, split_rejecting_empty [] [] = Raise e ->
     demo_main bare_os = Traced [Call_train_test_split [] []] (Raise e)) /\
  (forall X_train X_test y_train y_test,
     split_rejecting_empty [] [] = Ok (X_train, X_test, y_train, y_test) ->
     exists rest, calls (demo_main bare_os) =
                  Call_train_test_split [] [] :: Call_fit X_train y_train :: rest) /\
  (forall X_train y_train, Call_fit X_train y_train ∈ calls (demo_main bare_os) ->
     exists s, split_rejecting_empty [] [] = Ok s).
Proof.
  unfold demo_main. eapply empty_dataset_reaches_split with (names := []).
  - reflexivity.
  - apply missing_roots_empty. by repeat constructor.
Defined.

(** C2, counterexample: with the output directory in place and no dataset
    root on disk, the assembler returns empty arrays without raising,
    [main] passes them to [train_test_split], and the run ends with the
    ValueError that call raises. *)
Lemma empty_arrays_passed_to_split :
  prepare_dataset bare_os open_green hsv_green nat first_k_sample
    (default_dataset_paths bare_os) 0%nat = Ok ([], [], [], 0%nat) /\
  Call_train_test_split [] [] ∈ calls (demo_main bare_os) /\
  demo_main bare_os = Traced [Call_train_test_split [] []] (Raise ValueError).
Proof.
  assert (Hp : prepare_dataset bare_os open_green hsv_green nat first_k_sample
                 (default_dataset_paths bare_os) 0%nat = Ok ([], [], [], 0%nat)).
  { apply missing_roots_empty. by repeat constructor. }
  assert (Hm : demo_main bare_os = Traced [Call_train_test_split [] []] (Raise ValueError)).
  { unfold demo_main, main, trainer_init. rewrite Hp. rewrite !bind_internal_ok.
    reflexivity. }
  split; [exact Hp|]. rewrite Hm. split; [|reflexivity].
  by apply list_elem_of_singleton.
Qed.

(** * Further properties of the feature extractor *)

(** ** Colour histograms *)

Lemma bin_of_uint8 (v : Z) :
  (0 <= v <= 255)%Z -> bin_of 64 0 256 v = Some (Z.to_nat (v / 4)).
Proof.
  intros Hv. unfold bin_of.
  destruct (v <? 0)%Z eqn:E1; [lia|]. destruct (256 <? v)%Z eqn:E2; [lia|].
  cbn [orb]. destruct (v =? 256)%Z eqn:E3; [lia|].
  do 2 f_equal. change (Z.of_nat 64) with 64%Z. rewrite !Z.sub_0_r.
  change 256%Z with (64 * 4)%Z. rewrite Z.div_mul_cancel_l by lia. reflexivity.
Qed.

Lemma bin_of_uint8_in_bin (b : nat) (v : Z) :
  (0 <= v <= 255)%Z ->
  bool_decide (bin_of 64 0 256 v = Some b) = in_bin b v.
Proof.
  intros Hv. rewrite (bin_of_uint8 v Hv). unfold in_bin.
  pose proof (Z.div_mod v 4 ltac:(lia)) as Hd.
  pose proof (Z.mod_pos_bound v 4 ltac:(lia)) as Hm.
  destruct (bool_decide (Some (Z.to_nat (v / 4)) = Some b)) eqn:E.
  - apply bool_decide_eq_true in E. injection E as E. symmetry.
    apply andb_true_intro. split; [apply Z.leb_le|apply Z.ltb_lt]; lia.
  - apply bool_decide_eq_false in E. symmetry. apply andb_false_iff.
    destruct (4 * Z.of_nat b <=? v)%Z eqn:E1; [right|by left].
    apply Z.ltb_ge. apply Z.leb_le in E1.
    destruct (Z_lt_le_dec v (4 * Z.of_nat b + 4)) as [Hlt|Hge]; [|exact Hge].
    exfalso. apply E. f_equal.
    lia.
Qed.

Lemma count_ext_Forall {A : Type} (P : A -> Prop) (f g : A -> bool) (l : list A) :
  (forall x, P x -> f x = g x) -> Forall P l -> count f l = count g l.
Proof.
  intros Hfg Hl. unfold count. f_equal. f_equal.
  induction Hl as [|x l Hx _ IH]; [reflexivity|].
  cbn [List.filter]. by rewrite (Hfg x Hx), IH.
Qed.

Lemma nth_map_seq {T : Type} (f : nat -> T) (n b : nat) (d : T) :
  (b < n)%nat -> nth b (map f (seq 0 n)) d = f b.
Proof.
  intros Hb. rewrite (nth_indep _ d (f 0%nat)) by (by rewrite length_map, length_seq).
  rewrite map_nth. by rewrite seq_nth.
Qed.

Lemma channel_values_uint8 (c : nat) (img : ndarray3) :
  valid_image img = true ->
  Forall (fun v => (0 <= v <= 255)%Z) (ravel2 (channel c img)).
Proof.
  intros H. rewrite ravel2_channel. apply Forall_forall. intros v Hv.
  apply list_elem_of_In, in_map_iff in Hv as (px & <- & Hpx).
  pose proof (valid_image_pixel_list img H) as Hall.
  rewrite Forall_forall in Hall. apply list_elem_of_In in Hpx.
  destruct (Hall px Hpx) as [_ Hvals].
  destruct (nth_in_or_default c px 0%Z) as [Hin| ->]; [|lia].
  rewrite Forall_forall in Hvals. apply Hvals. by apply list_elem_of_In.
Qed.

Lemma length_channel_values (c : nat) (img : ndarray3) :
  valid_image img = true -> length (ravel2 (channel c img)) = (128 * 128)%nat.
Proof.
  intros H. by rewrite ravel2_channel, length_map, (valid_image_pixels img H).
Qed.

(** X1: bin [b] of a normalised channel histogram is the fraction of the
    16384 pixels whose channel value lies in [4b, 4b+3]. *)
Theorem histogram_bin_fraction (img : ndarray3) (c b : nat) :
  valid_image img = true ->
  (b < 64)%nat ->
  nth b (hist_norm c img) 0%R =
  (IZR (count (in_bin b) (ravel2 (channel c img))) / 16384)%R.
Proof.
  intros H Hb. unfold hist_norm, np_histogram.
  rewrite map_map, (nth_map_seq _ 64 b 0%R Hb), IZR_pixels. do 2 f_equal.
  apply (count_ext_Forall (fun v => (0 <= v <= 255)%Z)).
  - intros v Hv. by apply bin_of_uint8_in_bin.
  - by apply channel_values_uint8.
Qed.

Lemma histogram_bin_fraction_witness :
  nth 63 (hist_norm 1 green_image) 0%R =
  (IZR (count (in_bin 63) (ravel2 (channel 1 green_image))) / 16384)%R.
Proof.
  apply histogram_bin_fraction; [vm_compute; reflexivity|lia].
Defined.

Lemma sumZ_map_add {A : Type} (f g : A -> Z) (l : list A) :
  sumZ (map (fun x => (f x + g x)%Z) l) = (sumZ (map f l) + sumZ (map g l))%Z.
Proof.
  induction l as [|x l IH]; [reflexivity|].
  cbn [map sumZ fold_right]. fold (sumZ (map (fun x => (f x + g x)%Z) l)).
  fold (sumZ (map f l)). fold (sumZ (map g l)). lia.
Qed.

Lemma sumZ_indicator (k n : nat) :
  sumZ (map (fun b => if bool_decide (Some k = Some b) then 1%Z else 0%Z) (seq 0 n)) =
  if (k <? n)%nat then 1%Z else 0%Z.
Proof.
  induction n as [|n IH]; [reflexivity|].
  rewrite seq_S, map_app, sumZ_app, IH. cbn [Nat.add map sumZ fold_right].
  destruct (bool_decide (Some k = Some n)) eqn:E.
  - apply bool_decide_eq_true in E. injection E as ->.
    rewrite Nat.ltb_irrefl. by rewrite (proj2 (Nat.ltb_lt n (S n))) by lia.
  - apply bool_decide_eq_false in E.
    assert (k <> n) by congruence.
    destruct (k <? n)%nat eqn:E1.
    + apply Nat.ltb_lt in E1. by rewrite (proj2 (Nat.ltb_lt k (S n))) by lia.
    + apply Nat.ltb_ge in E1. by rewrite (proj2 (Nat.ltb_ge k (S n))) by lia.
Qed.

Lemma sumZ_zeros {A : Type} (s : list A) : sumZ (map (fun _ => 0%Z) s) = 0%Z.
Proof. induction s as [|x s IH]; [reflexivity|]. cbn. exact IH. Qed.

(** Every counted value falls in exactly one bin. *)
Lemma sumZ_np_histogram (l : list Z) (bins : nat) (lo hi : Z) :
  Forall (fun v => exists k, bin_of bins lo hi v = Some k /\ (k < bins)%nat) l ->
  sumZ (np_histogram l bins lo hi) = Z.of_nat (length l).
Proof.
  unfold np_histogram. induction 1 as [|v l (k & Hk & Hlt) _ IH]; cbn [length].
  - unfold count. cbn [List.filter length]. apply sumZ_zeros.
  - erewrite map_ext.
    2:{ intros b. unfold count. cbn [List.filter].
        instantiate (1 := fun b =>
          ((if bool_decide (Some k = Some b) then 1 else 0) +
           count (fun v => bool_decide (bin_of bins lo hi v = Some b)) l)%Z).
        cbn beta. rewrite Hk. unfold count.
        destruct (bool_decide (Some k = Some b)); cbn [length]; lia. }
    rewrite sumZ_map_add, IH, sumZ_indicator.
    rewrite (proj2 (Nat.ltb_lt k bins)) by exact Hlt. lia.
Qed.

Lemma np_sum_map_div (l : list Z) (c : R) :
  np_sum (map (fun n => (IZR n / c)%R) l) = (IZR (sumZ l) / c)%R.
Proof.
  induction l as [|x l IH].
  - cbn. unfold Rdiv. by rewrite Rmult_0_l.
  - cbn [map np_sum fold_right sumZ]. fold (np_sum (map (fun n => (IZR n / c)%R) l)).
    fold (sumZ l). rewrite IH, plus_IZR. unfold Rdiv. ring.
Qed.

(** X2: each of the three normalised histograms of a valid image sums to
    exactly 1 (every pixel falls in one bin) and each bin lies in [0,1]. *)
Theorem histogram_sums_to_one (img : ndarray3) (c : nat) :
  valid_image img = true ->
  np_sum (hist_norm c img) = 1%R /\
  Forall (fun x => (0 <= x <= 1)%R) (hist_norm c img).
Proof.
  intros H. split.
  - unfold hist_norm. rewrite np_sum_map_div, sumZ_np_histogram.
    + rewrite (length_channel_values c img H), IZR_pixels.
      change (Z.of_nat (128 * 128)) with 16384%Z. lra.
    + eapply Forall_impl; [exact (channel_values_uint8 c img H)|].
      intros v Hv. exists (Z.to_nat (v / 4)). split; [by apply bin_of_uint8|].
      cbn beta in Hv.
      assert (v / 4 < 64)%Z by (apply Z.div_lt_upper_bound; lia).
      assert (0 <= v / 4)%Z by (apply Z.div_pos; lia). lia.
  - unfold hist_norm, np_histogram. rewrite map_map. apply Forall_forall.
    intros x Hx. apply list_elem_of_In, in_map_iff in Hx as (b & <- & _).
    apply ratio_of_count.
    pose proof (count_le_length
      (fun v => bool_decide (bin_of 64 0 256 v = Some b)) (ravel2 (channel c img))) as Hc.
    rewrite (length_channel_values c img H) in Hc.
    change (Z.of_nat (128 * 128)) with 16384%Z in Hc. exact Hc.
Qed.

Lemma histogram_sums_to_one_witness :
  np_sum (hist_norm 0 green_image) = 1%R /\
  Forall (fun x => (0 <= x <= 1)%R) (hist_norm 0 green_image).
Proof.
  apply histogram_sums_to_one. vm_compute. reflexivity.
Defined.

(** ** Per-channel statistics *)

Lemma fold_left_min_spec (t : list Z) (a : Z) :
  (fold_left Z.min t a <= a)%Z /\
  Forall (fun x => (fold_left Z.min t a <= x)%Z) t /\
  In (fold_left Z.min t a) (a :: t).
Proof.
  revert a. induction t as [|x t IH]; intros a.
  - cbn. split; [lia|]. split; [constructor|by left].
  - cbn [fold_left]. destruct (IH (Z.min a x)) as (H1 & H2 & H3).
    split; [lia|]. split.
    + constructor; [lia|exact H2].
    + destruct H3 as [H3|H3]; [|by right; right].
      destruct (Z.min_spec a x) as [[_ E]|[_ E]]; rewrite E in H3 |- *.
      * by left.
      * right. by left.
Qed.

Lemma fold_left_max_spec (t : list Z) (a : Z) :
  (a <= fold_left Z.max t a)%Z /\
  Forall (fun x => (x <= fold_left Z.max t a)%Z) t /\
  In (fold_left Z.max t a) (a :: t).
Proof.
  revert a. induction t as [|x t IH]; intros a.
  - cbn. split; [lia|]. split; [constructor|by left].
  - cbn [fold_left]. destruct (IH (Z.max a x)) as (H1 & H2 & H3).
    split; [lia|]. split.
    + constructor; [lia|exact H2].
    + destruct H3 as [H3|H3]; [|by right; right].
      destruct (Z.max_spec a x) as [[_ E]|[_ E]]; rewrite E in H3 |- *.
      * right. by left.
      * by left.
Qed.

Lemma np_min_spec (l : list Z) :
  l <> [] -> In (np_min l) l /\ Forall (fun x => (np_min l <= x)%Z) l.
Proof.
  destruct l as [|a t]; [done|]. intros _. unfold np_min.
  destruct (fold_left_min_spec t a) as (H1 & H2 & H3).
  split; [exact H3|]. by constructor.
Qed.

Lemma np_max_spec (l : list Z) :
  l <> [] -> In (np_max l) l /\ Forall (fun x => (x <= np_max l)%Z) l.
Proof.
  destruct l as [|a t]; [done|]. intros _. unfold np_max.
  destruct (fold_left_max_spec t a) as (H1 & H2 & H3).
  split; [exact H3|]. by constructor.
Qed.

Lemma sumZ_bounds (l : list Z) (a b : Z) :
  Forall (fun x => (a <= x <= b)%Z) l ->
  (a * Z.of_nat (length l) <= sumZ l <= b * Z.of_nat (length l))%Z.
Proof.
  induction 1 as [|x l Hx _ IH]; [cbn; lia|].
  cbn [sumZ fold_right length]. fold (sumZ l). lia.
Qed.

Lemma np_mean_bounds (l : list Z) (a b : Z) :
  l <> [] -> Forall (fun x => (a <= x <= b)%Z) l ->
  (IZR a <= np_mean (as_float l) <= IZR b)%R.
Proof.
  intros Hne Hl. rewrite np_mean_as_float.
  destruct (sumZ_bounds l a b Hl) as [H1 H2].
  assert (Hn : (0 < Z.of_nat (length l))%Z) by (destruct l; [done|cbn [length]; lia]).
  apply IZR_le in H1, H2. apply IZR_lt in Hn.
  rewrite mult_IZR in H1, H2.
  set (n := IZR (Z.of_nat (length l))) in *. set (s := IZR (sumZ l)) in *.
  assert (E : (s / n * n = s)%R) by (field; lra).
  split.
  - apply Rmult_le_reg_r with n; [exact Hn|]. rewrite E. exact H1.
  - apply Rmult_le_reg_r with n; [exact Hn|]. rewrite E. exact H2.
Qed.

Lemma np_median_bounds (l : list Z) (a b : Z) :
  l <> [] -> Forall (fun x => (a <= x <= b)%Z) l ->
  (IZR a <= np_median l <= IZR b)%R.
Proof.
  intros Hne Hl. unfold np_median.
  assert (Hn : (0 < length l)%nat) by (destruct l; [done|cbn [length]; lia]).
  assert (Hs : forall k, (k < length l)%nat ->
            (a <= nth k (merge_sort Z.le l) 0 <= b)%Z).
  { intros k Hk. rewrite Forall_forall in Hl. apply Hl.
    apply list_elem_of_In.
    apply (Permutation_in _ (merge_sort_Permutation Z.le l)), nth_In.
    by rewrite (Permutation_length (merge_sort_Permutation Z.le l)). }
  assert (H2 : (length l / 2 < length l)%nat) by (apply Nat.div_lt; lia).
  destruct (Nat.even (length l)).
  - destruct (Hs (length l / 2 - 1)%nat ltac:(lia)) as [L1 U1].
    destruct (Hs (length l / 2)%nat H2) as [L2 U2].
    apply IZR_le in L1, U1, L2, U2. lra.
  - destruct (Hs (length l / 2)%nat H2) as [L2 U2].
    apply IZR_le in L2, U2. lra.
Qed.

Lemma nth_over_axes01 {T : Type} (f : list Z -> T) (img : ndarray3) (c : nat) (d : T) :
  valid_image img = true -> (c < 3)%nat ->
  nth c (over_axes01 f img) d = f (ravel2 (channel c img)).
Proof.
  intros H Hc. unfold over_axes01. rewrite (valid_image_nchan img H).
  exact (nth_map_seq (fun k => f (ravel2 (channel k img))) 3 c d Hc).
Qed.

Lemma channel_values_nonempty (c : nat) (img : ndarray3) :
  valid_image img = true -> ravel2 (channel c img) <> [].
Proof.
  intros H E. pose proof (length_channel_values c img H) as Hl.
  rewrite E in Hl. discriminate.
Qed.

(** X3: for every channel of a valid image the reported statistics are
    ordered: 0 <= min <= mean <= max <= 255, the median lies between min
    and max, and the standard deviation is non-negative. *)
Theorem channel_statistics_ordered (img : ndarray3) (c : nat) :
  valid_image img = true ->
  (c < 3)%nat ->
  (0 <= nth c (min_of img) 0 <= nth c (mean_of img) 0)%R /\
  (nth c (mean_of img) 0 <= nth c (max_of img) 0 <= 255)%R /\
  (nth c (min_of img) 0 <= nth c (median_of img) 0 <= nth c (max_of img) 0)%R /\
  (0 <= nth c (std_of img) 0)%R.
Proof.
  intros H Hc. unfold min_of, mean_of, max_of, median_of, std_of.
  rewrite !(nth_over_axes01 _ img c 0%R H Hc).
  set (l := ravel2 (channel c img)).
  pose proof (channel_values_uint8 c img H) as Hu. fold l in Hu.
  pose proof (channel_values_nonempty c img H) as Hne. fold l in Hne.
  destruct (np_min_spec l Hne) as [Hmin_in Hmin].
  destruct (np_max_spec l Hne) as [Hmax_in Hmax].
  assert (Hb : Forall (fun x => (np_min l <= x <= np_max l)%Z) l).
  { rewrite Forall_forall in Hmin, Hmax. apply Forall_forall. intros x Hx.
    split; [by apply Hmin|by apply Hmax]. }
  rewrite Forall_forall in Hu.
  destruct (Hu (np_min l) ltac:(by apply list_elem_of_In)) as [Hmin0 _].
  destruct (Hu (np_max l) ltac:(by apply list_elem_of_In)) as [_ Hmax255].
  destruct (np_mean_bounds l _ _ Hne Hb) as [M1 M2].
  destruct (np_median_bounds l _ _ Hne Hb) as [D1 D2].
  apply IZR_le in Hmin0, Hmax255.
  repeat split; try assumption. apply sqrt_pos.
Qed.

Lemma channel_statistics_ordered_witness :
  (0 <= nth 1 (min_of green_image) 0 <= nth 1 (mean_of green_image) 0)%R /\
  (nth 1 (mean_of green_image) 0 <= nth 1 (max_of green_image) 0 <= 255)%R /\
  (nth 1 (min_of green_image) 0 <= nth 1 (median_of green_image) 0 <=
     nth 1 (max_of green_image) 0)%R /\
  (0 <= nth 1 (std_of green_image) 0)%R.
Proof.
  apply channel_statistics_ordered; [vm_compute; reflexivity|lia].
Defined.

(** ** The whole vector *)

Lemma over_axes01_Forall {T : Type} (P : T -> Prop) (f : list Z -> T) (a : ndarray3) :
  (forall k, P (f (ravel2 (channel k a)))) -> Forall P (over_axes01 f a).
Proof.
  intros H. unfold over_axes01. apply Forall_forall. intros x Hx.
  apply list_elem_of_In, in_map_iff in Hx as (k & <- & _). apply H.
Qed.

Lemma np_sum_nonneg (l : list R) : Forall (fun x => (0 <= x)%R) l -> (0 <= np_sum l)%R.
Proof.
  induction 1 as [|x l Hx _ IH]; [cbn; lra|].
  cbn [np_sum fold_right]. fold (np_sum l). lra.
Qed.

Lemma np_mean_nonneg (l : list R) : Forall (fun x => (0 <= x)%R) l -> (0 <= np_mean l)%R.
Proof.
  intros H. unfold np_mean. pose proof (np_sum_nonneg l H) as Hs.
  destruct l as [|x l].
  - cbn. unfold Rdiv. rewrite Rmult_0_l. lra.
  - assert (Hn : (0 < INR (length (x :: l)))%R) by (apply lt_0_INR; cbn [length]; lia).
    apply Rmult_le_reg_r with (INR (length (x :: l))); [exact Hn|].
    unfold Rdiv. rewrite Rmult_assoc, Rinv_l by lra. lra.
Qed.

Lemma valid_stats_nonneg (a : ndarray3) :
  valid_image a = true ->
  Forall (fun x => (0 <= x)%R)
    (mean_of a ++ std_of a ++ median_of a ++ min_of a ++ max_of a).
Proof.
  intros H.
  assert (Hb : forall k, ravel2 (channel k a) <> [] /\
             Forall (fun x => (0 <= x <= 255)%Z) (ravel2 (channel k a))).
  { intros k. split; [by apply channel_values_nonempty|by apply channel_values_uint8]. }
  rewrite !Forall_app. repeat split; apply over_axes01_Forall; intros k;
    destruct (Hb k) as [Hne Hu].
  - by destruct (np_mean_bounds _ 0 255 Hne Hu).
  - apply sqrt_pos.
  - by destruct (np_median_bounds _ 0 255 Hne Hu).
  - destruct (np_min_spec _ Hne) as [Hin _]. rewrite Forall_forall in Hu.
    apply IZR_le. apply (Hu (np_min (ravel2 (channel k a)))). by apply list_elem_of_In.
  - destruct (np_max_spec _ Hne) as [Hin _]. rewrite Forall_forall in Hu.
    apply IZR_le. apply (Hu (np_max (ravel2 (channel k a)))). by apply list_elem_of_In.
Qed.

Lemma hist_norm_nonneg (c : nat) (img : ndarray3) :
  Forall (fun x => (0 <= x)%R) (hist_norm c img).
Proof.
  unfold hist_norm, np_histogram. rewrite map_map. apply Forall_forall.
  intros x Hx. apply list_elem_of_In, in_map_iff in Hx as (b & <- & _).
  rewrite IZR_pixels.
  pose proof (count_le_length
    (fun v => bool_decide (bin_of 64 0 256 v = Some b)) (ravel2 (channel c img))) as [Hc _].
  apply IZR_le in Hc. lra.
Qed.

Lemma green_ratio_nonneg (img : ndarray3) :
  valid_image img = true -> (0 <= green_ratio img)%R.
Proof.
  intros H. rewrite (green_ratio_sums img H).
  destruct (green_sums_bounds img H) as [H0 H1].
  apply IZR_le in H0, H1.
  set (x := IZR (sumZ (ravel2 (channel 1 img)))) in *.
  set (y := IZR (sumZ (ravel3 img))) in *.
  set (D := (y / 49152 + 1e-6)%R).
  assert (HD : (0 < D)%R) by (unfold D; lra).
  assert (E : (x / 16384 / D * D = x / 16384)%R) by (field; lra).
  apply Rmult_le_reg_r with D; [exact HD|]. rewrite E. lra.
Qed.

(** X4: every one of the 219 entries of the feature vector of a valid image
    (with a valid HSV form) is non-negative. *)
Theorem features_nonnegative (img hsv : ndarray3) :
  valid_image img = true ->
  valid_image hsv = true ->
  Forall (fun x => (0 <= x)%R) (features_of img hsv).
Proof.
  intros Hi Hh. unfold features_of, feature_groups. cbn [concat].
  pose proof (valid_stats_nonneg img Hi) as Hs. rewrite !Forall_app in Hs.
  destruct Hs as (S1 & S2 & S3 & S4 & S5).
  pose proof (valid_stats_nonneg hsv Hh) as Hs. rewrite !Forall_app in Hs.
  destruct Hs as (T1 & T2 & _).
  rewrite !Forall_app, !Forall_cons, !Forall_nil.
  repeat split; try assumption; try apply hist_norm_nonneg; try apply sqrt_pos.
  - unfold edge_mean. apply np_mean_nonneg, Forall_forall. intros x Hx.
    apply list_elem_of_In, in_map_iff in Hx as (e & <- & _). apply Rabs_pos.
  - by apply green_ratio_nonneg.
  - unfold brown_ratio. rewrite brown_mask_px, sum_mask_map.
    by destruct (ratio_of_count _ (count_pixels_bound brown_px img Hi)).
  - unfold yellow_ratio. rewrite yellow_mask_px, sum_mask_map.
    by destruct (ratio_of_count _ (count_pixels_bound yellow_px img Hi)).
Qed.

Lemma features_nonnegative_witness :
  Forall (fun x => (0 <= x)%R) (features_of green_image green_hsv).
Proof.
  apply features_nonnegative; vm_compute; reflexivity.
Defined.

Lemma length_features_of (img hsv : ndarray3) :
  nchan img = 3%nat -> nchan hsv = 3%nat -> length (features_of img hsv) = 219%nat.
Proof.
  intros Ci Ch. unfold features_of, feature_groups. cbn [concat].
  unfold mean_of, std_of, median_of, min_of, max_of.
  rewrite !length_app, !length_hist_norm, !length_over_axes01, Ci, Ch. reflexivity.
Qed.

(** ** A solid-colour image *)

Lemma firstn_repeat_le {A : Type} (x : A) (k n : nat) :
  (k <= n)%nat -> firstn k (repeat x n) = repeat x k.
Proof.
  revert n. induction k as [|k IH]; intros n Hk; [reflexivity|].
  destruct n as [|n]; [lia|]. cbn [repeat firstn]. rewrite IH by lia. reflexivity.
Qed.

Lemma skipn_repeat_le {A : Type} (x : A) (k n : nat) :
  (k <= n)%nat -> skipn k (repeat x n) = repeat x (n - k).
Proof.
  revert n. induction k as [|k IH]; intros n Hk.
  - by rewrite Nat.sub_0_r.
  - destruct n as [|n]; [lia|]. cbn [repeat skipn]. rewrite IH by lia. reflexivity.
Qed.

Lemma Forall_concat_repeat2 {A : Type} (x : A) (n m : nat) :
  Forall (fun y => y = x) (concat (repeat (repeat x n) m)).
Proof.
  apply Forall_concat, Forall_forall. intros row Hrow.
  apply list_elem_of_In, repeat_spec in Hrow as ->.
  apply Forall_forall. intros y Hy. by apply list_elem_of_In, repeat_spec in Hy.
Qed.

Lemma np_sum_const (c : R) (l : list R) :
  Forall (fun x => x = c) l -> np_sum l = (INR (length l) * c)%R.
Proof.
  induction 1 as [|x l -> _ IH]; [cbn; lra|].
  cbn [length np_sum fold_right]. fold (np_sum l). rewrite S_INR, IH. lra.
Qed.

Lemma np_mean_const (c : R) (l : list R) :
  l <> [] -> Forall (fun x => x = c) l -> np_mean l = c.
Proof.
  intros Hne H. unfold np_mean. rewrite (np_sum_const c l H).
  assert (Hn : (0 < INR (length l))%R).
  { apply lt_0_INR. destruct l; [done|cbn [length]; lia]. }
  field. lra.
Qed.

(** The standard deviation of a list whose entries are all equal is 0. *)
Lemma np_std_const (c : R) (l : list R) :
  Forall (fun x => x = c) l -> np_std l = 0%R.
Proof.
  intros H. unfold np_std.
  assert (Hz : Forall (fun x => x = 0%R)
                 (map (fun x => ((x - np_mean l) * (x - np_mean l))%R) l)).
  { destruct l as [|a l]; [constructor|].
    rewrite (np_mean_const c (a :: l)) by done.
    apply Forall_forall. intros y Hy.
    apply list_elem_of_In, in_map_iff in Hy as (x & <- & Hx).
    rewrite Forall_forall in H. rewrite (H x) by (by apply list_elem_of_In). ring. }
  unfold np_mean at 1. rewrite (np_sum_const 0 _ Hz).
  rewrite Rmult_0_r. unfold Rdiv. rewrite Rmult_0_l. apply sqrt_0.
Qed.

Lemma map_const_seq {T : Type} (f : nat -> T) (x : T) (n : nat) :
  (forall i, (i < n)%nat -> f i = x) -> map f (seq 0 n) = repeat x n.
Proof.
  intros H. induction n as [|n IH]; [reflexivity|].
  rewrite seq_S, map_app, IH by (intros i Hi; apply H; lia).
  cbn [Nat.add map repeat]. rewrite (H n) by lia.
  by rewrite repeat_cons.
Qed.

Lemma get2_replicate_const (c : R) (h w : nat) (i j : Z) :
  (0 < h)%nat -> (0 < w)%nat ->
  get2_replicate (repeat (repeat c w) h) i j = c.
Proof.
  intros Hh Hw. unfold get2_replicate, get2, height, width.
  rewrite repeat_length.
  destruct h as [|h]; [lia|]. cbn [repeat hd]. rewrite repeat_length.
  change (repeat c w :: repeat (repeat c w) h) with (repeat (repeat c w) (S h)).
  rewrite (nth_repeat_lt (repeat c w)) by (unfold clamp; lia).
  apply nth_repeat_lt. unfold clamp. lia.
Qed.

(** The Laplacian of a constant array under edge replication is zero. *)
Lemma laplace_replicate_const (c : R) (h w : nat) :
  (0 < h)%nat -> (0 < w)%nat ->
  laplace_replicate (repeat (repeat c w) h) = repeat (repeat 0%R w) h.
Proof.
  intros Hh Hw. unfold laplace_replicate.
  assert (Hheight : height (repeat (repeat c w) h) = h) by apply repeat_length.
  assert (Hwidth : width (repeat (repeat c w) h) = w).
  { unfold width. destruct h as [|h']; [lia|]. cbn [repeat hd]. apply repeat_length. }
  rewrite Hheight, Hwidth.
  apply map_const_seq. intros i _. apply map_const_seq. intros j _.
  unfold offsets3. cbn [map np_sum fold_right].
  rewrite !get2_replicate_const by assumption.
  change (laplacian_weight (-1) (-1)) with 0%R.
  change (laplacian_weight (-1) 0) with 1%R.
  change (laplacian_weight (-1) 1) with 0%R.
  change (laplacian_weight 0 (-1)) with 1%R.
  change (laplacian_weight 0 0) with (-4)%R.
  change (laplacian_weight 0 1) with 1%R.
  change (laplacian_weight 1 (-1)) with 0%R.
  change (laplacian_weight 1 0) with 1%R.
  change (laplacian_weight 1 1) with 0%R.
  ring.
Qed.

Lemma channel_solid (k : nat) (r g b : Z) :
  ravel2 (channel k (solid_image r g b)) =
  concat (repeat (repeat (nth k [r; g; b] 0%Z) 128) 128).
Proof. unfold ravel2, channel, solid_image. by rewrite !map_repeat. Qed.

(** X5: on an image of a single colour the Laplacian response vanishes and
    the four quadrants have the same mean: both edge features, the spatial
    variance and the three per-channel standard deviations are exactly 0. *)
Theorem solid_image_has_no_texture (r g b : Z) :
  edge_mean (solid_image r g b) = 0%R /\
  edge_std (solid_image r g b) = 0%R /\
  spatial_variance (solid_image r g b) = 0%R /\
  std_of (solid_image r g b) = [0%R; 0%R; 0%R].
Proof.
  assert (He : ravel2 (edges_of (solid_image r g b)) =
               concat (repeat (repeat 0%R 128) 128)).
  { unfold edges_of. rewrite convolve_laplacian_replicate.
    unfold gray_of, mean_axis2, solid_image. rewrite !map_repeat.
    rewrite laplace_replicate_const by lia. reflexivity. }
  split; [|split; [|split]].
  - unfold edge_mean. rewrite He. unfold np_mean.
    rewrite (np_sum_const 0).
    + rewrite Rmult_0_r. unfold Rdiv. by rewrite Rmult_0_l.
    + apply Forall_forall. intros x Hx.
      apply list_elem_of_In, in_map_iff in Hx as (e & <- & Hin).
      pose proof (Forall_concat_repeat2 0%R 128 128) as Hz.
      rewrite Forall_forall in Hz. rewrite (Hz e) by (by apply list_elem_of_In).
      apply Rabs_R0.
  - unfold edge_std. rewrite He. apply (np_std_const 0), Forall_concat_repeat2.
  - unfold spatial_variance, quadrants.
    change (height (solid_image r g b)) with (length (solid_image r g b)).
    assert (Hh : length (solid_image r g b) = 128%nat) by apply repeat_length.
    assert (Hw : width (solid_image r g b) = 128%nat) by reflexivity.
    rewrite Hh, Hw. change (128 / 2)%nat with 64%nat. unfold solid_image.
    rewrite firstn_repeat_le, skipn_repeat_le by lia.
    change (128 - 64)%nat with 64%nat. rewrite !map_repeat.
    rewrite firstn_repeat_le, skipn_repeat_le by lia.
    change (128 - 64)%nat with 64%nat.
    cbn [map].
    apply (np_std_const
             (np_mean (as_float (ravel3 (repeat (repeat [r; g; b] 64) 64))))).
    repeat constructor.
  - unfold std_of, over_axes01.
    change (nchan (solid_image r g b)) with 3%nat. cbn [seq map].
    rewrite !channel_solid.
    assert (Hs : forall v, np_std (as_float (concat (repeat (repeat v 128) 128))) = 0%R).
    { intros v. apply (np_std_const (IZR v)). unfold as_float.
      apply Forall_forall. intros x Hx.
      apply list_elem_of_In, in_map_iff in Hx as (u & <- & Hu). f_equal.
      pose proof (Forall_concat_repeat2 v 128 128) as Hz.
      rewrite Forall_forall in Hz. apply Hz. by apply list_elem_of_In. }
    by rewrite !Hs.
Qed.

(** ** The guard against division by zero *)

Lemma sumZ_zero_iff (l : list Z) :
  Forall (fun v => (0 <= v)%Z) l -> sumZ l = 0%Z <-> Forall (fun v => v = 0%Z) l.
Proof.
  induction 1 as [|x l Hx Hl IH]; [by split|].
  cbn [sumZ fold_right]. fold (sumZ l).
  assert (0 <= sumZ l)%Z.
  { clear IH. induction Hl as [|y l Hy _ IHl]; [cbn; lia|].
    cbn [sumZ fold_right]. fold (sumZ l). lia. }
  rewrite Forall_cons. split.
  - intros E. split; [lia|]. apply IH. lia.
  - intros [-> Hz]. apply IH in Hz. lia.
Qed.

Lemma valid_image_value_list (img : ndarray3) :
  valid_image img = true -> Forall (fun v => (0 <= v <= 255)%Z) (ravel3 img).
Proof.
  intros H. unfold ravel3. fold (ravel2 img). apply Forall_concat.
  eapply Forall_impl; [exact (valid_image_pixel_list img H)|]. by intros px [_ ?].
Qed.

(** X6: the denominator of the green ratio is at least 1e-6, so the ratio
    is a proper quotient even for a black image, and the ratio is 0 exactly
    when no pixel has any green. *)
Theorem green_ratio_guard (img : ndarray3) :
  valid_image img = true ->
  (1e-6 <= np_mean (as_float (ravel3 img)) + 1e-6)%R /\
  (green_ratio img * (np_mean (as_float (ravel3 img)) + 1e-6) =
     np_mean (as_float (ravel2 (channel 1 img))))%R /\
  (green_ratio img = 0%R <-> Forall (fun v => v = 0%Z) (ravel2 (channel 1 img))).
Proof.
  intros H.
  assert (Hne : ravel3 img <> []).
  { intros E. pose proof (valid_image_values img H) as Hl. rewrite E in Hl. discriminate. }
  destruct (np_mean_bounds (ravel3 img) 0 255 Hne (valid_image_value_list img H))
    as [Hm _].
  set (D := (np_mean (as_float (ravel3 img)) + 1e-6)%R) in *.
  assert (HD : (0 < D)%R) by (unfold D; lra).
  split; [unfold D; lra|]. split.
  - unfold green_ratio. fold D. field. lra.
  - rewrite <- sumZ_zero_iff.
    2:{ eapply Forall_impl; [exact (channel_values_uint8 1 img H)|]. cbn. lia. }
    unfold green_ratio. fold D. rewrite np_mean_as_float.
    rewrite (length_channel_values 1 img H).
    change (Z.of_nat (128 * 128)) with 16384%Z.
    set (x := sumZ (ravel2 (channel 1 img))).
    split.
    + intros E. apply eq_IZR.
      assert (E2 : (IZR x / 16384 / D * D = 0)%R) by (rewrite E; ring).
      replace (IZR x / 16384 / D * D)%R with (IZR x / 16384)%R in E2 by (field; lra).
      lra.
    + intros ->. unfold Rdiv. by rewrite !Rmult_0_l.
Qed.

Lemma green_ratio_guard_witness :
  (1e-6 <= np_mean (as_float (ravel3 (solid_image 0 0 0))) + 1e-6)%R /\
  (green_ratio (solid_image 0 0 0) *
     (np_mean (as_float (ravel3 (solid_image 0 0 0))) + 1e-6) =
     np_mean (as_float (ravel2 (channel 1 (solid_image 0 0 0)))))%R /\
  (green_ratio (solid_image 0 0 0) = 0%R <->
   Forall (fun v => v = 0%Z) (ravel2 (channel 1 (solid_image 0 0 0)))).
Proof.
  apply green_ratio_guard. vm_compute. reflexivity.
Defined.

(** * Further properties of the dataset assembler *)

Section ScanFacts.

Variable os : OS.
Variable rng : Type.
Variable random_sample : rng -> list string -> nat -> list string * rng.

(** What one class directory contributes. *)
Lemma class_tasks_inv (c2i : gmap string nat) (root d : string) (g g' : rng)
    (ts : list task) :
  class_tasks os rng random_sample c2i root d g = Ok (ts, g') ->
  exists idx files sel,
    c2i !! d = Some idx /\
    os_listdir os (os_path_join os root d) = Ok files /\
    ts = map (fun f => (os_path_join os (os_path_join os root d) f, idx)) sel /\
    ((length (List.filter is_image_file files) <= SAMPLES_PER_CLASS)%nat /\
       sel = List.filter is_image_file files /\ g' = g \/
     (SAMPLES_PER_CLASS < length (List.filter is_image_file files))%nat /\
       (sel, g') = random_sample g (List.filter is_image_file files) SAMPLES_PER_CLASS).
Proof.
  unfold class_tasks. destruct (c2i !! d) as [idx|]; [|discriminate].
  cbn [mbind res_bind]. unfold select_image_files.
  destruct (os_listdir os (os_path_join os root d)) as [files|e]; [|discriminate].
  cbn [mbind res_bind].
  destruct (SAMPLES_PER_CLASS <? length (List.filter is_image_file files))%nat eqn:Hcap;
    cbn [mbind res_bind mret res_ret fst snd]; intros [= <- <-].
  - apply Nat.ltb_lt in Hcap. eexists idx, files, _. repeat split; try reflexivity.
    right. split; [exact Hcap|]. by destruct (random_sample _ _ _).
  - apply Nat.ltb_ge in Hcap. eexists idx, files, _. repeat split; try reflexivity.
    left. by repeat split.
Qed.

Lemma class_tasks_sel (c2i : gmap string nat) (root d : string) (g g' : rng)
    (ts : list task) :
  sample_contract random_sample ->
  class_tasks os rng random_sample c2i root d g = Ok (ts, g') ->
  exists idx files sel,
    c2i !! d = Some idx /\
    os_listdir os (os_path_join os root d) = Ok files /\
    ts = map (fun f => (os_path_join os (os_path_join os root d) f, idx)) sel /\
    sel ⊆+ List.filter is_image_file files /\
    (length sel <= SAMPLES_PER_CLASS)%nat.
Proof.
  intros Hs H. apply class_tasks_inv in H as (idx & files & sel & Hi & Hl & -> & Hsel).
  exists idx, files, sel. repeat split; try assumption.
  - destruct Hsel as [(_ & -> & _)|[Hcap E]]; [done|].
    destruct (Hs g (List.filter is_image_file files) SAMPLES_PER_CLASS ltac:(lia))
      as [_ Hsub]. by rewrite <- E in Hsub.
  - destruct Hsel as [(Hle & -> & _)|[Hcap E]]; [exact Hle|].
    destruct (Hs g (List.filter is_image_file files) SAMPLES_PER_CLASS ltac:(lia))
      as [Hlen _]. rewrite <- E in Hlen. cbn in Hlen. lia.
Qed.

Lemma scan_classes_inv (c2i : gmap string nat) (root : string) (dirs : list string)
    (acc : list task) (g g' : rng) (tasks : list task) :
  sample_contract random_sample ->
  scan_classes os rng random_sample c2i root dirs acc g = Ok (tasks, g') ->
  exists new,
    tasks = acc ++ new /\
    (length new <= SAMPLES_PER_CLASS * length dirs)%nat /\
    Forall (fun t : task =>
      exists class files f,
        class ∈ dirs /\ os_listdir os (os_path_join os root class) = Ok files /\
        f ∈ files /\ is_image_file f = true /\
        t.1 = os_path_join os (os_path_join os root class) f /\
        c2i !! class = Some t.2) new.
Proof.
  intros Hs. revert acc g. induction dirs as [|d dirs IH]; intros acc g.
  - cbn. intros [= <- <-]. exists []. rewrite app_nil_r. repeat split; [cbn; lia|constructor].
  - cbn [scan_classes].
    destruct (class_tasks os rng random_sample c2i root d g) as [[ts g1]|e] eqn:Hc;
      [|discriminate].
    cbn [mbind res_bind fst snd]. intros H.
    apply IH in H as (new & -> & Hlen & Hall).
    apply (class_tasks_sel _ _ _ _ _ _ Hs) in Hc
      as (idx & files & sel & Hi & Hl & -> & Hsub & Hcap).
    eexists (_ ++ new). split; [by rewrite app_assoc|]. split.
    + rewrite length_app, length_map. cbn [length]. lia.
    + apply Forall_app. split.
      * apply Forall_forall. intros t Ht.
        apply list_elem_of_In, in_map_iff in Ht as (f & <- & Hf).
        apply list_elem_of_In in Hf.
        pose proof (elem_of_submseteq _ _ f Hf Hsub) as Hf'.
        apply list_elem_of_In, filter_In in Hf' as [Hf1 Hf2].
        exists d, files, f. repeat split; try done; [by left|by apply list_elem_of_In].
      * eapply Forall_impl; [exact Hall|].
        intros t (class & fs & f & Hcl & ?). exists class, fs, f. split; [by right|done].
Qed.

Lemma scan_roots_inv (c2i : gmap string nat) (roots : list string)
    (acc : list task) (g g' : rng) (tasks : list task) :
  sample_contract random_sample ->
  scan_roots os rng random_sample c2i roots acc g = Ok (tasks, g') ->
  exists new,
    tasks = acc ++ new /\
    (length new <= SAMPLES_PER_CLASS * length (all_subdirs os roots))%nat /\
    Forall (task_from os (fun class i => c2i !! class = Some i) roots) new.
Proof.
  intros Hs. revert acc g. induction roots as [|r roots IH]; intros acc g.
  - cbn. intros [= <- <-]. exists []. rewrite app_nil_r. repeat split; [cbn; lia|constructor].
  - cbn [scan_roots]. rewrite all_subdirs_cons.
    assert (Hmono : forall t, task_from os (fun class i => c2i !! class = Some i) roots t ->
              task_from os (fun class i => c2i !! class = Some i) (r :: roots) t).
    { intros t (root & class & fs & f & Hr & Hrest).
      exists root, class, fs, f. split; [by right|exact Hrest]. }
    destruct (os_path_exists os r) eqn:Hex; cbn [negb].
    + destruct (class_dirs_inv os r) as [(e & _ & ->)|(names & _ & ->)];
        cbn [mbind res_bind]; [discriminate|].
      destruct (scan_classes os rng random_sample c2i r (subdir_names os r) acc g)
        as [[t1 g1]|e] eqn:Hc; [|discriminate].
      cbn [mbind res_bind fst snd]. intros H.
      apply IH in H as (new & -> & Hlen & Hall).
      apply (scan_classes_inv _ _ _ _ _ _ _ Hs) in Hc as (new1 & -> & Hlen1 & Hall1).
      exists (new1 ++ new). split; [by rewrite app_assoc|]. split.
      * rewrite !length_app. lia.
      * apply Forall_app. split; [|by eapply Forall_impl; [exact Hall|]].
        eapply Forall_impl; [exact Hall1|].
        intros t (class & fs & f & Hcl & Hrest).
        exists r, class, fs, f. split; [by left|]. split; [exact Hex|]. by split.
    + intros H. apply IH in H as (new & -> & Hlen & Hall).
      exists new. split; [reflexivity|]. split; [cbn [app]; exact Hlen|].
      by eapply Forall_impl; [exact Hall|].
Qed.

End ScanFacts.

(** X7: every task the assembler builds is an image file listed in a class
    directory of an existing root, and its label is the position of that
    directory's name in the vocabulary; so the same class name under two
    roots gets the same label. *)
Theorem task_labels_match_directories (os : OS)
    (open : string -> Z -> res ndarray3) (conv : ndarray3 -> res ndarray3)
    (rng : Type) (random_sample : rng -> list string -> nat -> list string * rng)
    (roots : list string) (g : rng) :
  listable os roots = true ->
  sample_contract random_sample ->
  exists X y names g' tasks,
    prepare_dataset os open conv rng random_sample roots g = Ok (X, y, names, g') /\
    scan_roots os rng random_sample (make_class_to_idx names) roots [] g = Ok (tasks, g') /\
    Forall (task_from os (fun class i => names !! i = Some class) roots) tasks.
Proof.
  intros Hl Hs.
  destruct (prepare_dataset_ok os open conv rng random_sample roots g Hl)
    as (tasks & g' & Hscan & _ & Hprep).
  eexists _, _, _, g', tasks. split; [exact Hprep|]. split; [exact Hscan|].
  destruct (scan_roots_inv os rng random_sample _ _ _ _ _ _ Hs Hscan)
    as (new & -> & _ & Hall).
  cbn [app]. eapply Forall_impl; [exact Hall|].
  intros t (root & class & fs & f & H1 & H2 & H3 & H4 & H5 & H6 & H7 & H8).
  exists root, class, fs, f. repeat split; try assumption.
  apply make_class_to_idx_lookup; [|exact H8].
  apply (vocabulary_spec_facts os roots).
Qed.

Lemma task_labels_match_directories_witness :
  exists X y names g' tasks,
    prepare_dataset demo_os demo_open hsv_green nat first_k_sample
      ["dataset"; "missing"]%string 0%nat = Ok (X, y, names, g') /\
    scan_roots demo_os nat first_k_sample (make_class_to_idx names)
      ["dataset"; "missing"]%string [] 0%nat = Ok (tasks, g') /\
    Forall (task_from demo_os (fun class i => names !! i = Some class)
              ["dataset"; "missing"]%string) tasks.
Proof.
  apply (task_labels_match_directories demo_os demo_open hsv_green nat first_k_sample).
  - vm_compute. reflexivity.
  - exact first_k_sample_contract.
Defined.

Lemma length_surviving_samples (worker : string -> res (option (list R)))
    (tasks : list task) :
  (length (surviving_samples worker tasks) <= length tasks)%nat.
Proof.
  induction tasks as [|t tasks IH]; [cbn; lia|].
  unfold surviving_samples. cbn [omap list_omap].
  destruct (survivor (worker t.1)); cbn [fmap option_fmap option_map length];
    fold (surviving_samples worker tasks); lia.
Qed.

(** X8: the dataset is bounded by the cap: at most SAMPLES_PER_CLASS tasks
    per class directory, hence at most SAMPLES_PER_CLASS times the number of
    class directories of the existing roots, and no more samples than tasks. *)
Theorem dataset_size_bounded (os : OS)
    (open : string -> Z -> res ndarray3) (conv : ndarray3 -> res ndarray3)
    (rng : Type) (random_sample : rng -> list string -> nat -> list string * rng)
    (roots : list string) (g : rng) :
  listable os roots = true ->
  sample_contract random_sample ->
  exists X y names g' tasks,
    prepare_dataset os open conv rng random_sample roots g = Ok (X, y, names, g') /\
    scan_roots os rng random_sample (make_class_to_idx names) roots [] g = Ok (tasks, g') /\
    (length tasks <= SAMPLES_PER_CLASS * length (all_subdirs os roots))%nat /\
    (length X <= length tasks)%nat.
Proof.
  intros Hl Hs.
  destruct (prepare_dataset_ok os open conv rng random_sample roots g Hl)
    as (tasks & g' & Hscan & _ & Hprep).
  eexists _, _, _, g', tasks. split; [exact Hprep|]. split; [exact Hscan|].
  destruct (scan_roots_inv os rng random_sample _ _ _ _ _ _ Hs Hscan)
    as (new & -> & Hlen & _).
  split; [exact Hlen|]. rewrite length_fmap. apply length_surviving_samples.
Qed.

Lemma dataset_size_bounded_witness :
  exists X y names g' tasks,
    prepare_dataset demo_os demo_open hsv_green nat first_k_sample
      ["dataset"; "missing"]%string 0%nat = Ok (X, y, names, g') /\
    scan_roots demo_os nat first_k_sample (make_class_to_idx names)
      ["dataset"; "missing"]%string [] 0%nat = Ok (tasks, g') /\
    (length tasks <=
       SAMPLES_PER_CLASS * length (all_subdirs demo_os ["dataset"; "missing"]%string))%nat /\
    (length X <= length tasks)%nat.
Proof.
  apply (dataset_size_bounded demo_os demo_open hsv_green nat first_k_sample).
  - vm_compute. reflexivity.
  - exact first_k_sample_contract.
Defined.

Section NoSampling.

Variable os : OS.
Variable rng : Type.
Variable random_sample : rng -> list string -> nat -> list string * rng.

Lemma class_tasks_within_cap (c2i : gmap string nat) (root d : string) (idx : nat)
    (files : list string) (g : rng) :
  c2i !! d = Some idx ->
  os_listdir os (os_path_join os root d) = Ok files ->
  (length (class_files os (os_path_join os root d)) <= SAMPLES_PER_CLASS)%nat ->
  class_tasks os rng random_sample c2i root d g =
  Ok (map (fun f => (os_path_join os (os_path_join os root d) f,
                     default 0%nat (c2i !! d)))
          (class_files os (os_path_join os root d)), g).
Proof.
  intros Hi Hl Hcap. unfold class_tasks, select_image_files, class_files in *.
  rewrite Hi, Hl in *. cbn [mbind res_bind default].
  apply Nat.ltb_ge in Hcap. rewrite Hcap. reflexivity.
Qed.

Lemma scan_classes_within_cap (c2i : gmap string nat) (root : string)
    (dirs : list string) (acc : list task) (g : rng) :
  (forall d, d ∈ dirs ->
     (exists idx, c2i !! d = Some idx) /\
     (exists files, os_listdir os (os_path_join os root d) = Ok files) /\
     (length (class_files os (os_path_join os root d)) <= SAMPLES_PER_CLASS)%nat) ->
  scan_classes os rng random_sample c2i root dirs acc g =
  Ok (acc ++ concat (map (fun class =>
        map (fun f => (os_path_join os (os_path_join os root class) f,
                       default 0%nat (c2i !! class)))
            (class_files os (os_path_join os root class))) dirs), g).
Proof.
  revert acc. induction dirs as [|d dirs IH]; intros acc Hd.
  - cbn. by rewrite app_nil_r.
  - destruct (Hd d) as ((idx & Hi) & (files & Hl) & Hcap); [by left|].
    cbn [scan_classes]. rewrite (class_tasks_within_cap c2i root d idx files g Hi Hl Hcap).
    cbn [mbind res_bind fst snd]. rewrite IH by (intros d' Hd'; apply Hd; by right).
    cbn [map concat]. by rewrite app_assoc.
Qed.

Lemma scan_roots_within_cap (c2i : gmap string nat) (roots : list string)
    (acc : list task) (g : rng) :
  listable os roots = true ->
  within_cap os roots ->
  (forall c, c ∈ all_subdirs os roots -> exists idx, c2i !! c = Some idx) ->
  scan_roots os rng random_sample c2i roots acc g =
  Ok (acc ++ full_tasks os c2i roots, g).
Proof.
  revert acc. induction roots as [|r roots IH]; intros acc Hl Hcap Hc.
  - cbn. by rewrite app_nil_r.
  - apply listable_cons in Hl as [Hr Hrest]. cbn [scan_roots].
    rewrite all_subdirs_cons in Hc. unfold full_tasks. cbn [List.filter].
    assert (Hcap' : within_cap os roots).
    { intros root class H1 H2 H3. apply Hcap; [by right|done..]. }
    assert (Hc' : forall c, c ∈ all_subdirs os roots -> exists idx, c2i !! c = Some idx).
    { intros c Hin. apply Hc, elem_of_app. by right. }
    destruct (os_path_exists os r) eqn:Hex; cbn [negb].
    + destruct (listable_root os r Hr Hex) as [-> Hfiles]. cbn [mbind res_bind].
      rewrite scan_classes_within_cap.
      * cbn [mbind res_bind fst snd]. rewrite (IH _ Hrest Hcap' Hc').
        cbn [map concat]. unfold full_tasks. by rewrite app_assoc.
      * intros d Hd. split; [apply Hc, elem_of_app; by left|].
        split; [by apply Hfiles|]. apply Hcap; [by left|done..].
    + by rewrite (IH _ Hrest Hcap' Hc').
Qed.

End NoSampling.

(** X9: when no class directory holds more than SAMPLES_PER_CLASS image
    files, [random.sample] is never called: the tasks are all image files in
    scan order, the generator state is returned unchanged, and the dataset
    does not depend on the sampler. *)
Theorem no_sampling_within_cap (os : OS)
    (open : string -> Z -> res ndarray3) (conv : ndarray3 -> res ndarray3)
    (rng : Type) (random_sample : rng -> list string -> nat -> list string * rng)
    (roots : list string) (g : rng) :
  listable os roots = true ->
  within_cap os roots ->
  exists X y names,
    prepare_dataset os open conv rng random_sample roots g = Ok (X, y, names, g) /\
    scan_roots os rng random_sample (make_class_to_idx names) roots [] g =
      Ok (full_tasks os (make_class_to_idx names) roots, g) /\
    zip X y = surviving_samples (extract_features_worker open conv)
                (full_tasks os (make_class_to_idx names) roots).
Proof.
  intros Hl Hcap.
  destruct (prepare_dataset_ok os open conv rng random_sample roots g Hl)
    as (tasks & g' & Hscan & _ & Hprep).
  destruct (vocabulary_spec_facts os roots) as (_ & Hnd & Hmem).
  rewrite (scan_roots_within_cap os rng random_sample _ roots [] g Hl Hcap) in Hscan.
  2:{ intros c Hc. destruct (make_class_to_idx_bound _ c Hnd) as (i & Hi & _);
        [by apply Hmem|]. by exists i. }
  cbn [app] in Hscan. injection Hscan as <- <-.
  eexists _, _, _. split; [exact Hprep|]. split.
  - by rewrite (scan_roots_within_cap os rng random_sample _ roots [] g Hl Hcap)
      by (intros c Hc; destruct (make_class_to_idx_bound _ c Hnd) as (i & Hi & _);
          [by apply Hmem|by exists i]).
  - apply zip_fst_snd_id.
Qed.

Lemma demo_within_cap : within_cap demo_os ["dataset"; "missing"]%string.
Proof.
  intros root class Hr Hex Hc.
  apply elem_of_cons in Hr as [->|Hr].
  - vm_compute in Hc.
    apply elem_of_cons in Hc as [->|Hc]; [vm_compute; lia|].
    apply elem_of_cons in Hc as [->|Hc]; [vm_compute; lia|].
    by apply elem_of_nil in Hc.
  - apply list_elem_of_singleton in Hr as ->. discriminate Hex.
Qed.

Lemma no_sampling_within_cap_witness :
  exists X y names,
    prepare_dataset demo_os demo_open hsv_green nat first_k_sample
      ["dataset"; "missing"]%string 0%nat = Ok (X, y, names, 0%nat) /\
    scan_roots demo_os nat first_k_sample (make_class_to_idx names)
      ["dataset"; "missing"]%string [] 0%nat =
      Ok (full_tasks demo_os (make_class_to_idx names) ["dataset"; "missing"]%string,
          0%nat) /\
    zip X y = surviving_samples (extract_features_worker demo_open hsv_green)
                (full_tasks demo_os (make_class_to_idx names)
                   ["dataset"; "missing"]%string).
Proof.
  apply (no_sampling_within_cap demo_os demo_open hsv_green nat first_k_sample).
  - vm_compute. reflexivity.
  - exact demo_within_cap.
Defined.

Lemma collect_classes_skip_missing (os : OS) (roots : list string) (acc : gset string) :
  collect_classes os roots acc =
  collect_classes os (List.filter (os_path_exists os) roots) acc.
Proof.
  revert acc. induction roots as [|r roots IH]; intros acc; [reflexivity|].
  cbn [collect_classes List.filter].
  destruct (os_path_exists os r) eqn:Hex; cbn [negb]; [|apply IH].
  cbn [collect_classes]. rewrite Hex. cbn [negb].
  destruct (class_dirs os r); cbn [mbind res_bind]; [apply IH|reflexivity].
Qed.

Lemma scan_roots_skip_missing (os : OS) (rng : Type)
    (random_sample : rng -> list string -> nat -> list string * rng)
    (c2i : gmap string nat) (roots : list string) (acc : list task) (g : rng) :
  scan_roots os rng random_sample c2i roots acc g =
  scan_roots os rng random_sample c2i (List.filter (os_path_exists os) roots) acc g.
Proof.
  revert acc g. induction roots as [|r roots IH]; intros acc g; [reflexivity|].
  cbn [scan_roots List.filter].
  destruct (os_path_exists os r) eqn:Hex; cbn [negb]; [|apply IH].
  cbn [scan_roots]. rewrite Hex. cbn [negb].
  destruct (class_dirs os r); cbn [mbind res_bind]; [|reflexivity].
  destruct (scan_classes os rng random_sample c2i r a acc g); cbn [mbind res_bind];
    [apply IH|reflexivity].
Qed.

(** X10: a listed root that does not exist is skipped without any other
    effect: the assembler returns exactly what it returns on the list of the
    existing roots (same dataset, same vocabulary, same generator state, or
    the same exception). *)
Theorem missing_roots_are_skipped (os : OS)
    (open : string -> Z -> res ndarray3) (conv : ndarray3 -> res ndarray3)
    (rng : Type) (random_sample : rng -> list string -> nat -> list string * rng)
    (roots : list string) (g : rng) :
  prepare_dataset os open conv rng random_sample roots g =
  prepare_dataset os open conv rng random_sample
    (List.filter (os_path_exists os) roots) g.
Proof.
  unfold prepare_dataset. rewrite <- collect_classes_skip_missing.
  destruct (collect_classes os roots ∅) as [s|e]; cbn [mbind res_bind]; [|reflexivity].
  by rewrite <- scan_roots_skip_missing.
Qed.

(** X11: when the imaging library returns arrays of the documented shape,
    every row of the assembled feature matrix has exactly 219 entries, so
    the matrix is rectangular. *)
Theorem feature_matrix_rectangular (os : OS)
    (open : string -> Z -> res ndarray3) (conv : ndarray3 -> res ndarray3)
    (rng : Type) (random_sample : rng -> list string -> nat -> list string * rng)
    (roots : list string) (g : rng) :
  (forall p img, open p IMG_SIZE = Ok img -> valid_image img = true) ->
  (forall img hsv, conv img = Ok hsv -> valid_image hsv = true) ->
  listable os roots = true ->
  exists X y names g',
    prepare_dataset os open conv rng random_sample roots g = Ok (X, y, names, g') /\
    Forall (fun row => length row = 219%nat) X.
Proof.
  intros Hopen Hconv Hl.
  destruct (prepare_dataset_ok os open conv rng random_sample roots g Hl)
    as (tasks & g' & _ & _ & Hprep).
  eexists _, _, _, g'. split; [exact Hprep|].
  apply Forall_forall. intros row Hrow.
  apply list_elem_of_fmap in Hrow as ([v label] & -> & Hin).
  unfold surviving_samples in Hin.
  apply list_elem_of_omap in Hin as (t & _ & Ht).
  rewrite worker_unfold in Ht.
  destruct (open t.1 IMG_SIZE) as [img|e] eqn:Ho; [|discriminate].
  destruct (conv img) as [hsv|e] eqn:Hc; [|discriminate].
  cbn in Ht. injection Ht as <- _. cbn [fst].
  apply length_features_of; apply valid_image_nchan; eauto.
Qed.

Lemma demo_open_valid (p : string) (img : ndarray3) :
  demo_open p IMG_SIZE = Ok img -> valid_image img = true.
Proof.
  unfold demo_open. destruct (String.eqb p _); [discriminate|].
  intros [= <-]. vm_compute. reflexivity.
Qed.

Lemma hsv_green_valid (img hsv : ndarray3) :
  hsv_green img = Ok hsv -> valid_image hsv = true.
Proof. intros [= <-]. vm_compute. reflexivity. Qed.

Lemma feature_matrix_rectangular_witness :
  exists X y names g',
    prepare_dataset demo_os demo_open hsv_green nat first_k_sample
      ["dataset"; "missing"]%string 0%nat = Ok (X, y, names, g') /\
    Forall (fun row => length row = 219%nat) X.
Proof.
  apply (feature_matrix_rectangular demo_os demo_open hsv_green nat first_k_sample).
  - exact demo_open_valid.
  - exact hsv_green_valid.
  - vm_compute. reflexivity.
Defined.

(** ** The extension filter *)

Lemma substring_skip (c : ascii) (s : string) (k m : nat) :
  substring (S k) m (String c s) = substring k m s.
Proof. reflexivity. Qed.

Lemma substring_all (s : string) : substring 0 (String.length s) s = s.
Proof. induction s as [|c s IH]; [reflexivity|]. simpl. f_equal. exact IH. Qed.

Lemma string_app_cons (c : ascii) (a b : string) :
  (String c a +:+ b)%string = String c (a +:+ b)%string.
Proof. reflexivity. Qed.

Lemma substring_suffix (pre suf : string) :
  substring (String.length pre) (String.length suf) (pre +:+ suf) = suf.
Proof.
  induction pre as [|c pre IH]; [apply substring_all|].
  rewrite string_app_cons. cbn [String.length]. rewrite substring_skip. exact IH.
Qed.

Lemma length_string_app (a b : string) :
  String.length (a +:+ b) = (String.length a + String.length b)%nat.
Proof.
  induction a as [|c a IH]; [reflexivity|].
  rewrite string_app_cons. cbn [String.length Nat.add]. by rewrite IH.
Qed.

Lemma substring_split (s : string) (k m : nat) :
  (k + m = String.length s)%nat ->
  s = (substring 0 k s +:+ substring k m s)%string.
Proof.
  revert s. induction k as [|k IH]; intros s Hk.
  - cbn [Nat.add] in Hk. subst m. rewrite substring_all.
    destruct s; reflexivity.
  - destruct s as [|c s]; [discriminate|]. cbn [String.length] in Hk.
    rewrite substring_skip. cbn [substring]. rewrite string_app_cons.
    f_equal. apply IH. lia.
Qed.

(** [endswith] holds exactly of the strings that have the suffix. *)
Lemma str_endswith_spec (s suf : string) :
  str_endswith s suf = true <-> exists pre, s = (pre +:+ suf)%string.
Proof.
  unfold str_endswith. split.
  - intros H. apply andb_prop in H as [Hle He].
    apply Nat.leb_le in Hle. apply String.eqb_eq in He.
    exists (substring 0 (String.length s - String.length suf) s).
    rewrite <- He at 2. apply substring_split. lia.
  - intros [pre ->]. rewrite length_string_app. apply andb_true_intro. split.
    + apply Nat.leb_le. lia.
    + apply String.eqb_eq.
      replace (String.length pre + String.length suf - String.length suf)%nat
        with (String.length pre) by lia.
      apply substring_suffix.
Qed.

Lemma ascii_lower_idemp (c : ascii) : ascii_lower (ascii_lower c) = ascii_lower c.
Proof. destruct c as [[] [] [] [] [] [] [] []]; reflexivity. Qed.

Lemma str_lower_idemp (s : string) : str_lower (str_lower s) = str_lower s.
Proof.
  induction s as [|c s IH]; [reflexivity|].
  cbn [str_lower]. by rewrite ascii_lower_idemp, IH.
Qed.

(** X12: a file name is taken as an image exactly when its lower-cased form
    ends in ".jpg", ".jpeg" or ".png"; the test does not depend on the case
    of the name. *)
Theorem image_extension_filter (f : string) :
  (is_image_file f = true <->
   exists stem ext, ext ∈ [".jpg"; ".jpeg"; ".png"]%string /\
                    str_lower f = (stem +:+ ext)%string) /\
  is_image_file (str_lower f) = is_image_file f.
Proof.
  split.
  - unfold is_image_file. rewrite existsb_exists. split.
    + intros (ext & Hin & He). apply str_endswith_spec in He as [stem Hs].
      exists stem, ext. split; [by apply list_elem_of_In|exact Hs].
    + intros (stem & ext & Hin & Hs). exists ext. split; [by apply list_elem_of_In|].
      apply str_endswith_spec. by exists stem.
  - unfold is_image_file. by rewrite str_lower_idemp.
Qed.

(** * The artifact writer *)

Section ArtifactWriterFacts.

Variable os : OS.
Variables model report matrix : Type.
Variable joblib_dump : model -> string -> res unit.
Variable json_dump_labels : list string -> string -> res unit.
Variable json_dump_report : report -> string -> res unit.
Variable savefig_confusion : matrix -> list string -> string -> res unit.
Variable write_text : string -> string -> res unit.
Variable script_content : string.

(** X13: [save_model] attempts its five writes in a fixed order (model,
    labels, report, confusion matrix, prediction script) and stops at
    the first one that raises, whichever of the five it is: the writes up
    to and including the failing one are exactly what was attempted, the
    later ones are never attempted, and the exception is the outcome.  It
    returns normally exactly when all five succeeded, having made all five
    writes.  The labels file receives the vocabulary as it is. *)
Theorem save_model_writes_in_order (m : model) (class_names : list string)
    (test_acc : R) (rep : report) (cm : matrix) :
  let run := save_model_body os model report matrix joblib_dump json_dump_labels
               json_dump_report savefig_confusion write_text script_content
               m class_names test_acc rep cm in
  let attempts :=
    [ joblib_dump m (os_path_join os OUTPUT_DIR "model.pkl");
      json_dump_labels class_names (os_path_join os OUTPUT_DIR "labels.json");
      json_dump_report rep (os_path_join os OUTPUT_DIR "classification_report.json");
      savefig_confusion cm class_names (os_path_join os OUTPUT_DIR "confusion_matrix.png");
      write_text (os_path_join os OUTPUT_DIR "predict.py") script_content ] in
  (Forall (fun r => r = Ok tt) attempts ->
     run = Logged (all_artifacts os script_content class_names) (Ok tt)) /\
  (forall k e,
     attempts !! k = Some (Raise e) ->
     (forall j, (j < k)%nat -> attempts !! j = Some (Ok tt)) ->
     run = Logged (take (S k) (all_artifacts os script_content class_names)) (Raise e)) /\
  (result run = Ok tt -> Forall (fun r => r = Ok tt) attempts) /\
  (forall path names, Labels_json path names ∈ events run -> names = class_names).
Proof.
  cbn zeta. unfold save_model_body, create_prediction_script, all_artifacts, emit.
  destruct (joblib_dump m _) as [[]|e1];
    [destruct (json_dump_labels class_names _) as [[]|e2];
      [destruct (json_dump_report rep _) as [[]|e3];
        [destruct (savefig_confusion cm class_names _) as [[]|e4];
          [destruct (write_text _ script_content) as [[]|e5]|]|]|]|];
    cbn [mbind logged_bind events result app].
  all: split;
    [ intros HF; repeat (apply Forall_cons in HF as [? HF]); (reflexivity || discriminate)
    | split;
      [ intros k e Hk Hj;
        destruct k as [|[|[|[|[|k]]]]]; cbn in Hk;
        try discriminate Hk;
        try (exfalso; specialize (Hj 0%nat ltac:(lia)); cbn in Hj; discriminate Hj);
        try (exfalso; specialize (Hj 1%nat ltac:(lia)); cbn in Hj; discriminate Hj);
        try (exfalso; specialize (Hj 2%nat ltac:(lia)); cbn in Hj; discriminate Hj);
        try (exfalso; specialize (Hj 3%nat ltac:(lia)); cbn in Hj; discriminate Hj);
        injection Hk as ->; reflexivity
      | split;
        [ intros Hr; (discriminate Hr || by repeat constructor)
        | intros path names Hin;
          repeat (apply elem_of_cons in Hin as [Hin|Hin];
                  [try discriminate Hin; by injection Hin|]);
          by apply elem_of_nil in Hin ] ] ].
Qed.

End ArtifactWriterFacts.

Lemma save_model_writes_in_order_witness :
  save_model_body bare_os unit unit unit
    (fun _ _ => Ok tt) (fun _ _ => Ok tt) (fun _ _ => Raise OSError)
    (fun _ _ _ => Ok tt) (fun _ _ => Ok tt) "import sys"
    tt ["blight"; "healthy"]%string 0%R tt tt =
  Logged [ Model_pkl "sklearn_model_output/model.pkl";
           Labels_json "sklearn_model_output/labels.json" ["blight"; "healthy"]%string;
           Report_json "sklearn_model_output/classification_report.json" ]
         (Raise OSError).
Proof.
  pose proof (save_model_writes_in_order bare_os unit unit unit
    (fun _ _ => Ok tt) (fun _ _ => Ok tt) (fun _ _ => Raise OSError)
    (fun _ _ _ => Ok tt) (fun _ _ => Ok tt) "import sys"
    tt ["blight"; "healthy"]%string 0%R tt tt) as H.
  cbn zeta in H. destruct H as (_ & H & _).
  apply (H 2%nat OSError).
  - reflexivity.
  - intros j Hj. destruct j as [|[|j]]; [reflexivity|reflexivity|lia].
Defined.

(** * The generated prediction script *)

Lemma py_index_nonneg {A : Type} (l : list A) (i : Z) :
  (0 <= i)%Z ->
  py_index l i = match l !! Z.to_nat i with
                 | Some x => Ok x
                 | None => Raise IndexError
                 end.
Proof.
  intros Hi. unfold py_index.
  destruct (i <? 0)%Z eqn:E; [lia|]. rewrite E. cbn [orb].
  destruct (Z.of_nat (length l) <=? i)%Z eqn:E2; [|reflexivity].
  rewrite (proj2 (lookup_ge_None l (Z.to_nat i))) by lia. reflexivity.
Qed.

(** A negative index counts from the end: [l[-1]] is the last entry. *)
Lemma py_index_neg {A : Type} (l : list A) (i : Z) :
  (i < 0)%Z ->
  py_index l i = match reverse l !! Z.to_nat (- i - 1) with
                 | Some x => Ok x
                 | None => Raise IndexError
                 end.
Proof.
  intros Hi. unfold py_index.
  destruct (i <? 0)%Z eqn:E; [|lia].
  destruct (i + Z.of_nat (length l) <? 0)%Z eqn:E1; cbn [orb].
  - rewrite (proj2 (lookup_ge_None (reverse l) (Z.to_nat (- i - 1))));
      [reflexivity|]. rewrite length_reverse. lia.
  - destruct (Z.of_nat (length l) <=? i + Z.of_nat (length l))%Z eqn:E2; [lia|].
    rewrite reverse_lookup by lia.
    replace (length l - S (Z.to_nat (- i - 1)))%nat
      with (Z.to_nat (i + Z.of_nat (length l))) by lia.
    reflexivity.
Qed.

(** Python's [l[i]] in one formula. *)
Lemma py_index_spec {A : Type} (l : list A) (i : Z) :
  py_index l i =
    match (if (i <? 0)%Z then reverse l !! Z.to_nat (- i - 1) else l !! Z.to_nat i) with
    | Some x => Ok x
    | None => Raise IndexError
    end.
Proof.
  destruct (i <? 0)%Z eqn:E.
  - apply py_index_neg. lia.
  - apply py_index_nonneg. lia.
Qed.

(** [l[i]] is defined exactly for [-len(l) <= i < len(l)]. *)
Lemma py_index_in_range {A : Type} (l : list A) (i : Z) :
  is_Some (if (i <? 0)%Z then reverse l !! Z.to_nat (- i - 1) else l !! Z.to_nat i) <->
  (- Z.of_nat (length l) <= i < Z.of_nat (length l))%Z.
Proof.
  destruct (i <? 0)%Z eqn:E.
  - rewrite lookup_lt_is_Some, length_reverse. lia.
  - rewrite lookup_lt_is_Some. lia.
Qed.

Section PredictScriptFacts.

Variable Image_open_RGB_resize : string -> Z -> res ndarray3.
Variable Image_convert_HSV : ndarray3 -> res ndarray3.
Variable pmodel : Type.
Variable joblib_load : string -> res pmodel.
Variable json_load : string -> res (list string).
Variable model_predict : pmodel -> list (list R) -> res (list Z).
Variable model_predict_proba : pmodel -> list (list R) -> res (list (list R)).

Local Abbreviation the_body :=
  (Predict.extract_features_body Image_open_RGB_resize Image_convert_HSV).
Local Abbreviation the_predict_disease :=
  (predict_disease Image_open_RGB_resize Image_convert_HSV pmodel joblib_load json_load
     model_predict model_predict_proba).

(** The script's extractor returns what [extract_features] returns. *)
Lemma extract_features_printing_result (p : string) :
  result (extract_features_printing Image_open_RGB_resize Image_convert_HSV p) =
  Predict.extract_features Image_open_RGB_resize Image_convert_HSV p.
Proof.
  unfold extract_features_printing, Predict.extract_features, try_except_None.
  by destruct (the_body p).
Qed.

(** X14: on a readable image [predict_disease] loads model and labels,
    asks the model once for the prediction and once for the probabilities,
    and returns the entry of the loaded vocabulary at the predicted index
    [p] together with the probability at that index, both taken with
    Python's indexing: [p >= 0] counts from the front, [p < 0] from the end
    ([-1] is the last entry).  It returns a class exactly when
    [-len <= p < len] for both the vocabulary and the probability row, and
    raises IndexError otherwise. *)
Theorem predict_disease_indexes_vocabulary (image_path model_path labels_path : string)
    (m : pmodel) (class_names : list string) (v : list R)
    (p : Z) (ps : list Z) (row : list R) (rows : list (list R)) :
  joblib_load model_path = Ok m ->
  json_load labels_path = Ok class_names ->
  Predict.extract_features_body Image_open_RGB_resize Image_convert_HSV image_path
    = Ok v ->
  model_predict m [v] = Ok (p :: ps) ->
  model_predict_proba m [v] = Ok (row :: rows) ->
  result (predict_disease Image_open_RGB_resize Image_convert_HSV pmodel joblib_load
       json_load model_predict model_predict_proba image_path model_path labels_path) =
    match (if (p <? 0)%Z then reverse class_names !! Z.to_nat (- p - 1)
           else class_names !! Z.to_nat p),
          (if (p <? 0)%Z then reverse row !! Z.to_nat (- p - 1)
           else row !! Z.to_nat p) with
    | Some c, Some q => Ok (Some (c, q))
    | _, _ => Raise IndexError
    end /\
  ((exists c q,
      result (predict_disease Image_open_RGB_resize Image_convert_HSV pmodel joblib_load
        json_load model_predict model_predict_proba image_path model_path labels_path) =
      Ok (Some (c, q))) <->
   (- Z.of_nat (length class_names) <= p < Z.of_nat (length class_names))%Z /\
   (- Z.of_nat (length row) <= p < Z.of_nat (length row))%Z) /\
  events (predict_disease Image_open_RGB_resize Image_convert_HSV pmodel joblib_load
       json_load model_predict model_predict_proba image_path model_path labels_path) =
    [Ev_joblib_load model_path; Ev_json_load labels_path;
     Ev_predict [v]; Ev_predict_proba [v]].
Proof.
  intros Hm Hn Hv Hp Hq.
  pose proof (py_index_in_range class_names p) as Hrc.
  pose proof (py_index_in_range row p) as Hrr.
  unfold predict_disease, extract_features_printing, emit, quiet, Predict.reshape_row.
  rewrite Hm, Hn, Hv. cbn [mbind logged_bind events result app].
  rewrite Hp. cbn [mbind logged_bind events result app py_index].
  change (py_index (p :: ps) 0) with (Ok (A := Z) p).
  cbn [mbind logged_bind events result app]. rewrite Hq.
  cbn [mbind logged_bind events result app].
  change (py_index (row :: rows) 0) with (Ok (A := list R) row).
  cbn [mbind logged_bind events result app].
  rewrite (py_index_spec class_names p), (py_index_spec row p).
  destruct (if (p <? 0)%Z then reverse class_names !! Z.to_nat (- p - 1)
            else class_names !! Z.to_nat p) as [c|];
    cbn [mbind logged_bind events result app].
  - destruct (if (p <? 0)%Z then reverse row !! Z.to_nat (- p - 1)
              else row !! Z.to_nat p) as [q|];
      cbn [mbind logged_bind events result app mret logged_ret].
    + split; [reflexivity|]. split; [|reflexivity]. split.
      * intros _. split; [apply Hrc|apply Hrr]; by eexists.
      * intros _. by exists c, q.
    + split; [reflexivity|]. split; [|reflexivity]. split.
      * intros (c' & q' & [=]).
      * intros [_ Hr]. apply Hrr in Hr. by destruct Hr.
  - split; [reflexivity|]. split; [|reflexivity]. split.
    + intros (c' & q' & [=]).
    + intros [Hc _]. apply Hrc in Hc. by destruct Hc.
Qed.

(** What [predict_disease] does up to the feature extraction. *)
Lemma predict_disease_cases (image_path model_path labels_path : string) :
  let run := the_predict_disease image_path model_path labels_path in
  match joblib_load model_path with
  | Raise e => run = Logged [Ev_joblib_load model_path] (Raise e)
  | Ok m =>
      match json_load labels_path with
      | Raise e => run = Logged [Ev_joblib_load model_path; Ev_json_load labels_path]
                           (Raise e)
      | Ok class_names =>
          match the_body image_path with
          | Raise e =>
              run = Logged [Ev_joblib_load model_path; Ev_json_load labels_path;
                            Ev_print (Out_error_processing image_path e)] (Ok None)
          | Ok v =>
              result run <> Ok None /\
              Ev_predict [v] ∈ events run
          end
      end
  end.
Proof.
  cbn zeta. unfold predict_disease, extract_features_printing, emit, quiet,
    Predict.reshape_row.
  destruct (joblib_load model_path) as [m|e]; [|reflexivity].
  destruct (json_load labels_path) as [names|e]; [|reflexivity].
  destruct (the_body image_path) as [v|e]; [|reflexivity].
  cbn [mbind logged_bind events result app].
  assert (Hin : forall rest, Ev_predict [v] ∈
            Ev_joblib_load model_path :: Ev_json_load labels_path :: Ev_predict [v] :: rest).
  { intros rest. do 2 (apply elem_of_cons; right). apply elem_of_cons. by left. }
  destruct (model_predict m [v]) as [preds|e];
    cbn [mbind logged_bind events result app].
  2:{ split; [discriminate|apply Hin]. }
  destruct (py_index preds 0) as [p|e]; cbn [mbind logged_bind events result app].
  2:{ split; [discriminate|apply Hin]. }
  destruct (model_predict_proba m [v]) as [probas|e];
    cbn [mbind logged_bind events result app].
  2:{ split; [discriminate|apply Hin]. }
  destruct (py_index probas 0) as [row|e]; cbn [mbind logged_bind events result app].
  2:{ split; [discriminate|apply Hin]. }
  destruct (py_index names p) as [c|e]; cbn [mbind logged_bind events result app].
  2:{ split; [discriminate|apply Hin]. }
  destruct (py_index row p) as [q|e]; cbn [mbind logged_bind events result app].
  2:{ split; [discriminate|apply Hin]. }
  split; [discriminate|apply Hin].
Qed.

(** X15: the exit status of the generated script's command line is 0 or 1.
    It is 0 exactly when the script was given one argument and
    [predict_disease] returned a class and a confidence, which are then the
    last two lines printed.  Status 1 covers three situations: a wrong
    number of arguments (only the usage line is printed, nothing is
    loaded); model and labels loaded and the feature extraction failed
    (the model is never asked for a prediction, the last line is the
    could-not-process message); and any exception raised inside
    [predict_disease] (a model or labels file that fails to load, a failing
    library call, an index out of range), which nothing catches: the run
    ends with its traceback.  A model file that fails to load ends the run
    right after the load attempt. *)
Theorem predict_cli_exit_status (argv : list string) :
  let out := predict_cli Image_open_RGB_resize Image_convert_HSV pmodel joblib_load
               json_load model_predict model_predict_proba argv in
  (snd out = 0%Z \/ snd out = 1%Z) /\
  (snd out = 0%Z <->
     exists prog image_path c q,
       argv = [prog; image_path] /\
       result (predict_disease Image_open_RGB_resize Image_convert_HSV pmodel
                 joblib_load json_load model_predict model_predict_proba
                 image_path "model.pkl" "labels.json") = Ok (Some (c, q))) /\
  (length argv <> 2%nat -> out = ([Ev_print Out_usage], 1%Z)) /\
  (forall prog image_path, argv = [prog; image_path] ->
     let r := predict_disease Image_open_RGB_resize Image_convert_HSV pmodel
                joblib_load json_load model_predict model_predict_proba
                image_path "model.pkl" "labels.json" in
     (forall c q, result r = Ok (Some (c, q)) ->
        out = (events r ++ [Ev_print (Out_predicted c); Ev_print (Out_confidence q)],
               0%Z)) /\
     (result r = Ok None ->
        out = (events r ++ [Ev_print Out_could_not_process], 1%Z)) /\
     (forall e, result r = Raise e -> out = (events r ++ [Ev_traceback e], 1%Z)) /\
     (result r = Ok None <->
        exists m class_names e,
          joblib_load "model.pkl" = Ok m /\
          json_load "labels.json" = Ok class_names /\
          Predict.extract_features_body Image_open_RGB_resize Image_convert_HSV
            image_path = Raise e) /\
     (forall m class_names e,
        joblib_load "model.pkl" = Ok m ->
        json_load "labels.json" = Ok class_names ->
        Predict.extract_features_body Image_open_RGB_resize Image_convert_HSV
          image_path = Raise e ->
        out = ([Ev_joblib_load "model.pkl"; Ev_json_load "labels.json";
                Ev_print (Out_error_processing image_path e);
                Ev_print Out_could_not_process], 1%Z)) /\
     (forall e, joblib_load "model.pkl" = Raise e ->
        out = ([Ev_joblib_load "model.pkl"; Ev_traceback e], 1%Z)) /\
     (forall m e, joblib_load "model.pkl" = Ok m -> json_load "labels.json" = Raise e ->
        out = ([Ev_joblib_load "model.pkl"; Ev_json_load "labels.json"; Ev_traceback e],
               1%Z))).
Proof.
  cbn zeta. unfold predict_cli.
  destruct argv as [|prog [|image_path [|extra rest]]].
  1, 2, 4: cbn [length Nat.eqb negb fst snd];
    (split; [by right|]);
    (split; [split; [discriminate|by intros (? & ? & ? & ? & [=] & _)]|]);
    (split; [done|]); by intros ? ? [=].
  cbn [length Nat.eqb negb].
  change (py_index [prog; image_path] 1) with (Ok (A := string) image_path).
  cbn iota beta.
  pose proof (predict_disease_cases image_path "model.pkl" "labels.json") as Hc.
  cbn zeta in Hc.
  set (r := the_predict_disease image_path "model.pkl" "labels.json") in *.
  assert (Hnone : result r = Ok None <->
            exists m class_names e,
              joblib_load "model.pkl" = Ok m /\
              json_load "labels.json" = Ok class_names /\
              the_body image_path = Raise e).
  { destruct (joblib_load "model.pkl") as [m|e].
    - destruct (json_load "labels.json") as [names|e].
      + destruct (the_body image_path) as [v|e].
        * destruct Hc as [Hc _]. split; [done|]. by intros (? & ? & ? & _ & _ & [=]).
        * rewrite Hc. split; [|done]. intros _. by exists m, names, e.
      + rewrite Hc. split; [discriminate|]. by intros (? & ? & ? & _ & [=] & _).
    - rewrite Hc. split; [discriminate|]. by intros (? & ? & ? & [=] & _). }
  assert (Hload : forall e, joblib_load "model.pkl" = Raise e ->
            r = Logged [Ev_joblib_load "model.pkl"] (Raise e)).
  { intros e He. by rewrite He in Hc. }
  assert (Hlabels : forall m e, joblib_load "model.pkl" = Ok m ->
            json_load "labels.json" = Raise e ->
            r = Logged [Ev_joblib_load "model.pkl"; Ev_json_load "labels.json"] (Raise e)).
  { intros m e Hm He. by rewrite Hm, He in Hc. }
  assert (Hextract : forall m names e, joblib_load "model.pkl" = Ok m ->
            json_load "labels.json" = Ok names ->
            the_body image_path = Raise e ->
            r = Logged [Ev_joblib_load "model.pkl"; Ev_json_load "labels.json";
                        Ev_print (Out_error_processing image_path e)] (Ok None)).
  { intros m names e Hm Hn He. by rewrite Hm, Hn, He in Hc. }
  clear Hc.
  assert (Hrest : forall out : list pevent * Z,
    out = match result r with
          | Ok (Some (c, q)) =>
              (events r ++ [Ev_print (Out_predicted c); Ev_print (Out_confidence q)], 0%Z)
          | Ok None => (events r ++ [Ev_print Out_could_not_process], 1%Z)
          | Raise e => (events r ++ [Ev_traceback e], 1%Z)
          end ->
    forall prog' image_path', [prog; image_path] = [prog'; image_path'] ->
     (forall c q, result r = Ok (Some (c, q)) ->
        out = (events r ++ [Ev_print (Out_predicted c); Ev_print (Out_confidence q)],
               0%Z)) /\
     (result r = Ok None ->
        out = (events r ++ [Ev_print Out_could_not_process], 1%Z)) /\
     (forall e, result r = Raise e -> out = (events r ++ [Ev_traceback e], 1%Z)) /\
     (result r = Ok None <->
        exists m class_names e,
          joblib_load "model.pkl" = Ok m /\
          json_load "labels.json" = Ok class_names /\
          the_body image_path = Raise e) /\
     (forall m class_names e,
        joblib_load "model.pkl" = Ok m ->
        json_load "labels.json" = Ok class_names ->
        the_body image_path = Raise e ->
        out = ([Ev_joblib_load "model.pkl"; Ev_json_load "labels.json";
                Ev_print (Out_error_processing image_path e);
                Ev_print Out_could_not_process], 1%Z)) /\
     (forall e, joblib_load "model.pkl" = Raise e ->
        out = ([Ev_joblib_load "model.pkl"; Ev_traceback e], 1%Z)) /\
     (forall m e, joblib_load "model.pkl" = Ok m -> json_load "labels.json" = Raise e ->
        out = ([Ev_joblib_load "model.pkl"; Ev_json_load "labels.json"; Ev_traceback e],
               1%Z))).
  { intros out -> prog' image_path' _.
    split; [by intros c q ->|]. split; [by intros ->|]. split; [by intros e ->|].
    split; [exact Hnone|]. split; [|split].
    - intros m names e Hm Hn He. by rewrite (Hextract m names e Hm Hn He).
    - intros e He. by rewrite (Hload e He).
    - intros m e Hm He. by rewrite (Hlabels m e Hm He). }
  split; [|split; [|split]].
  - destruct (result r) as [[[c q]|]|e]; cbn [snd]; ((by left) || (by right)).
  - split.
    + intros H0. exists prog, image_path.
      destruct (result r) as [[[c q]|]|e] eqn:Hr; cbn [snd] in H0; try discriminate H0.
      exists c, q. split; [reflexivity|exact Hr].
    + intros (pr & ip & c & q & [= <- <-] & Hr). fold r in Hr. by rewrite Hr.
  - intros Hl. by contradict Hl.
  - intros prog' image_path' Heq. injection Heq as <- <-.
    by apply (Hrest _ eq_refl prog image_path).
Qed.

End PredictScriptFacts.

Lemma predict_disease_indexes_vocabulary_witness :
  result (predict_disease open_green hsv_green unit demo_joblib_load demo_json_load
            demo_predict demo_predict_proba "leaf.jpg" "model.pkl" "labels.json") =
    Ok (Some ("healthy"%string, 0.75%R)) /\
  ((exists c q,
      result (predict_disease open_green hsv_green unit demo_joblib_load demo_json_load
                demo_predict demo_predict_proba "leaf.jpg" "model.pkl" "labels.json") =
      Ok (Some (c, q))) <->
   (- 2 <= -1 < 2)%Z /\ (- 2 <= -1 < 2)%Z) /\
  events (predict_disease open_green hsv_green unit demo_joblib_load demo_json_load
            demo_predict demo_predict_proba "leaf.jpg" "model.pkl" "labels.json") =
    [Ev_joblib_load "model.pkl"; Ev_json_load "labels.json";
     Ev_predict [features_of green_image green_hsv];
     Ev_predict_proba [features_of green_image green_hsv]].
Proof.
  exact (predict_disease_indexes_vocabulary open_green hsv_green unit demo_joblib_load
           demo_json_load demo_predict demo_predict_proba
           "leaf.jpg" "model.pkl" "labels.json" tt ["blight"; "healthy"]%string
           (features_of green_image green_hsv) (-1)%Z [] [0.25%R; 0.75%R] []
           eq_refl eq_refl eq_refl eq_refl eq_refl).
Defined.

Lemma predict_cli_exit_status_witness :
  predict_cli open_green hsv_green unit (fun _ => Raise OSError) demo_json_load
    demo_predict demo_predict_proba ["predict.py"; "leaf.jpg"]%string =
  ([Ev_joblib_load "model.pkl"; Ev_traceback OSError], 1%Z).
Proof.
  pose proof (predict_cli_exit_status open_green hsv_green unit
    (fun _ => Raise OSError) demo_json_load demo_predict demo_predict_proba
    ["predict.py"; "leaf.jpg"]%string) as H.
  cbn zeta in H. destruct H as (_ & _ & _ & H).
  destruct (H "predict.py"%string "leaf.jpg"%string eq_refl)
    as (_ & _ & _ & _ & _ & Hload & _).
  exact (Hload OSError eq_refl).
Defined.

(** * The trainer and the entry point *)

Section TrainerFacts.

Variable os : OS.
Variable Image_open_RGB_resize : string -> Z -> res ndarray3.
Variable Image_convert_HSV : ndarray3 -> res ndarray3.
Variable rng : Type.
Variable random_sample : rng -> list string -> nat -> list string * rng.
Variable os_makedirs : string -> res unit.
Variables model report matrix : Type.
Variable train_test_split :
  list (list R) -> list nat -> res (list (list R) * list (list R) * list nat * list nat).
Variable ensemble_fit : list (list R) -> list nat -> res model.
Variable ensemble_predict : model -> list (list R) -> res (list nat).
Variable accuracy_score : list nat -> list nat -> res R.
Variable classification_report : list nat -> list nat -> list string -> res report.
Variable confusion_matrix : list nat -> list nat -> res matrix.
Variable save_model : model -> list string -> R -> report -> matrix -> res unit.

Local Abbreviation the_train_model :=
  (train_model model report matrix train_test_split ensemble_fit ensemble_predict
     accuracy_score classification_report confusion_matrix).
(** The calls of a complete run of [train_model]. *)
Lemma train_model_calls_prefix (X : list (list R)) (y : list nat) (names : list string) :
  exists X_train X_test y_train y_test train_pred test_pred,
    calls (the_train_model X y names) `prefix_of`
    [ Call_train_test_split X y; Call_fit X_train y_train;
      Call_predict X_train; Call_predict X_test;
      Call_accuracy_score y_train train_pred; Call_accuracy_score y_test test_pred;
      Call_classification_report y_test test_pred names;
      Call_confusion_matrix y_test test_pred ].
Proof.
  unfold train_model, external.
  destruct (train_test_split X y) as [[[[Xtr Xte] ytr] yte]|e];
    cbn [mbind traced_bind calls outcome app].
  2:{ exists [], [], [], [], [], []. by eexists. }
  exists Xtr, Xte, ytr, yte.
  destruct (ensemble_fit Xtr ytr) as [m|e]; cbn [mbind traced_bind calls outcome app].
  2:{ exists [], []. by eexists. }
  destruct (ensemble_predict m Xtr) as [ptr|e]; cbn [mbind traced_bind calls outcome app].
  2:{ exists [], []. by eexists. }
  exists ptr.
  destruct (ensemble_predict m Xte) as [pte|e]; cbn [mbind traced_bind calls outcome app].
  2:{ exists []. by eexists. }
  exists pte.
  destruct (accuracy_score ytr ptr) as [atr|e]; cbn [mbind traced_bind calls outcome app].
  2:{ by eexists. }
  destruct (accuracy_score yte pte) as [ate|e]; cbn [mbind traced_bind calls outcome app].
  2:{ by eexists. }
  destruct (classification_report yte pte names) as [rp|e];
    cbn [mbind traced_bind calls outcome app].
  2:{ by eexists. }
  destruct (confusion_matrix yte pte) as [cmv|e];
    cbn [mbind traced_bind calls outcome app mret traced_ret]; by eexists.
Qed.

(** X16: what a normal return of [train_model] means: the model was fitted
    on the training part of the split only, the returned accuracy is the
    accuracy on the held-out part (the training accuracy is computed but
    not returned), and report and confusion matrix are computed on the
    held-out part with the class vocabulary as target names; the eight
    library calls were made in this order. *)
Theorem train_model_result_meaning (X : list (list R)) (y : list nat)
    (names : list string) (m : model) (acc : R) (rep : report) (cm : matrix)
    (X_test : list (list R)) (y_test : list nat) :
  outcome (train_model model report matrix train_test_split ensemble_fit
             ensemble_predict accuracy_score classification_report confusion_matrix
             X y names) = Ok (m, acc, rep, cm, X_test, y_test) ->
  exists X_train y_train train_pred test_pred train_acc,
    train_test_split X y = Ok (X_train, X_test, y_train, y_test) /\
    ensemble_fit X_train y_train = Ok m /\
    ensemble_predict m X_train = Ok train_pred /\
    ensemble_predict m X_test = Ok test_pred /\
    accuracy_score y_train train_pred = Ok train_acc /\
    accuracy_score y_test test_pred = Ok acc /\
    classification_report y_test test_pred names = Ok rep /\
    confusion_matrix y_test test_pred = Ok cm /\
    calls (train_model model report matrix train_test_split ensemble_fit
             ensemble_predict accuracy_score classification_report confusion_matrix
             X y names) =
      [ Call_train_test_split X y; Call_fit X_train y_train;
        Call_predict X_train; Call_predict X_test;
        Call_accuracy_score y_train train_pred; Call_accuracy_score y_test test_pred;
        Call_classification_report y_test test_pred names;
        Call_confusion_matrix y_test test_pred ].
Proof.
  unfold train_model, external.
  destruct (train_test_split X y) as [[[[Xtr Xte] ytr] yte]|e];
    cbn [mbind traced_bind calls outcome app]; [|discriminate].
  destruct (ensemble_fit Xtr ytr) as [m'|e] eqn:Hfit;
    cbn [mbind traced_bind calls outcome app]; [|discriminate].
  destruct (ensemble_predict m' Xtr) as [ptr|e] eqn:Hp1;
    cbn [mbind traced_bind calls outcome app]; [|discriminate].
  destruct (ensemble_predict m' Xte) as [pte|e] eqn:Hp2;
    cbn [mbind traced_bind calls outcome app]; [|discriminate].
  destruct (accuracy_score ytr ptr) as [atr|e] eqn:Ha1;
    cbn [mbind traced_bind calls outcome app]; [|discriminate].
  destruct (accuracy_score yte pte) as [ate|e] eqn:Ha2;
    cbn [mbind traced_bind calls outcome app]; [|discriminate].
  destruct (classification_report yte pte names) as [rp|e] eqn:Hr;
    cbn [mbind traced_bind calls outcome app]; [|discriminate].
  destruct (confusion_matrix yte pte) as [cmv|e] eqn:Hcm;
    cbn [mbind traced_bind calls outcome app mret traced_ret]; [|discriminate].
  intros [= <- <- <- <- <- <-].
  exists Xtr, ytr, ptr, pte, atr. by repeat split.
Qed.

(** X17: [main] first constructs the trainer, which creates the output
    directory; when that raises, or when the assembler raises afterwards,
    the run ends with that exception and no library call has been made.
    Otherwise [main] trains on what the assembler returned: when
    [train_model] raises, its calls are all the calls of the run and its
    exception is the outcome; when it returns, [save_model] is called
    once, last, with the trained model, the assembler's vocabulary, the
    test accuracy, the report and the confusion matrix, and its outcome is
    the outcome of the run.  So [save_model] is called only after the
    directory was created, the assembler returned and [train_model]
    returned, and the classification report gets the assembler's
    vocabulary as target names. *)
Theorem main_saves_after_training (g : rng) :
  let run := main os Image_open_RGB_resize Image_convert_HSV rng random_sample
               os_makedirs model report matrix train_test_split ensemble_fit
               ensemble_predict accuracy_score classification_report
               confusion_matrix save_model g in
  let assembled := prepare_dataset os Image_open_RGB_resize Image_convert_HSV rng
                     random_sample (default_dataset_paths os) g in
  (forall e, os_makedirs OUTPUT_DIR = Raise e -> run = Traced [] (Raise e)) /\
  (forall e, os_makedirs OUTPUT_DIR = Ok tt -> assembled = Raise e ->
     run = Traced [] (Raise e)) /\
  (forall X y names g' e,
     os_makedirs OUTPUT_DIR = Ok tt -> assembled = Ok (X, y, names, g') ->
     outcome (the_train_model X y names) = Raise e ->
     run = Traced (calls (the_train_model X y names)) (Raise e)) /\
  (forall X y names g' m acc rep cm X_test y_test,
     os_makedirs OUTPUT_DIR = Ok tt -> assembled = Ok (X, y, names, g') ->
     outcome (the_train_model X y names) = Ok (m, acc, rep, cm, X_test, y_test) ->
     run = Traced (calls (the_train_model X y names) ++ [Call_save_model names])
                  (save_model m names acc rep cm)) /\
  (forall saved_names, Call_save_model saved_names ∈ calls run ->
     os_makedirs OUTPUT_DIR = Ok tt /\
     exists X y g' r,
       assembled = Ok (X, y, saved_names, g') /\
       outcome (the_train_model X y saved_names) = Ok r) /\
  (forall y_true y_pred target_names,
     Call_classification_report y_true y_pred target_names ∈ calls run ->
     os_makedirs OUTPUT_DIR = Ok tt /\
     exists X y g', assembled = Ok (X, y, target_names, g')).
Proof.
  cbn zeta. unfold main, trainer_init, internal, external.
  destruct (os_makedirs OUTPUT_DIR) as [[]|e0];
    cbn [mbind traced_bind calls outcome app].
  2:{ split; [by intros e [= <-]|]. split; [discriminate|].
      split; [discriminate|]. split; [discriminate|].
      split; [intros ? Hs|intros ? ? ? Hs]; by apply elem_of_nil in Hs. }
  destruct (prepare_dataset os Image_open_RGB_resize Image_convert_HSV rng random_sample
              (default_dataset_paths os) g) as [[[[X y] names] g']|e0];
    cbn [mbind traced_bind calls outcome app].
  2:{ split; [discriminate|]. split; [by intros e _ [= <-]|].
      split; [discriminate|]. split; [discriminate|].
      split; [intros ? Hs|intros ? ? ? Hs]; by apply elem_of_nil in Hs. }
  destruct (train_model_calls_prefix X y names)
    as (Xtr & Xte & ytr & yte & ptr & pte & (rest & Hfull)).
  assert (Hin : forall c, c ∈ calls (the_train_model X y names) ->
            c ∈ [ Call_train_test_split X y; Call_fit Xtr ytr;
                  Call_predict Xtr; Call_predict Xte;
                  Call_accuracy_score ytr ptr; Call_accuracy_score yte pte;
                  Call_classification_report yte pte names;
                  Call_confusion_matrix yte pte ]).
  { intros c Hc. rewrite Hfull. apply elem_of_app. by left. }
  assert (Hsave : forall saved, Call_save_model saved ∉ calls (the_train_model X y names)).
  { intros saved Hs. apply Hin in Hs.
    repeat (apply elem_of_cons in Hs as [Hs|Hs]; [discriminate Hs|]).
    by apply elem_of_nil in Hs. }
  assert (Hreport : forall yt yp tn,
            Call_classification_report yt yp tn ∈ calls (the_train_model X y names) ->
            tn = names).
  { intros yt yp tn Hs. apply Hin in Hs.
    do 6 (apply elem_of_cons in Hs as [Hs|Hs]; [discriminate Hs|]).
    apply elem_of_cons in Hs as [Hs|Hs]; [by injection Hs|].
    apply list_elem_of_singleton in Hs. discriminate Hs. }
  clear Hin Hfull. unfold mbind, traced_bind.
  destruct (outcome (the_train_model X y names))
    as [[[[[[m acc] rp] cmv] Xt] yt]|e0] eqn:Ho;
    cbn [calls outcome app].
  - split; [discriminate|]. split; [discriminate|]. split.
    { intros ? ? ? ? e _ [= <- <- <- <-] He. rewrite Ho in He. discriminate He. }
    split.
    { intros ? ? ? ? m' acc' rep' cm' Xt' yt' _ [= <- <- <- <-] Ho'.
      rewrite Ho in Ho'. by injection Ho' as <- <- <- <- <- <-. }
    split.
    + intros saved Hs. split; [done|]. apply elem_of_app in Hs as [Hs|Hs].
      * by apply Hsave in Hs.
      * apply list_elem_of_singleton in Hs. injection Hs as ->.
        exists X, y, g', (m, acc, rp, cmv, Xt, yt). by rewrite Ho.
    + intros yt' yp tn Hs. split; [done|]. apply elem_of_app in Hs as [Hs|Hs].
      * apply Hreport in Hs as ->. by exists X, y, g'.
      * apply list_elem_of_singleton in Hs. discriminate Hs.
  - split; [discriminate|]. split; [discriminate|]. split.
    { intros ? ? ? ? e _ [= <- <- <- <-] He. rewrite Ho in He. by injection He as <-. }
    split.
    { intros ? ? ? ? m' acc' rep' cm' Xt' yt' _ [= <- <- <- <-] Ho'.
      rewrite Ho in Ho'. discriminate Ho'. }
    split.
    + intros saved Hs. by apply Hsave in Hs.
    + intros yt' yp tn Hs. split; [done|]. apply Hreport in Hs as ->. by exists X, y, g'.
Qed.

End TrainerFacts.

Lemma train_model_result_meaning_witness :
  exists X_train y_train train_pred test_pred train_acc,
    split_rejecting_empty [[1%R]] [0%nat] = Ok (X_train, [], y_train, []) /\
    Ok tt = Ok tt /\
    Ok [] = Ok train_pred /\
    Ok [] = Ok test_pred /\
    Ok 0%R = Ok train_acc /\
    Ok 0%R = Ok 0%R /\
    Ok tt = Ok tt /\
    Ok tt = Ok tt /\
    calls (train_model unit unit unit split_rejecting_empty
             (fun _ _ => Ok tt) (fun _ _ => Ok []) (fun _ _ => Ok 0%R)
             (fun _ _ _ => Ok tt) (fun _ _ => Ok tt) [[1%R]] [0%nat] ["blight"]%string) =
      [ Call_train_test_split [[1%R]] [0%nat]; Call_fit X_train y_train;
        Call_predict X_train; Call_predict [];
        Call_accuracy_score y_train train_pred; Call_accuracy_score [] test_pred;
        Call_classification_report [] test_pred ["blight"]%string;
        Call_confusion_matrix [] test_pred ].
Proof.
  exact (train_model_result_meaning unit unit unit split_rejecting_empty
           (fun _ _ => Ok tt) (fun _ _ => Ok []) (fun _ _ => Ok 0%R)
           (fun _ _ _ => Ok tt) (fun _ _ => Ok tt)
           [[1%R]] [0%nat] ["blight"]%string tt 0%R tt tt [] [] eq_refl).
Defined.

Lemma main_saves_after_training_witness :
  main bare_os open_green hsv_green nat first_k_sample (fun _ => Raise OSError)
    unit unit unit split_rejecting_empty
    (fun _ _ => Ok tt) (fun _ _ => Ok []) (fun _ _ => Ok 0%R)
    (fun _ _ _ => Ok tt) (fun _ _ => Ok tt) (fun _ _ _ _ _ => Ok tt) 0%nat =
  Traced [] (Raise OSError).
Proof.
  pose proof (main_saves_after_training bare_os open_green hsv_green nat first_k_sample
    (fun _ => Raise OSError) unit unit unit split_rejecting_empty
    (fun _ _ => Ok tt) (fun _ _ => Ok []) (fun _ _ => Ok 0%R)
    (fun _ _ _ => Ok tt) (fun _ _ => Ok tt) (fun _ _ _ _ _ => Ok tt) 0%nat) as H.
  cbn zeta in H. destruct H as (H & _).
  exact (H OSError eq_refl).
Defined.
